(** * Voter reconciliation and leadership monitoring of the taskvault agent

    A shallow embedding of [taskvault/leader.go] and of [setupRaft] from
    [taskvault/agent.go].  The Raft and gossip libraries are external: every
    call the agent issues to them is a node of a program tree, and an
    execution is a trace recording each call together with the answer the
    library gave. *)

From Stdlib Require Import String Ascii List Bool ZArith Arith Lia.
From Stdlib Require Import DecimalString.
Import ListNotations.
Local Open Scope string_scope.
Local Open Scope list_scope.

Set Implicit Arguments.

(** ** Data of the gossip library (package [serf]) *)

Module serf.

(** [serf.MemberStatus] *)
Inductive MemberStatus :=
| StatusNone
| StatusAlive
| StatusLeaving
| StatusLeft
| StatusFailed.

(** [net.IP] is a byte slice. *)
Definition IP := list Z.

(** [serf.Member]; [Tags] is a Go map, kept as an association list. *)
Record Member := {
  Name : string;
  Addr : IP;
  Port : Z;
  Tags : list (string * string);
  Status : MemberStatus
}.

End serf.

(** ** Data of the consensus library (package [raft]) *)

Module raft.

Definition ServerID := string.
Definition ServerAddress := string.

Inductive ServerSuffrage := Voter | Nonvoter | Staging.

Record Server := {
  Suffrage : ServerSuffrage;
  ID : ServerID;
  Address : ServerAddress
}.

(** [raft.Configuration.Servers] *)
Definition Configuration := list Server.

End raft.

(** ** Data of the agent *)

Module ServerParts.

(** The fields of [ServerParts] that [leader.go] reads. *)
Record t := {
  ID : string;
  Port : Z;
  Bootstrap : bool
}.

End ServerParts.

Module Config.

(** The fields of [Config] read by [leader.go] and [setupRaft]. *)
Record t := {
  NodeName : string;
  Bootstrap : bool;
  BootstrapExpect : Z;
  DevMode : bool;
  DataDir : string
}.

End Config.

(** Go [error] values.  An error handed back by a library is opaque; the
    agent wraps some of them with [fmt.Errorf]. *)
Inductive Error :=
| LibError (msg : string)
| ErrRemovingServer (addr : raft.ServerAddress) (cause : Error)
| ErrFileSnapshotStore (cause : Error)
| ErrNewRaftStore (cause : Error)
| ErrNewRaft (cause : Error).

(** Logging: level, message (or format), and the extra arguments. *)
Inductive Level := DebugLevel | InfoLevel | WarnLevel | ErrorLevel.

Inductive Field :=
| ZapError (e : Error)
| ZapString (key val : string)
| ZapAny (key : string) (m : serf.Member)
| Arg (s : string).

(** The cases of the [select] in the wait phase of [leaderLoop]. *)
Inductive WaitCase :=
| CaseStop
| CaseShutdown
| CaseInterval
| CaseMember (m : serf.Member).

(** [io.Writer] handed to the libraries for their own logging. *)
Inductive Output := Discard | Stdout.

(** Handles on the stores built by [setupRaft]; a path is kept as the
    list of the elements given to [filepath.Join].  [NilBoltStore] is the
    nil [*BoltStore] that [raftboltdb.NewBoltStore] returns beside an
    error. *)
Inductive Store :=
| InmemStore
| DiscardSnapshotStore
| FileSnapshotStore (dir : list string) (retain : Z)
| BoltStore (path : list string)
| NilBoltStore
| LogCache (capacity : Z) (inner : Store).

(** ** Calls to the outside, indexed by the type of their answer *)

Inductive Call : Type -> Type :=
| SerfMembers : Call (list serf.Member)
| RaftGetConfiguration : Call (Error + raft.Configuration)
| RaftAddVoter (id : raft.ServerID) (addr : raft.ServerAddress)
  : Call (option Error)
| RaftRemoveServer (id : raft.ServerID) : Call (option Error)
| RaftBarrier (timeout : Z) : Call (option Error)
| Log (lvl : Level) (msg : string) (fields : list Field) : Call unit
| MeasureSince (key : list string) : Call unit
| TimeAfter (d : Z) : Call unit
| PollStop : Call bool
| SelectWait (refreshCh : bool) : Call WaitCase
| NewNetworkTransport (maxPool timeout : Z) : Call unit
| NewFileSnapshotStore (dir : list string) (retain : Z) (logger : Output)
  : Call (option Error)
| NewBoltStore (path : list string) : Call (option Error)
| NewLogCache (capacity : Z) (inner : Store) : Call (option Error)
| CloseStore (s : Store) : Call unit
| HasExistingState (logs stable snaps : Store) : Call (Error + bool)
| BootstrapCluster (localID : raft.ServerID) (logs stable snaps : Store)
    (configuration : raft.Configuration) : Call (option Error)
| TransportLocalAddr : Call raft.ServerAddress
| NewRaft (localID : raft.ServerID) (logs stable snaps : Store)
  : Call (option Error).

(** One entry of a trace: a call together with its answer. *)
Inductive Event :=
| EvMembers (ms : list serf.Member)
| EvGetConfiguration (res : Error + raft.Configuration)
| EvAddVoter (id : raft.ServerID) (addr : raft.ServerAddress)
    (err : option Error)
| EvRemoveServer (id : raft.ServerID) (err : option Error)
| EvBarrier (timeout : Z) (err : option Error)
| EvLog (lvl : Level) (msg : string) (fields : list Field)
| EvMeasureSince (key : list string)
| EvTimeAfter (d : Z)
| EvPollStop (stopped : bool)
| EvSelectWait (refreshCh : bool) (c : WaitCase)
| EvNewNetworkTransport (maxPool timeout : Z)
| EvNewFileSnapshotStore (dir : list string) (retain : Z) (logger : Output)
    (err : option Error)
| EvNewBoltStore (path : list string) (err : option Error)
| EvNewLogCache (capacity : Z) (inner : Store) (err : option Error)
| EvCloseStore (s : Store)
| EvHasExistingState (logs stable snaps : Store) (res : Error + bool)
| EvBootstrapCluster (localID : raft.ServerID) (logs stable snaps : Store)
    (configuration : raft.Configuration) (err : option Error)
| EvTransportLocalAddr (addr : raft.ServerAddress)
| EvNewRaft (localID : raft.ServerID) (logs stable snaps : Store)
    (err : option Error).

(** A receive on a nil channel never proceeds: with [refreshCh] nil the
    select of the wait phase cannot take its member case. *)
Definition waitCaseEnabled (refreshCh : bool) (c : WaitCase) : bool :=
  match c with
  | CaseMember _ => refreshCh
  | _ => true
  end.

(** ** Programs: trees of calls *)

Inductive Prog (R : Type) : Type :=
| Ret (r : R)
| Vis (X : Type) (c : Call X) (k : X -> Prog R).

Arguments Ret {R} r.
Arguments Vis {R X} c k.

Fixpoint bind {A B : Type} (p : Prog A) (f : A -> Prog B) : Prog B :=
  match p with
  | Ret a => f a
  | Vis c k => Vis c (fun x => bind (k x) f)
  end.

Definition call {X : Type} (c : Call X) : Prog X := Vis c (fun x => Ret x).

Declare Scope prog_scope.
Delimit Scope prog_scope with prog.
Notation "x <- p ;; q" := (bind p (fun x => q))
  (at level 61, p at next level, right associativity) : prog_scope.
Notation "p ;; q" := (bind p (fun _ => q))
  (at level 61, right associativity) : prog_scope.
Local Open Scope prog_scope.

(** ** Decidable equality of the data in events *)

Definition MemberStatus_eq_dec (a b : serf.MemberStatus) : {a = b} + {a <> b}.
Proof. decide equality. Defined.

Definition Tag_eq_dec (a b : string * string) : {a = b} + {a <> b}.
Proof. decide equality; apply string_dec. Defined.

Definition Member_eq_dec (a b : serf.Member) : {a = b} + {a <> b}.
Proof.
  decide equality;
    first [ apply MemberStatus_eq_dec
          | apply (list_eq_dec Tag_eq_dec)
          | apply Z.eq_dec
          | apply (list_eq_dec Z.eq_dec)
          | apply string_dec ].
Defined.

Definition Error_eq_dec (a b : Error) : {a = b} + {a <> b}.
Proof. decide equality; apply string_dec. Defined.

Definition Field_eq_dec (a b : Field) : {a = b} + {a <> b}.
Proof.
  decide equality;
    first [ apply string_dec | apply Error_eq_dec | apply Member_eq_dec ].
Defined.

Definition Output_eq_dec (a b : Output) : {a = b} + {a <> b}.
Proof. decide equality. Defined.

Definition Level_eq_dec (a b : Level) : {a = b} + {a <> b}.
Proof. decide equality. Defined.

Definition Store_eq_dec (a b : Store) : {a = b} + {a <> b}.
Proof.
  decide equality;
    first [ apply (list_eq_dec string_dec) | apply Z.eq_dec ].
Defined.

Definition Server_eq_dec (a b : raft.Server) : {a = b} + {a <> b}.
Proof. decide equality; try apply string_dec. decide equality. Defined.

(** [same d a b x] is [Some x] when the argument [b] recorded in the trace
    is the argument [a] of the call. *)
Definition same {A X : Type} (dec : forall a b : A, {a = b} + {a <> b})
  (a b : A) (x : option X) : option X :=
  if dec a b then x else None.

(** [resp c e]: the answer that the event [e] records for the call [c],
    if [e] is an event of that call. *)
Definition resp {X : Type} (c : Call X) (e : Event) : option X :=
  match c in Call X return option X with
  | SerfMembers =>
      match e with EvMembers ms => Some ms | _ => None end
  | RaftGetConfiguration =>
      match e with EvGetConfiguration r => Some r | _ => None end
  | RaftAddVoter id addr =>
      match e with
      | EvAddVoter id' addr' r =>
          same string_dec id id' (same string_dec addr addr' (Some r))
      | _ => None
      end
  | RaftRemoveServer id =>
      match e with
      | EvRemoveServer id' r => same string_dec id id' (Some r)
      | _ => None
      end
  | RaftBarrier t =>
      match e with
      | EvBarrier t' r => same Z.eq_dec t t' (Some r)
      | _ => None
      end
  | Log lvl msg fields =>
      match e with
      | EvLog lvl' msg' fields' =>
          same Level_eq_dec lvl lvl'
            (same string_dec msg msg'
               (same (list_eq_dec Field_eq_dec) fields fields' (Some tt)))
      | _ => None
      end
  | MeasureSince key =>
      match e with
      | EvMeasureSince key' =>
          same (list_eq_dec string_dec) key key' (Some tt)
      | _ => None
      end
  | TimeAfter d =>
      match e with
      | EvTimeAfter d' => same Z.eq_dec d d' (Some tt)
      | _ => None
      end
  | PollStop =>
      match e with EvPollStop b => Some b | _ => None end
  | SelectWait rc =>
      match e with
      | EvSelectWait rc' c =>
          same Bool.bool_dec rc rc'
            (if waitCaseEnabled rc c then Some c else None)
      | _ => None
      end
  | NewNetworkTransport n t =>
      match e with
      | EvNewNetworkTransport n' t' =>
          same Z.eq_dec n n' (same Z.eq_dec t t' (Some tt))
      | _ => None
      end
  | NewFileSnapshotStore dir n o =>
      match e with
      | EvNewFileSnapshotStore dir' n' o' r =>
          same (list_eq_dec string_dec) dir dir'
            (same Z.eq_dec n n' (same Output_eq_dec o o' (Some r)))
      | _ => None
      end
  | NewBoltStore path =>
      match e with
      | EvNewBoltStore path' r =>
          same (list_eq_dec string_dec) path path' (Some r)
      | _ => None
      end
  | NewLogCache n s =>
      match e with
      | EvNewLogCache n' s' r =>
          same Z.eq_dec n n' (same Store_eq_dec s s' (Some r))
      | _ => None
      end
  | CloseStore s =>
      match e with
      | EvCloseStore s' => same Store_eq_dec s s' (Some tt)
      | _ => None
      end
  | HasExistingState l s n =>
      match e with
      | EvHasExistingState l' s' n' r =>
          same Store_eq_dec l l'
            (same Store_eq_dec s s' (same Store_eq_dec n n' (Some r)))
      | _ => None
      end
  | BootstrapCluster id l s n cfg =>
      match e with
      | EvBootstrapCluster id' l' s' n' cfg' r =>
          same string_dec id id'
            (same Store_eq_dec l l'
               (same Store_eq_dec s s'
                  (same Store_eq_dec n n'
                     (same (list_eq_dec Server_eq_dec) cfg cfg' (Some r)))))
      | _ => None
      end
  | TransportLocalAddr =>
      match e with EvTransportLocalAddr a => Some a | _ => None end
  | NewRaft id l s n =>
      match e with
      | EvNewRaft id' l' s' n' r =>
          same string_dec id id'
            (same Store_eq_dec l l'
               (same Store_eq_dec s s' (same Store_eq_dec n n' (Some r))))
      | _ => None
      end
  end.

(** [replay p tr]: run [p] against the answers recorded in [tr].  The result
    is [Some r] exactly when [p], given those answers, issues the calls of
    [tr] in that order, nothing else, and returns [r]. *)
Fixpoint replay {R : Type} (p : Prog R) (tr : list Event) : option R :=
  match p with
  | Ret r => match tr with [] => Some r | _ :: _ => None end
  | Vis c k =>
      match tr with
      | [] => None
      | e :: tr' =>
          match resp c e with
          | Some x => replay (k x) tr'
          | None => None
          end
      end
  end.

(** ** The agent *)

(** The fields of [Agent] that [leader.go] and [setupRaft] read or write.
    [refreshCh] tells whether the channel [a.refreshCh] is non-nil, and
    [raftUp] whether [a.raft] and [a.leaderCh] have been set. *)
Record Agent := {
  config : Config.t;
  loggerLevel : Level;
  raftStore : option Store;
  raftInmemStore : option Store;
  refreshCh : bool;
  refreshInterval : Z;
  raftUp : bool
}.

(** Two functions that the agent calls and whose source lies outside
    [leader.go] and [agent.go]: [toServerPart] (it returns nil for a member
    that is not a server) and the rendering
    [(&net.TCPAddr{IP, Port}).String()] of the Go library. *)
Class Externals := {
  toServerPart : serf.Member -> option ServerParts.t;
  tcpAddrString : serf.IP -> Z -> string
}.

(** [barrierWriteTimeout = 2 * time.Minute], in nanoseconds. *)
Definition barrierWriteTimeout : Z := 2 * 60 * 1000000000.

(** [raftTimeout = 30 * time.Second], [raftLogCacheSize = 512]. *)
Definition raftTimeout : Z := 30 * 1000000000.
Definition raftLogCacheSize : Z := 512.

Definition bothBootstrapFormat : string :=
  "taskvault: '%v' and '%v' are both in bootstrap mode..".

Definition metricRefresh : list string := ["taskvault"; "leader"; "Refresh"].
Definition metricRefreshMember : list string :=
  ["taskvault"; "leader"; "RefreshMember"].
Definition metricBarrier : list string := ["taskvault"; "leader"; "barrier"].

Section Reconciler.

Context {ext : Externals}.
Variable a : Agent.

(** The loop over [members] at the head of [addRaftPeer]; the result is
    [true] when the loop has made the function return (with nil). *)
Fixpoint addRaftPeer_bootstrapLoop (m : serf.Member)
    (members : list serf.Member) : Prog bool :=
  match members with
  | [] => Ret false
  | member :: rest =>
      match toServerPart member with
      | None => addRaftPeer_bootstrapLoop m rest
      | Some parts =>
          if negb (serf.Name member =? serf.Name m)
             && ServerParts.Bootstrap parts
          then
            call (Log ErrorLevel bothBootstrapFormat
                    [Arg (serf.Name m); Arg (serf.Name member)]);;
            Ret true
          else addRaftPeer_bootstrapLoop m rest
      end
  end.

(** The loop over the servers of the configuration in [addRaftPeer];
    [Some r] when the loop has made the function return [r], [None] when
    the loop has run to its end. *)
Fixpoint addRaftPeer_serverLoop (addr : raft.ServerAddress)
    (id : raft.ServerID) (servers : list raft.Server)
    : Prog (option (option Error)) :=
  match servers with
  | [] => Ret None
  | server :: rest =>
      if (raft.Address server =? addr) || (raft.ID server =? id) then
        if (raft.Address server =? addr) && (raft.ID server =? id) then
          Ret (Some None)
        else if raft.Address server =? addr then
          future <- call (RaftRemoveServer (raft.ID server));;
          match future with
          | Some err =>
              Ret (Some (Some (ErrRemovingServer (raft.Address server) err)))
          | None => addRaftPeer_serverLoop addr id rest
          end
        else addRaftPeer_serverLoop addr id rest
      else addRaftPeer_serverLoop addr id rest
  end.

Definition addRaftPeer (m : serf.Member) (parts : ServerParts.t)
    : Prog (option Error) :=
  members <- call SerfMembers;;
  returned <- (if ServerParts.Bootstrap parts
               then addRaftPeer_bootstrapLoop m members
               else Ret false);;
  if returned : bool then Ret None else
  let addr := tcpAddrString (serf.Addr m) (ServerParts.Port parts) in
  configFuture <- call RaftGetConfiguration;;
  match configFuture with
  | inl err =>
      call (Log ErrorLevel "taskvault: failed to get raft configuration"
              [ZapError err]);;
      Ret (Some err)
  | inr servers =>
      skip <- (if serf.Name m =? Config.NodeName (config a) then
                 if (length servers <? 3)%nat then
                   call (Log DebugLevel "taskvault: Skipping self join check"
                           [ZapString "peer" (serf.Name m)]);;
                   Ret true
                 else Ret false
               else Ret false);;
      if skip : bool then Ret None else
      returned <- addRaftPeer_serverLoop addr (ServerParts.ID parts) servers;;
      match returned with
      | Some r => Ret r
      | None =>
          addFuture <- call (RaftAddVoter (ServerParts.ID parts) addr);;
          match addFuture with
          | Some err => Ret (Some err)
          | None => Ret None
          end
      end
  end.

(** The loop of [removeRaftPeer]; it stops at the first server that has
    the ID. *)
Fixpoint removeRaftPeer_serverLoop (id : raft.ServerID)
    (servers : list raft.Server) : Prog (option Error) :=
  match servers with
  | [] => Ret None
  | server :: rest =>
      if raft.ID server =? id then
        future <- call (RaftRemoveServer id);;
        match future with
        | Some err => Ret (Some err)
        | None => Ret None
        end
      else removeRaftPeer_serverLoop id rest
  end.

Definition removeRaftPeer (m : serf.Member) (parts : ServerParts.t)
    : Prog (option Error) :=
  if serf.Name m =? Config.NodeName (config a) then
    call (Log WarnLevel "removing self should be done by follower"
            [Arg "name"; Arg (Config.NodeName (config a))]);;
    Ret None
  else
    configFuture <- call RaftGetConfiguration;;
    match configFuture with
    | inl err => Ret (Some err)
    | inr servers =>
        removeRaftPeer_serverLoop (ServerParts.ID parts) servers
    end.

Definition RefreshMember (member : serf.Member) : Prog (option Error) :=
  match toServerPart member with
  | None => Ret None
  | Some parts =>
      err <- match serf.Status member with
             | serf.StatusAlive => addRaftPeer member parts
             | serf.StatusLeft => removeRaftPeer member parts
             | _ => Ret None
             end;;
      match err with
      | Some e =>
          call (Log ErrorLevel "failed to Refresh member"
                  [ZapError e; ZapAny "member" member]);;
          call (MeasureSince metricRefreshMember);;
          Ret (Some e)
      | None =>
          call (MeasureSince metricRefreshMember);;
          Ret None
      end
  end.

Fixpoint Refresh_loop (members : list serf.Member) : Prog (option Error) :=
  match members with
  | [] => Ret None
  | member :: rest =>
      err <- RefreshMember member;;
      match err with
      | Some e => Ret (Some e)
      | None => Refresh_loop rest
      end
  end.

Definition Refresh : Prog (option Error) :=
  members <- call SerfMembers;;
  r <- Refresh_loop members;;
  call (MeasureSince metricRefresh);;
  Ret r.

(** *** [leaderLoop]: the two labels of the function and its return *)

Inductive Label :=
| REFRESH
| WAIT (refreshCh : bool)
| RETURN.

(** The code run from a label up to the next jump; [refreshCh] of [WAIT]
    tells whether the local [refreshCh] is non-nil. *)
Definition leaderLoop_block (l : Label) : Prog Label :=
  match l with
  | REFRESH =>
      call (TimeAfter (refreshInterval a));;
      barrier <- call (RaftBarrier barrierWriteTimeout);;
      match barrier with
      | Some err =>
          call (Log ErrorLevel "taskvault: failed to wait for barrier"
                  [ZapError err]);;
          Ret (WAIT false)
      | None =>
          call (MeasureSince metricBarrier);;
          r <- Refresh;;
          match r with
          | Some err =>
              call (Log ErrorLevel "failed to " [ZapError err]);;
              Ret (WAIT false)
          | None =>
              stopped <- call PollStop;;
              if stopped : bool then Ret RETURN
              else Ret (WAIT (refreshCh a))
          end
      end
  | WAIT rc =>
      c <- call (SelectWait rc);;
      match c with
      | CaseStop => Ret RETURN
      | CaseShutdown => Ret RETURN
      | CaseInterval => Ret REFRESH
      | CaseMember member =>
          r <- RefreshMember member;;
          match r with
          | Some err =>
              call (Log ErrorLevel "taskvault: failed to Refresh member"
                      [ZapError err]);;
              Ret (WAIT rc)
          | None => Ret (WAIT rc)
          end
      end
  | RETURN => Ret RETURN
  end.

(** [leaderLoop] run for at most [fuel] jumps; the result tells whether
    the function has returned. *)
Fixpoint leaderLoop_from (fuel : nat) (l : Label) : Prog bool :=
  match l with
  | RETURN => Ret true
  | _ =>
      match fuel with
      | O => Ret false
      | S fuel' =>
          l' <- leaderLoop_block l;;
          leaderLoop_from fuel' l'
      end
  end.

Definition leaderLoop (fuel : nat) : Prog bool :=
  leaderLoop_from fuel REFRESH.

End Reconciler.

(** ** [setupRaft] *)

Definition setBootstrap (a : Agent) (b : bool) : Agent :=
  {| config :=
       {| Config.NodeName := Config.NodeName (config a);
          Config.Bootstrap := b;
          Config.BootstrapExpect := Config.BootstrapExpect (config a);
          Config.DevMode := Config.DevMode (config a);
          Config.DataDir := Config.DataDir (config a) |};
     loggerLevel := loggerLevel a;
     raftStore := raftStore a;
     raftInmemStore := raftInmemStore a;
     refreshCh := refreshCh a;
     refreshInterval := refreshInterval a;
     raftUp := raftUp a |}.

Definition setRaftStore (a : Agent) (s : option Store) : Agent :=
  {| config := config a;
     loggerLevel := loggerLevel a;
     raftStore := s;
     raftInmemStore := raftInmemStore a;
     refreshCh := refreshCh a;
     refreshInterval := refreshInterval a;
     raftUp := raftUp a |}.

Definition setRaftInmemStore (a : Agent) (s : option Store) : Agent :=
  {| config := config a;
     loggerLevel := loggerLevel a;
     raftStore := raftStore a;
     raftInmemStore := s;
     refreshCh := refreshCh a;
     refreshInterval := refreshInterval a;
     raftUp := raftUp a |}.

Definition setRaftUp (a : Agent) : Agent :=
  {| config := config a;
     loggerLevel := loggerLevel a;
     raftStore := raftStore a;
     raftInmemStore := raftInmemStore a;
     refreshCh := refreshCh a;
     refreshInterval := refreshInterval a;
     raftUp := true |}.

(** The three stores chosen by [setupRaft]. *)
Record Stores := {
  logStore : Store;
  stableStore : Store;
  snapshots : Store
}.

(** The part of [setupRaft] that opens the stores: the agent as updated,
    and the stores or the error that [setupRaft] returns.

    [a.raftStore, err = raftboltdb.NewBoltStore(...)] assigns the field
    before the error is looked at.  The type [RaftStore] of the field,
    declared outside these files, is an interface: after a failure the
    field holds the nil [*BoltStore] and is no longer nil. *)
Definition setupRaft_stores (a : Agent) : Prog (Agent * (Error + Stores)) :=
  if Config.DevMode (config a) then
    let store := InmemStore in
    Ret (setRaftInmemStore a (Some store),
         inr {| logStore := store; stableStore := store;
                snapshots := DiscardSnapshotStore |})
  else
    let logger := match loggerLevel a with
                  | DebugLevel => Stdout
                  | _ => Discard
                  end in
    let dir := [Config.DataDir (config a); "raft"] in
    err <- call (NewFileSnapshotStore dir 3 logger);;
    match err with
    | Some e => Ret (a, inl (ErrFileSnapshotStore e))
    | None =>
        opened <- match raftStore a with
                  | None =>
                      let path := [Config.DataDir (config a); "raft"; "raft.db"] in
                      err <- call (NewBoltStore path);;
                      match err with
                      | Some e => Ret (inl (ErrNewRaftStore e))
                      | None => Ret (inr (BoltStore path))
                      end
                  | Some s => Ret (inr s)
                  end;;
        match opened with
        | inl e => Ret (setRaftStore a (Some NilBoltStore), inl e)
        | inr s =>
            let a := setRaftStore a (Some s) in
            err <- call (NewLogCache raftLogCacheSize s);;
            match err with
            | Some e => call (CloseStore s);; Ret (a, inl e)
            | None =>
                Ret (a, inr {| logStore := LogCache raftLogCacheSize s;
                               stableStore := s;
                               snapshots := FileSnapshotStore dir 3 |})
            end
        end
    end.

(** The configuration given to [raft.BootstrapCluster]: the local node
    alone. *)
Definition bootstrapConfiguration (localID : raft.ServerID)
    (addr : raft.ServerAddress) : raft.Configuration :=
  [ {| raft.Suffrage := raft.Voter;
       raft.ID := localID;
       raft.Address := addr |} ].

(** The block [if a.config.Bootstrap || a.config.DevMode { ... }] of
    [setupRaft]; the result is the error that [setupRaft] returns from
    inside the block, if any. *)
Definition setupRaft_bootstrap (a : Agent) (localID : raft.ServerID)
    (stores : Stores) : Prog (option Error) :=
  let l := logStore stores in
  let s := stableStore stores in
  let n := snapshots stores in
  if Config.Bootstrap (config a) || Config.DevMode (config a) then
    hasState <- call (HasExistingState l s n);;
    match hasState with
    | inl e => Ret (Some e)
    | inr true => Ret None
    | inr false =>
        addr <- call TransportLocalAddr;;
        call (BootstrapCluster localID l s n
                (bootstrapConfiguration localID addr))
    end
  else Ret None.

Definition setupRaft (a : Agent) : Prog (Agent * option Error) :=
  let a := if (Config.BootstrapExpect (config a) =? 1)%Z
           then setBootstrap a true
           else a in
  call (NewNetworkTransport 3 raftTimeout);;
  let localID : raft.ServerID := Config.NodeName (config a) in
  st <- setupRaft_stores a;;
  match snd st with
  | inl e => Ret (fst st, Some e)
  | inr stores =>
      let a := fst st in
      boot <- setupRaft_bootstrap a localID stores;;
      match boot with
      | Some e => Ret (a, Some e)
      | None =>
          err <- call (NewRaft localID (logStore stores)
                         (stableStore stores) (snapshots stores));;
          match err with
          | Some e => Ret (a, Some (ErrNewRaft e))
          | None => Ret (setRaftUp a, None)
          end
      end
  end.

(** What makes [setupRaft] enter the bootstrap block, in terms of the
    configuration the agent was started with. *)
Definition wantsBootstrap (a : Agent) : bool :=
  Config.Bootstrap (config a)
  || (Config.BootstrapExpect (config a) =? 1)%Z
  || Config.DevMode (config a).

(** ** [monitorLeadership] as a transition system

    The monitor is one goroutine; each [leaderLoop] it starts is another.
    A state holds the local [weAreLeaderCh], the stop channels of the
    [leaderLoop] goroutines still running (their number is the counter of
    the wait group [leaderLoop]), the channels closed so far, and where the
    monitor stands: at its [select], inside [leaderLoop.Wait()], or
    returned.

    The inputs are what can happen next: the monitor receives a value from
    the leader channel or from the shutdown channel, the shutdown channel
    is closed, the monitor comes back from [leaderLoop.Wait()] (the counter
    is zero), or a [leaderLoop] goroutine returns.  A [leaderLoop] returns
    only when it has seen its stop channel or the shutdown channel closed
    (see [leaderLoop_returns_on_signal] below). *)

Module Monitor.

Definition Chan := nat.

Inductive PC := Selecting | Waiting | Returned.

Record State := {
  weAreLeaderCh : option Chan;
  made : nat;
  closed : list Chan;
  loops : list Chan;
  shutdown : bool;
  lastIsLeader : option bool;
  pc : PC;
  logs : list (Level * string)
}.

Inductive Input :=
| RecvLeader (isLeader : bool)
| RecvShutdown
| CloseShutdown
| LoopReturns (ch : Chan)
| WaitReturns.

Definition monitoring : Level * string :=
  (InfoLevel, "taskvault: monitoring leadership").

Definition init : State :=
  {| weAreLeaderCh := None; made := 0; closed := []; loops := [];
     shutdown := false; lastIsLeader := None; pc := Selecting;
     logs := [monitoring] |}.

Definition remove (ch : Chan) (l : list Chan) : list Chan :=
  filter (fun c => negb (Nat.eqb c ch)) l.

Definition mem (ch : Chan) (l : list Chan) : bool :=
  existsb (Nat.eqb ch) l.

(** One transition; [None] when the input cannot happen in the state. *)
Definition step (s : State) (i : Input) : option State :=
  match i with
  | RecvLeader true =>
      match pc s with
      | Selecting =>
          match weAreLeaderCh s with
          | Some _ =>
              Some {| weAreLeaderCh := weAreLeaderCh s; made := made s;
                      closed := closed s; loops := loops s;
                      shutdown := shutdown s; lastIsLeader := Some true;
                      pc := Selecting;
                      logs := logs s ++
                        [(ErrorLevel, "taskvault: attempted to start the leader loop while running");
                         monitoring] |}
          | None =>
              let ch := made s in
              Some {| weAreLeaderCh := Some ch; made := S (made s);
                      closed := closed s; loops := ch :: loops s;
                      shutdown := shutdown s; lastIsLeader := Some true;
                      pc := Selecting;
                      logs := logs s ++
                        [(InfoLevel, "taskvault: cluster leadership acquired");
                         monitoring] |}
          end
      | _ => None
      end
  | RecvLeader false =>
      match pc s with
      | Selecting =>
          match weAreLeaderCh s with
          | None =>
              Some {| weAreLeaderCh := None; made := made s;
                      closed := closed s; loops := loops s;
                      shutdown := shutdown s; lastIsLeader := Some false;
                      pc := Selecting;
                      logs := logs s ++
                        [(ErrorLevel, "taskvault: attempted to stop the leader loop while not running");
                         monitoring] |}
          | Some ch =>
              Some {| weAreLeaderCh := Some ch; made := made s;
                      closed := ch :: closed s; loops := loops s;
                      shutdown := shutdown s; lastIsLeader := Some false;
                      pc := Waiting;
                      logs := logs s ++
                        [(DebugLevel, "taskvault: shutting down leader loop")] |}
          end
      | _ => None
      end
  | WaitReturns =>
      match pc s, loops s with
      | Waiting, [] =>
          Some {| weAreLeaderCh := None; made := made s;
                  closed := closed s; loops := [];
                  shutdown := shutdown s; lastIsLeader := lastIsLeader s;
                  pc := Selecting;
                  logs := logs s ++
                    [(InfoLevel, "taskvault: cluster leadership lost");
                     monitoring] |}
      | _, _ => None
      end
  | RecvShutdown =>
      match pc s with
      | Selecting =>
          if shutdown s then
            Some {| weAreLeaderCh := weAreLeaderCh s; made := made s;
                    closed := closed s; loops := loops s;
                    shutdown := shutdown s; lastIsLeader := lastIsLeader s;
                    pc := Returned; logs := logs s |}
          else None
      | _ => None
      end
  | CloseShutdown =>
      if shutdown s then None
      else
        Some {| weAreLeaderCh := weAreLeaderCh s; made := made s;
                closed := closed s; loops := loops s;
                shutdown := true; lastIsLeader := lastIsLeader s;
                pc := pc s; logs := logs s |}
  | LoopReturns ch =>
      if mem ch (loops s) && (mem ch (closed s) || shutdown s) then
        Some {| weAreLeaderCh := weAreLeaderCh s; made := made s;
                closed := closed s; loops := remove ch (loops s);
                shutdown := shutdown s; lastIsLeader := lastIsLeader s;
                pc := pc s; logs := logs s |}
      else None
  end.

Fixpoint run (s : State) (inputs : list Input) : option State :=
  match inputs with
  | [] => Some s
  | i :: rest =>
      match step s i with
      | Some s' => run s' rest
      | None => None
      end
  end.


(** What holds in every state the monitor can reach. *)
Definition invariant (s : State) : Prop :=
  match weAreLeaderCh s with
  | None => loops s = [] /\ pc s <> Waiting
  | Some ch =>
      (loops s = [] \/ loops s = [ch])
      /\ match pc s with
         | Waiting => In ch (closed s) /\ lastIsLeader s = Some false
         | _ => lastIsLeader s = Some true
         end
  end.

End Monitor.

(** ** Running a program against an environment *)

(** The event that records the answer [x] to the call [c]. *)
Definition obs {X : Type} (c : Call X) : X -> Event :=
  match c in Call X return X -> Event with
  | SerfMembers => EvMembers
  | RaftGetConfiguration => EvGetConfiguration
  | RaftAddVoter id addr => EvAddVoter id addr
  | RaftRemoveServer id => EvRemoveServer id
  | RaftBarrier t => EvBarrier t
  | Log lvl msg fields => fun _ => EvLog lvl msg fields
  | MeasureSince key => fun _ => EvMeasureSince key
  | TimeAfter d => fun _ => EvTimeAfter d
  | PollStop => EvPollStop
  | SelectWait rc => EvSelectWait rc
  | NewNetworkTransport n t => fun _ => EvNewNetworkTransport n t
  | NewFileSnapshotStore dir n o => EvNewFileSnapshotStore dir n o
  | NewBoltStore path => EvNewBoltStore path
  | NewLogCache n s => EvNewLogCache n s
  | CloseStore s => fun _ => EvCloseStore s
  | HasExistingState l s n => EvHasExistingState l s n
  | BootstrapCluster id l s n cfg => EvBootstrapCluster id l s n cfg
  | TransportLocalAddr => EvTransportLocalAddr
  | NewRaft id l s n => EvNewRaft id l s n
  end.

(** An environment with state [W] answers every call. *)
Definition Oracle (W : Type) : Type := forall X : Type, Call X -> W -> X * W.

(** The answer respects the channels: no member is delivered on a nil
    [refreshCh]. *)
Definition answerAllowed {X : Type} (c : Call X) : X -> bool :=
  match c in Call X return X -> bool with
  | SelectWait rc => waitCaseEnabled rc
  | _ => fun _ => true
  end.

(** [run o p w]: the result of [p], its trace and the final state of the
    environment. *)
Fixpoint run {W R : Type} (o : Oracle W) (p : Prog R) (w : W)
    : R * list Event * W :=
  match p with
  | Ret r => (r, [], w)
  | Vis c k =>
      let (x, w1) := o _ c w in
      let '(r, tr, w2) := run o (k x) w1 in
      (r, obs c x :: tr, w2)
  end.

(** The configuration changes that a trace issues. *)
Definition isConfigChange (e : Event) : bool :=
  match e with
  | EvAddVoter _ _ _ => true
  | EvRemoveServer _ _ => true
  | _ => false
  end.

(** The calls to the Raft library that a trace issues from the reconciler. *)
Definition isRaftCall (e : Event) : bool :=
  match e with
  | EvGetConfiguration _ => true
  | EvAddVoter _ _ _ => true
  | EvRemoveServer _ _ => true
  | EvBarrier _ _ => true
  | _ => false
  end.

Definition isBootstrapCluster (e : Event) : bool :=
  match e with
  | EvBootstrapCluster _ _ _ _ _ _ => true
  | _ => false
  end.

(** The events of opening and closing the stores. *)
Definition isStoreEvent (e : Event) : bool :=
  match e with
  | EvNewFileSnapshotStore _ _ _ _ => true
  | EvNewBoltStore _ _ => true
  | EvNewLogCache _ _ _ => true
  | EvCloseStore _ => true
  | _ => false
  end.

Definition isStopCheck (e : Event) : bool :=
  match e with
  | EvPollStop _ => true
  | EvSelectWait _ _ => true
  | _ => false
  end.

(** The events that follow the first barrier of a trace, and the events
    that come before the first check of the stop channel. *)
Fixpoint afterBarrier (tr : list Event) : list Event :=
  match tr with
  | [] => []
  | EvBarrier _ _ :: rest => rest
  | _ :: rest => afterBarrier rest
  end.

Fixpoint untilStopCheck (tr : list Event) : list Event :=
  match tr with
  | [] => []
  | e :: rest => if isStopCheck e then [] else e :: untilStopCheck rest
  end.


(** ** The paths through the reconciler

    The conditions that the code tests, as functions of the member and of
    the answers of the libraries, and the traces of each path. *)

Section Paths.

Context {ext : Externals}.
Variable a : Agent.

(** The test of the loop at the head of [addRaftPeer]: [member] is a
    server in bootstrap mode whose name differs from the name of [m]. *)
Definition conflictsWith (m member : serf.Member) : bool :=
  match toServerPart member with
  | Some parts =>
      negb (serf.Name member =? serf.Name m) && ServerParts.Bootstrap parts
  | None => false
  end.

(** The member on which the loop at the head of [addRaftPeer] returns. *)
Definition bootstrapConflict (m : serf.Member) (parts : ServerParts.t)
    (members : list serf.Member) : option serf.Member :=
  if ServerParts.Bootstrap parts then find (conflictsWith m) members
  else None.

(** The target entry [(id, addr)] of a member. *)
Definition targetAddr (m : serf.Member) (parts : ServerParts.t)
    : raft.ServerAddress :=
  tcpAddrString (serf.Addr m) (ServerParts.Port parts).

Definition selfJoinGuard (m : serf.Member) (cfg : raft.Configuration)
    : bool :=
  (serf.Name m =? Config.NodeName (config a)) && (length cfg <? 3)%nat.

Definition hasServer (id : raft.ServerID) (addr : raft.ServerAddress)
    (cfg : raft.Configuration) : bool :=
  existsb (fun s => (raft.Address s =? addr) && (raft.ID s =? id)) cfg.

(** No two servers of the configuration share an address (the Raft
    library refuses a configuration with a duplicate address). *)
Fixpoint uniqueAddresses (cfg : raft.Configuration) : bool :=
  match cfg with
  | [] => true
  | s :: rest =>
      negb (existsb (fun s' => raft.Address s' =? raft.Address s) rest)
      && uniqueAddresses rest
  end.

Definition hasID (id : raft.ServerID) (cfg : raft.Configuration) : bool :=
  existsb (fun s => raft.ID s =? id) cfg.

Definition bothBootstrapLog (m other : serf.Member) : Event :=
  EvLog ErrorLevel bothBootstrapFormat
    [Arg (serf.Name m); Arg (serf.Name other)].

Definition getConfigurationFailedLog (e : Error) : Event :=
  EvLog ErrorLevel "taskvault: failed to get raft configuration"
    [ZapError e].

Definition skipSelfJoinLog (m : serf.Member) : Event :=
  EvLog DebugLevel "taskvault: Skipping self join check"
    [ZapString "peer" (serf.Name m)].

Definition removingSelfLog : Event :=
  EvLog WarnLevel "removing self should be done by follower"
    [Arg "name"; Arg (Config.NodeName (config a))].

Definition refreshMemberFailedLog (member : serf.Member) (e : Error)
    : Event :=
  EvLog ErrorLevel "failed to Refresh member"
    [ZapError e; ZapAny "member" member].

(** The paths of [addRaftPeer]. *)
Inductive addRaftPeer_path (m : serf.Member) (parts : ServerParts.t)
    : list Event -> option Error -> Prop :=
| path_bootstrap_conflict ms other :
    bootstrapConflict m parts ms = Some other ->
    addRaftPeer_path m parts [EvMembers ms; bothBootstrapLog m other] None
| path_configuration_error ms e :
    bootstrapConflict m parts ms = None ->
    addRaftPeer_path m parts
      [EvMembers ms; EvGetConfiguration (inl e);
       getConfigurationFailedLog e] (Some e)
| path_self_join_guard ms cfg :
    bootstrapConflict m parts ms = None ->
    selfJoinGuard m cfg = true ->
    addRaftPeer_path m parts
      [EvMembers ms; EvGetConfiguration (inr cfg); skipSelfJoinLog m] None
| path_loop_returns ms cfg t r :
    bootstrapConflict m parts ms = None ->
    selfJoinGuard m cfg = false ->
    replay (addRaftPeer_serverLoop (targetAddr m parts)
              (ServerParts.ID parts) cfg) t = Some (Some r) ->
    addRaftPeer_path m parts
      (EvMembers ms :: EvGetConfiguration (inr cfg) :: t) r
| path_add_voter ms cfg t res :
    bootstrapConflict m parts ms = None ->
    selfJoinGuard m cfg = false ->
    replay (addRaftPeer_serverLoop (targetAddr m parts)
              (ServerParts.ID parts) cfg) t = Some None ->
    addRaftPeer_path m parts
      (EvMembers ms :: EvGetConfiguration (inr cfg) :: t
         ++ [EvAddVoter (ServerParts.ID parts) (targetAddr m parts) res])
      res.

(** The paths of [removeRaftPeer]. *)
Inductive removeRaftPeer_path (m : serf.Member) (parts : ServerParts.t)
    : list Event -> option Error -> Prop :=
| path_remove_self :
    serf.Name m = Config.NodeName (config a) ->
    removeRaftPeer_path m parts [removingSelfLog] None
| path_remove_configuration_error e :
    serf.Name m <> Config.NodeName (config a) ->
    removeRaftPeer_path m parts [EvGetConfiguration (inl e)] (Some e)
| path_remove_absent cfg :
    serf.Name m <> Config.NodeName (config a) ->
    hasID (ServerParts.ID parts) cfg = false ->
    removeRaftPeer_path m parts [EvGetConfiguration (inr cfg)] None
| path_remove_server cfg res :
    serf.Name m <> Config.NodeName (config a) ->
    hasID (ServerParts.ID parts) cfg = true ->
    removeRaftPeer_path m parts
      [EvGetConfiguration (inr cfg);
       EvRemoveServer (ServerParts.ID parts) res] res.

Definition barrierFailedLog (e : Error) : Event :=
  EvLog ErrorLevel "taskvault: failed to wait for barrier" [ZapError e].

Definition sweepFailedLog (e : Error) : Event :=
  EvLog ErrorLevel "failed to " [ZapError e].

Definition incrementalFailedLog (e : Error) : Event :=
  EvLog ErrorLevel "taskvault: failed to Refresh member" [ZapError e].

(** What [RefreshMember] appends once the member has been handled. *)
Definition refreshMemberTail (member : serf.Member) (r : option Error)
    : list Event :=
  match r with
  | Some e => [refreshMemberFailedLog member e;
               EvMeasureSince metricRefreshMember]
  | None => [EvMeasureSince metricRefreshMember]
  end.

(** The events on which [leaderLoop] returns. *)
Definition isReturnSignal (e : Event) : bool :=
  match e with
  | EvPollStop true => true
  | EvSelectWait _ CaseStop => true
  | EvSelectWait _ CaseShutdown => true
  | _ => false
  end.

(** The paths of [leaderLoop] from a label to the next jump. *)
Inductive leaderLoop_path : Label -> list Event -> Label -> Prop :=
| path_barrier_failed e :
    leaderLoop_path REFRESH
      [EvTimeAfter (refreshInterval a);
       EvBarrier barrierWriteTimeout (Some e); barrierFailedLog e]
      (WAIT false)
| path_sweep_failed sweep e :
    replay (Refresh a) sweep = Some (Some e) ->
    leaderLoop_path REFRESH
      (EvTimeAfter (refreshInterval a)
         :: EvBarrier barrierWriteTimeout None
         :: EvMeasureSince metricBarrier :: sweep ++ [sweepFailedLog e])
      (WAIT false)
| path_sweep_polled sweep stopped :
    replay (Refresh a) sweep = Some None ->
    leaderLoop_path REFRESH
      (EvTimeAfter (refreshInterval a)
         :: EvBarrier barrierWriteTimeout None
         :: EvMeasureSince metricBarrier :: sweep ++ [EvPollStop stopped])
      (if stopped : bool then RETURN else WAIT (refreshCh a))
| path_wait_stop rc :
    leaderLoop_path (WAIT rc) [EvSelectWait rc CaseStop] RETURN
| path_wait_shutdown rc :
    leaderLoop_path (WAIT rc) [EvSelectWait rc CaseShutdown] RETURN
| path_wait_interval rc :
    leaderLoop_path (WAIT rc) [EvSelectWait rc CaseInterval] REFRESH
| path_wait_member m t r :
    replay (RefreshMember a m) t = Some r ->
    leaderLoop_path (WAIT true)
      (EvSelectWait true (CaseMember m)
         :: t ++ match r with
                 | Some e => [incrementalFailedLog e]
                 | None => []
                 end)
      (WAIT true)
| path_returned :
    leaderLoop_path RETURN [] RETURN.

End Paths.

(** ** A concrete cluster, used to exercise the definitions *)

Module Example.

Definition lookupTag (k : string) (tags : list (string * string))
    : option string :=
  option_map snd (find (fun kv => fst kv =? k) tags).

(** A valid port: a decimal number between 1 and 65535. *)
Definition parsePort (s : string) : option Z :=
  if s =? "" then None
  else
    match option_map Z.of_uint (NilEmpty.uint_of_string s) with
    | Some port =>
        if ((0 <? port) && (port <=? 65535))%Z then Some port else None
    | None => None
    end.

(** The cluster identifier carried by the [role] tag. *)
Definition clusterRole : string := "taskvault".

(** Modelled from the spec: [toServerPart], whose source lies outside
    [leader.go] and [agent.go].  A member counts as a server when its [role] tag
    equals the cluster identifier and it carries a valid [id] tag (one
    that is not empty) and a valid [port] tag; it is in bootstrap mode
    when the [bootstrap] tag is present. *)
Definition toServerPart (m : serf.Member) : option ServerParts.t :=
  match lookupTag "role" (serf.Tags m) with
  | Some role =>
      if role =? clusterRole then
        match lookupTag "id" (serf.Tags m),
              option_map parsePort (lookupTag "port" (serf.Tags m)) with
        | Some id, Some (Some port) =>
            if id =? "" then None
            else
              Some {| ServerParts.ID := id;
                      ServerParts.Port := port;
                      ServerParts.Bootstrap :=
                        match lookupTag "bootstrap" (serf.Tags m) with
                        | Some _ => true
                        | None => false
                        end |}
        | _, _ => None
        end
      else None
  | None => None
  end.

Definition decimal (z : Z) : string := NilZero.string_of_int (Z.to_int z).

Definition dottedQuad (b1 b2 b3 b4 : Z) : string :=
  decimal b1 ++ "." ++ decimal b2 ++ "." ++ decimal b3 ++ "."
    ++ decimal b4.

(** The text [ip:port] that Go's [net] package gives for an IPv4 address,
    in its form of four bytes or in its form of sixteen bytes, and for
    the empty address; the text of an IPv6 address is not rendered
    here. *)
Definition tcpAddrString (ip : serf.IP) (port : Z) : string :=
  match ip with
  | [] => ":" ++ decimal port
  | [b1; b2; b3; b4] => dottedQuad b1 b2 b3 b4 ++ ":" ++ decimal port
  | [0; 0; 0; 0; 0; 0; 0; 0; 0; 0; 255; 255; b1; b2; b3; b4]%Z =>
      dottedQuad b1 b2 b3 b4 ++ ":" ++ decimal port
  | _ => "?:" ++ decimal port
  end.

Definition ext : Externals :=
  Build_Externals toServerPart tcpAddrString.

Definition serverTags (id : string) (bootstrap : bool)
    : list (string * string) :=
  [("role", clusterRole); ("id", id); ("port", "6868")]
    ++ (if bootstrap then [("bootstrap", "1")] else []).

Definition member (name : string) (last : Z) (bootstrap : bool)
    (st : serf.MemberStatus) : serf.Member :=
  {| serf.Name := name;
     serf.Addr := [10; 0; 0; last]%Z;
     serf.Port := 8946;
     serf.Tags := serverTags name bootstrap;
     serf.Status := st |}.

Definition parts (id : string) (bootstrap : bool) : ServerParts.t :=
  {| ServerParts.ID := id; ServerParts.Port := 6868;
     ServerParts.Bootstrap := bootstrap |}.

Definition voter (id : string) (addr : string) : raft.Server :=
  {| raft.Suffrage := raft.Voter; raft.ID := id; raft.Address := addr |}.

Definition agent (name : string) (bootstrap : bool) (expect : Z)
    (dev : bool) : Agent :=
  {| config := {| Config.NodeName := name;
                  Config.Bootstrap := bootstrap;
                  Config.BootstrapExpect := expect;
                  Config.DevMode := dev;
                  Config.DataDir := "data" |};
     loggerLevel := InfoLevel;
     raftStore := None;
     raftInmemStore := None;
     refreshCh := true;
     refreshInterval := 1000000000;
     raftUp := false |}.

(** Three servers; [node1] is the local node of the agent [leader]. *)
Definition node1 : serf.Member := member "node1" 1 false serf.StatusAlive.
Definition node2 : serf.Member := member "node2" 2 false serf.StatusAlive.
Definition node3 : serf.Member := member "node3" 3 false serf.StatusAlive.
Definition leader : Agent := agent "node1" false 0 false.

(** A member that is no server: it has no tags. *)
Definition client : serf.Member :=
  {| serf.Name := "client"; serf.Addr := [10; 0; 0; 9]%Z;
     serf.Port := 8946; serf.Tags := []; serf.Status := serf.StatusAlive |}.

(** Two members started in bootstrap mode. *)
Definition boot1 : serf.Member := member "node1" 1 true serf.StatusAlive.
Definition boot2 : serf.Member := member "node2" 2 true serf.StatusAlive.

(** A configuration in which the address of [node2] is held by a server
    of another ID. *)
Definition staleConfiguration : raft.Configuration :=
  [voter "node1" "10.0.0.1:6868"; voter "old" "10.0.0.2:6868"].

(** The configuration of a node bootstrapped at the local address of its
    transport, which is not the address that gossip gives for it. *)
Definition bootConfiguration : raft.Configuration :=
  [voter "node1" "127.0.0.1:6868"].

Definition lost : Error := LibError "leadership lost".

(** [RefreshMember] of [node2] when the configuration cannot be read. *)
Definition failingMemberTrace : list Event :=
  [EvMembers [client; node2; node3];
   EvGetConfiguration (inl lost);
   getConfigurationFailedLog lost;
   refreshMemberFailedLog node2 lost;
   EvMeasureSince metricRefreshMember].

(** [RefreshMember] of the local node under the self-join guard. *)
Definition selfJoinTrace : list Event :=
  [EvMembers [node1; node2];
   EvGetConfiguration (inr bootConfiguration);
   skipSelfJoinLog node1;
   EvMeasureSince metricRefreshMember].

(** A run of the [REFRESH] block in which the stop channel is already
    closed when the barrier completes. *)
Definition refreshBlockTrace : list Event :=
  [EvTimeAfter 1000000000;
   EvBarrier barrierWriteTimeout None;
   EvMeasureSince metricBarrier;
   EvMembers [node2];
   EvMembers [node2];
   EvGetConfiguration (inr [voter "node1" "10.0.0.1:6868"]);
   EvAddVoter "node2" "10.0.0.2:6868" None;
   EvMeasureSince metricRefreshMember;
   EvMeasureSince metricRefresh;
   EvPollStop true].

(** An agent in dev mode, started without [Bootstrap] and with
    [BootstrapExpect = 0], and the trace of its [setupRaft]. *)
Definition devAgent : Agent := agent "node1" false 0 true.

Definition devTrace : list Event :=
  [EvNewNetworkTransport 3 raftTimeout;
   EvHasExistingState InmemStore InmemStore DiscardSnapshotStore (inr false);
   EvTransportLocalAddr "10.0.0.1:6868";
   EvBootstrapCluster "node1" InmemStore InmemStore DiscardSnapshotStore
     (bootstrapConfiguration "node1" "10.0.0.1:6868") None;
   EvNewRaft "node1" InmemStore InmemStore DiscardSnapshotStore None].

(** An agent started with [BootstrapExpect = 1] on durable stores. *)
Definition bootAgent : Agent := agent "node1" false 1 false.

Definition boltStore : Store := BoltStore ["data"; "raft"; "raft.db"].
Definition snapStore : Store := FileSnapshotStore ["data"; "raft"] 3.

Definition bootTrace : list Event :=
  [EvNewNetworkTransport 3 raftTimeout;
   EvNewFileSnapshotStore ["data"; "raft"] 3 Discard None;
   EvNewBoltStore ["data"; "raft"; "raft.db"] None;
   EvNewLogCache raftLogCacheSize boltStore None;
   EvHasExistingState (LogCache raftLogCacheSize boltStore) boltStore
     snapStore (inr false);
   EvTransportLocalAddr "10.0.0.1:6868";
   EvBootstrapCluster "node1" (LogCache raftLogCacheSize boltStore)
     boltStore snapStore
     (bootstrapConfiguration "node1" "10.0.0.1:6868") None;
   EvNewRaft "node1" (LogCache raftLogCacheSize boltStore) boltStore
     snapStore None].

(** Leadership gained twice, then lost; the loop returns, the wait ends,
    and leadership is gained again. *)
Definition monitorInputs : list Monitor.Input :=
  [Monitor.RecvLeader true; Monitor.RecvLeader true;
   Monitor.RecvLeader false; Monitor.LoopReturns 0; Monitor.WaitReturns;
   Monitor.RecvLeader true].

(** The state of the monitor after [monitorInputs]. *)
Definition monitorState : Monitor.State :=
  Eval vm_compute in
    match Monitor.run Monitor.init monitorInputs with
    | Some s => s
    | None => Monitor.init
    end.

End Example.

(** ** Further definitions for the properties of the reconciler *)

(** The events by which the reconciler reads the membership or reads or
    changes the Raft configuration. *)
Definition isReconcileWork (e : Event) : bool :=
  match e with
  | EvMembers _ => true
  | EvGetConfiguration _ => true
  | EvAddVoter _ _ _ => true
  | EvRemoveServer _ _ => true
  | _ => false
  end.

Definition isAddVoter (e : Event) : bool :=
  match e with
  | EvAddVoter _ _ _ => true
  | _ => false
  end.

(** The events of a trace that come before the first barrier that
    succeeded. *)
Fixpoint untilBarrierOk (tr : list Event) : list Event :=
  match tr with
  | [] => []
  | EvBarrier _ None :: _ => []
  | e :: rest => e :: untilBarrierOk rest
  end.

(** ** Further definitions for the properties of the monitor *)

(** How the monitor keeps its channels: each channel made so far has a
    number below [made]; no channel is closed twice; the channel held in
    [weAreLeaderCh] is open unless the monitor stands in the wait; and the
    monitor has returned only with the shutdown channel closed. *)
Definition monitorChannels (s : Monitor.State) : Prop :=
  (forall c, In c (Monitor.closed s) -> c < Monitor.made s)
  /\ NoDup (Monitor.closed s)
  /\ (forall ch, Monitor.weAreLeaderCh s = Some ch ->
                 ch < Monitor.made s
                 /\ (Monitor.pc s <> Monitor.Waiting ->
                     ~ In ch (Monitor.closed s)))
  /\ (Monitor.pc s = Monitor.Returned -> Monitor.shutdown s = true).

(** ** The paths through [setupRaft] *)

(** The agent after the first statement of [setupRaft]. *)
Definition bootstrapExpected (a : Agent) : Agent :=
  if (Config.BootstrapExpect (config a) =? 1)%Z then setBootstrap a true
  else a.

Definition raftDir (a : Agent) : list string :=
  [Config.DataDir (config a); "raft"].

Definition raftDbPath (a : Agent) : list string :=
  [Config.DataDir (config a); "raft"; "raft.db"].

Definition setupLogger (a : Agent) : Output :=
  match loggerLevel a with
  | DebugLevel => Stdout
  | _ => Discard
  end.

Definition inmemStores : Stores :=
  {| logStore := InmemStore; stableStore := InmemStore;
     snapshots := DiscardSnapshotStore |}.

Definition durableStores (a : Agent) (s : Store) : Stores :=
  {| logStore := LogCache raftLogCacheSize s;
     stableStore := s;
     snapshots := FileSnapshotStore (raftDir a) 3 |}.

(** How the store [s] behind the log cache is come by: opened now, or
    found in [a.raftStore]. *)
Inductive storeOpened (a : Agent) : list Event -> Store -> Prop :=
| store_opened :
    raftStore a = None ->
    storeOpened a [EvNewBoltStore (raftDbPath a) None]
      (BoltStore (raftDbPath a))
| store_given s :
    raftStore a = Some s ->
    storeOpened a [] s.

Inductive setupRaft_stores_path (a : Agent)
    : list Event -> Agent * (Error + Stores) -> Prop :=
| stores_dev :
    Config.DevMode (config a) = true ->
    setupRaft_stores_path a []
      (setRaftInmemStore a (Some InmemStore), inr inmemStores)
| stores_snapshot_failed e :
    Config.DevMode (config a) = false ->
    setupRaft_stores_path a
      [EvNewFileSnapshotStore (raftDir a) 3 (setupLogger a) (Some e)]
      (a, inl (ErrFileSnapshotStore e))
| stores_bolt_failed e :
    Config.DevMode (config a) = false ->
    raftStore a = None ->
    setupRaft_stores_path a
      [EvNewFileSnapshotStore (raftDir a) 3 (setupLogger a) None;
       EvNewBoltStore (raftDbPath a) (Some e)]
      (setRaftStore a (Some NilBoltStore), inl (ErrNewRaftStore e))
| stores_cache_failed tb s e :
    Config.DevMode (config a) = false ->
    storeOpened a tb s ->
    setupRaft_stores_path a
      (EvNewFileSnapshotStore (raftDir a) 3 (setupLogger a) None
         :: tb ++ [EvNewLogCache raftLogCacheSize s (Some e);
                   EvCloseStore s])
      (setRaftStore a (Some s), inl e)
| stores_durable tb s :
    Config.DevMode (config a) = false ->
    storeOpened a tb s ->
    setupRaft_stores_path a
      (EvNewFileSnapshotStore (raftDir a) 3 (setupLogger a) None
         :: tb ++ [EvNewLogCache raftLogCacheSize s None])
      (setRaftStore a (Some s), inr (durableStores a s)).

(** The end of [setupRaft]: the call of [raft.NewRaft] on the stores. *)
Inductive raftStarted (a : Agent) (st : Stores)
    : list Event -> Agent * option Error -> Prop :=
| raft_failed e :
    raftStarted a st
      [EvNewRaft (Config.NodeName (config a)) (logStore st)
         (stableStore st) (snapshots st) (Some e)]
      (a, Some (ErrNewRaft e))
| raft_started :
    raftStarted a st
      [EvNewRaft (Config.NodeName (config a)) (logStore st)
         (stableStore st) (snapshots st) None]
      (setRaftUp a, None).

(** The paths of [setupRaft]; [a1] is the agent after the first
    statement, [a2] the agent after the stores have been set up. *)
Inductive setupRaft_path (a : Agent)
    : list Event -> Agent * option Error -> Prop :=
| setup_stores_failed t a2 e :
    setupRaft_stores_path (bootstrapExpected a) t (a2, inl e) ->
    setupRaft_path a (EvNewNetworkTransport 3 raftTimeout :: t)
      (a2, Some e)
| setup_no_bootstrap t a2 st tn res :
    setupRaft_stores_path (bootstrapExpected a) t (a2, inr st) ->
    wantsBootstrap a = false ->
    raftStarted a2 st tn res ->
    setupRaft_path a (EvNewNetworkTransport 3 raftTimeout :: t ++ tn) res
| setup_state_unknown t a2 st e :
    setupRaft_stores_path (bootstrapExpected a) t (a2, inr st) ->
    wantsBootstrap a = true ->
    setupRaft_path a
      (EvNewNetworkTransport 3 raftTimeout
         :: t ++ [EvHasExistingState (logStore st) (stableStore st)
                    (snapshots st) (inl e)])
      (a2, Some e)
| setup_has_state t a2 st tn res :
    setupRaft_stores_path (bootstrapExpected a) t (a2, inr st) ->
    wantsBootstrap a = true ->
    raftStarted a2 st tn res ->
    setupRaft_path a
      (EvNewNetworkTransport 3 raftTimeout
         :: t ++ EvHasExistingState (logStore st) (stableStore st)
                   (snapshots st) (inr true) :: tn)
      res
| setup_bootstrap_failed t a2 st addr e :
    setupRaft_stores_path (bootstrapExpected a) t (a2, inr st) ->
    wantsBootstrap a = true ->
    setupRaft_path a
      (EvNewNetworkTransport 3 raftTimeout
         :: t ++ [EvHasExistingState (logStore st) (stableStore st)
                    (snapshots st) (inr false);
                  EvTransportLocalAddr addr;
                  EvBootstrapCluster (Config.NodeName (config a))
                    (logStore st) (stableStore st) (snapshots st)
                    (bootstrapConfiguration (Config.NodeName (config a))
                       addr) (Some e)])
      (a2, Some e)
| setup_bootstrapped t a2 st addr tn res :
    setupRaft_stores_path (bootstrapExpected a) t (a2, inr st) ->
    wantsBootstrap a = true ->
    raftStarted a2 st tn res ->
    setupRaft_path a
      (EvNewNetworkTransport 3 raftTimeout
         :: t ++ EvHasExistingState (logStore st) (stableStore st)
                   (snapshots st) (inr false)
              :: EvTransportLocalAddr addr
              :: EvBootstrapCluster (Config.NodeName (config a))
                   (logStore st) (stableStore st) (snapshots st)
                   (bootstrapConfiguration (Config.NodeName (config a))
                      addr) None
              :: tn)
      res.

(** The events by which [setupRaft] asks for the state of the stores,
    bootstraps, or starts Raft. *)
Definition isRaftStart (e : Event) : bool :=
  match e with
  | EvHasExistingState _ _ _ _ => true
  | EvTransportLocalAddr _ => true
  | EvBootstrapCluster _ _ _ _ _ _ => true
  | EvNewRaft _ _ _ _ _ => true
  | _ => false
  end.

(** The error that [setupRaft] returns when the opening recorded by the
    event has failed: wrapped for the snapshot store and for the Bolt
    store, unwrapped for the log cache. *)
Definition storeFailure (e : Event) : option Error :=
  match e with
  | EvNewFileSnapshotStore _ _ _ (Some x) => Some (ErrFileSnapshotStore x)
  | EvNewBoltStore _ (Some x) => Some (ErrNewRaftStore x)
  | EvNewLogCache _ _ (Some x) => Some x
  | _ => None
  end.

Definition isCloseStore (e : Event) : bool :=
  match e with
  | EvCloseStore _ => true
  | _ => false
  end.

(** The stores that an event hands to the Raft library. *)
Definition eventStores (e : Event) : option Stores :=
  match e with
  | EvHasExistingState l s n _ =>
      Some {| logStore := l; stableStore := s; snapshots := n |}
  | EvBootstrapCluster _ l s n _ _ =>
      Some {| logStore := l; stableStore := s; snapshots := n |}
  | EvNewRaft _ l s n _ =>
      Some {| logStore := l; stableStore := s; snapshots := n |}
  | _ => None
  end.

(** The stores that [setupRaft] sets up for an agent: in memory in dev
    mode; otherwise the store found in [a.raftStore], or else the Bolt
    store under the data directory, behind a log cache, with file
    snapshots. *)
Definition chosenStores (a : Agent) : Stores :=
  if Config.DevMode (config a) then inmemStores
  else durableStores a match raftStore a with
                       | Some s => s
                       | None => BoltStore (raftDbPath a)
                       end.

(** ** Further functions of [agent.go] *)

(** A read [m.Tags[k]] of a Go map: the empty string when the key is
    missing. *)
Definition tag (k : string) (m : serf.Member) : string :=
  match find (fun kv => fst kv =? k) (serf.Tags m) with
  | Some kv => snd kv
  | None => ""
  end.

Section AgentQueries.

Context {ext : Externals}.

(** The loop of [Servers]: the parts of the members that are servers and
    alive, appended in the order of the members. *)
Fixpoint Servers_loop (members : list serf.Member) : list ServerParts.t :=
  match members with
  | [] => []
  | member :: rest =>
      match toServerPart member with
      | None => Servers_loop rest
      | Some parts =>
          match serf.Status member with
          | serf.StatusAlive => parts :: Servers_loop rest
          | _ => Servers_loop rest
          end
      end
  end.

Definition Servers : Prog (list ServerParts.t) :=
  members <- call SerfMembers;;
  Ret (Servers_loop members).

End AgentQueries.

(** [leaderMember], as a function of the answers of [a.raft.Leader()] and
    of [a.serf.Members()]; [None] stands for the result
    [(nil, ErrLeaderNotFound)]. *)
Fixpoint leaderMember (l : raft.ServerAddress) (members : list serf.Member)
    : option serf.Member :=
  match members with
  | [] => None
  | member :: rest =>
      if tag "rpc_addr" member =? l then Some member
      else leaderMember l rest
  end.

(** *** [Stop] *)

(** The calls of [Stop]. *)
Inductive StopCall :=
| RaftShutdown
| StoreShutdown
| SerfLeave
| SerfShutdown.

(** [Stop], as a function of the errors with which its calls answer: the
    calls it has issued, in order, and its result.  The future returned by
    [a.raft.Shutdown()] is dropped.  The line that [Stop] logs at its
    start is not part of the calls. *)
Definition Stop (answer : StopCall -> option Error)
    : list StopCall * option Error :=
  match answer StoreShutdown with
  | Some err => ([RaftShutdown; StoreShutdown], Some err)
  | None =>
      match answer SerfLeave with
      | Some err => ([RaftShutdown; StoreShutdown; SerfLeave], Some err)
      | None =>
          match answer SerfShutdown with
          | Some err =>
              ([RaftShutdown; StoreShutdown; SerfLeave; SerfShutdown],
               Some err)
          | None =>
              ([RaftShutdown; StoreShutdown; SerfLeave; SerfShutdown],
               None)
          end
      end
  end.

(** *** [setupSerf] *)

Module SetupSerf.

(** The further fields of [Config] that [setupSerf] reads. *)
Record Settings := {
  BindAddr : string;
  AdvertiseAddr : string;
  EncryptKey : string;
  Profile : string;
  SerfReconnectTimeout : string
}.

(** What [setupSerf] uses and whose source lies outside [agent.go]: the
    method [Config.AddrParts], the decoding of base64, the parsing of a
    duration, and the constant [Version]. *)
Class Lib := {
  AddrParts : string -> Error + (string * Z);
  decodeString : string -> Error + list Z;
  parseDuration : string -> Error + Z;
  Version : string
}.

(** The default configurations of [memberlist]. *)
Inductive Memberlist := DefaultLAN | DefaultWAN | DefaultLocal.

(** The fields of the configuration of serf that [setupSerf] sets. *)
Record SerfConfig := {
  NodeName : string;
  Tags : list (string * string);
  MemberlistConfig : Memberlist;
  MemberlistBindAddr : string;
  MemberlistBindPort : Z;
  MemberlistAdvertiseAddr : string;
  MemberlistAdvertisePort : Z;
  SecretKey : list Z;
  CoalescePeriod : Z;
  QuiescentPeriod : Z;
  UserCoalescePeriod : Z;
  UserQuiescentPeriod : Z;
  ReconnectTimeout : Z;
  EventChCapacity : Z;
  LogOutput : Output
}.

Inductive SetupError :=
| InvalidBindAddress (cause : Error)
| InvalidAdvertiseAddress (cause : Error)
| InvalidEncryptionKey (cause : Error)
| UnknownProfile (profile : string)
| CreateFailed (cause : Error).

(** How [setupSerf] ends: it returns the serf made from a configuration,
    it returns an error, or it ends the process through [logger.Fatal]. *)
Inductive Outcome :=
| Created (c : SerfConfig)
| Failed (e : SetupError)
| Fatal (e : Error).

(** An assignment [tags[k] = v] to a Go map. *)
Fixpoint setTag (k v : string) (tags : list (string * string))
    : list (string * string) :=
  match tags with
  | [] => [(k, v)]
  | (k', v') :: rest =>
      if k' =? k then (k, v) :: rest else (k', v') :: setTag k v rest
  end.

Definition getTag (k : string) (tags : list (string * string))
    : option string :=
  option_map snd (find (fun kv => fst kv =? k) tags).

(** [fmt.Sprintf("%d", n)] *)
Definition sprintfD (n : Z) : string := NilZero.string_of_int (Z.to_int n).

Definition second : Z := 1000000000.

Section WithLib.

Context {lib : Lib}.

(** The tags that [setupSerf] puts on the member. *)
Definition serfTags (cfg : Config.t) : list (string * string) :=
  let tags := setTag "version" Version [] in
  let tags := if Config.Bootstrap cfg then setTag "bootstrap" "1" tags
              else tags in
  if (Config.BootstrapExpect cfg =? 0)%Z then tags
  else setTag "expect" (sprintfD (Config.BootstrapExpect cfg)) tags.

Definition memberlistFor (profile : string) : option Memberlist :=
  if profile =? "lan" then Some DefaultLAN
  else if profile =? "wan" then Some DefaultWAN
  else if profile =? "local" then Some DefaultLocal
  else None.

(** [setupSerf] up to the call of [serf.Create]: the configuration that
    it hands to [serf.Create], or how it ends before. *)
Definition setupSerf_config (cfg : Config.t) (s : Settings)
    (level : Level) : Outcome :=
  match AddrParts (BindAddr s) with
  | inl err => Failed (InvalidBindAddress err)
  | inr (bindIP, bindPort) =>
      match (if AdvertiseAddr s =? "" then inr ("", 0%Z)
             else AddrParts (AdvertiseAddr s)) with
      | inl err => Failed (InvalidAdvertiseAddress err)
      | inr (advertiseIP, advertisePort) =>
          match decodeString (EncryptKey s) with
          | inl err => Failed (InvalidEncryptionKey err)
          | inr encryptKey =>
              let tags := serfTags cfg in
              match memberlistFor (Profile s) with
              | None => Failed (UnknownProfile (Profile s))
              | Some ml =>
                  match parseDuration (SerfReconnectTimeout s) with
                  | inl err => Fatal err
                  | inr timeout =>
                      Created
                        {| NodeName := Config.NodeName cfg;
                           Tags := tags;
                           MemberlistConfig := ml;
                           MemberlistBindAddr := bindIP;
                           MemberlistBindPort := bindPort;
                           MemberlistAdvertiseAddr := advertiseIP;
                           MemberlistAdvertisePort := advertisePort;
                           SecretKey := encryptKey;
                           CoalescePeriod := 3 * second;
                           QuiescentPeriod := second;
                           UserCoalescePeriod := 3 * second;
                           UserQuiescentPeriod := second;
                           ReconnectTimeout := timeout;
                           EventChCapacity := 4096;
                           LogOutput := match level with
                                        | DebugLevel => Stdout
                                        | _ => Discard
                                        end |}
                  end
              end
          end
      end
  end.

(** [setupSerf]; [create] is the answer of [serf.Create] to the
    configuration it is given.  The two lines that [setupSerf] logs (at
    the start of the agent, and the error of [serf.Create]) are left
    out; the channel of events is kept by its capacity, and the output of
    the log of memberlist is that of serf. *)
Definition setupSerf (cfg : Config.t) (s : Settings) (level : Level)
    (create : SerfConfig -> option Error) : Outcome :=
  match setupSerf_config cfg s level with
  | Created c =>
      match create c with
      | Some err => Failed (CreateFailed err)
      | None => Created c
      end
  | other => other
  end.

End WithLib.

End SetupSerf.

(** ** A second concrete setting, for the further properties *)

Module Scenario.

(** A library for [setupSerf]: an address is taken as a host on the
    default gossip port, and nothing fails. *)
Definition lib : SetupSerf.Lib :=
  {| SetupSerf.AddrParts := fun s => inr (s, 8946%Z);
     SetupSerf.decodeString := fun _ => inr [];
     SetupSerf.parseDuration := fun _ => inr (24 * 3600 * 1000000000)%Z;
     SetupSerf.Version := "1.0.0" |}.

Definition settings (profile : string) : SetupSerf.Settings :=
  {| SetupSerf.BindAddr := "10.0.0.1";
     SetupSerf.AdvertiseAddr := "";
     SetupSerf.EncryptKey := "";
     SetupSerf.Profile := profile;
     SetupSerf.SerfReconnectTimeout := "24h" |}.

(** The configuration of serf made for [Example.bootAgent] under the
    profile [lan]. *)
Definition lanSerf : SetupSerf.SerfConfig :=
  {| SetupSerf.NodeName := "node1";
     SetupSerf.Tags := [("version", "1.0.0"); ("expect", "1")];
     SetupSerf.MemberlistConfig := SetupSerf.DefaultLAN;
     SetupSerf.MemberlistBindAddr := "10.0.0.1";
     SetupSerf.MemberlistBindPort := 8946;
     SetupSerf.MemberlistAdvertiseAddr := "";
     SetupSerf.MemberlistAdvertisePort := 0;
     SetupSerf.SecretKey := [];
     SetupSerf.CoalescePeriod := 3000000000;
     SetupSerf.QuiescentPeriod := 1000000000;
     SetupSerf.UserCoalescePeriod := 3000000000;
     SetupSerf.UserQuiescentPeriod := 1000000000;
     SetupSerf.ReconnectTimeout := 86400000000000;
     SetupSerf.EventChCapacity := 4096;
     SetupSerf.LogOutput := Discard |}.

(** A member that carries no [rpc_addr] tag, and one that does. *)
Definition untagged : serf.Member := Example.node2.

Definition tagged : serf.Member :=
  {| serf.Name := "node3"; serf.Addr := [10; 0; 0; 3]%Z;
     serf.Port := 8946;
     serf.Tags := Example.serverTags "node3" false
                    ++ [("rpc_addr", "10.0.0.3:6868")];
     serf.Status := serf.StatusAlive |}.

(** A run of [leaderLoop] in which the first barrier fails. *)
Definition barrierRetryTrace : list Event :=
  [EvTimeAfter 1000000000;
   EvBarrier barrierWriteTimeout (Some Example.lost);
   barrierFailedLog Example.lost;
   EvSelectWait false CaseInterval;
   EvTimeAfter 1000000000;
   EvBarrier barrierWriteTimeout None;
   EvMeasureSince metricBarrier;
   EvMembers [];
   EvMeasureSince metricRefresh;
   EvPollStop true].

(** [setupRaft] on durable stores when the log cache cannot be made. *)
Definition cacheFailedTrace : list Event :=
  [EvNewNetworkTransport 3 raftTimeout;
   EvNewFileSnapshotStore ["data"; "raft"] 3 Discard None;
   EvNewBoltStore ["data"; "raft"; "raft.db"] None;
   EvNewLogCache raftLogCacheSize Example.boltStore (Some Example.lost);
   EvCloseStore Example.boltStore].

(** [setupRaft] of a bootstrap node restarted on stores that hold
    state. *)
Definition restartTrace : list Event :=
  [EvNewNetworkTransport 3 raftTimeout;
   EvNewFileSnapshotStore ["data"; "raft"] 3 Discard None;
   EvNewBoltStore ["data"; "raft"; "raft.db"] None;
   EvNewLogCache raftLogCacheSize Example.boltStore None;
   EvHasExistingState (LogCache raftLogCacheSize Example.boltStore)
     Example.boltStore Example.snapStore (inr true);
   EvNewRaft "node1" (LogCache raftLogCacheSize Example.boltStore)
     Example.boltStore Example.snapStore None].

(** [node2] has left, and two servers of the configuration have its
    ID. *)
Definition leftNode2 : serf.Member :=
  Example.member "node2" 2 false serf.StatusLeft.

Definition doubledConfiguration : raft.Configuration :=
  [Example.voter "node1" "10.0.0.1:6868";
   Example.voter "node2" "10.0.0.2:6868";
   Example.voter "node2" "10.0.0.9:6868"].

(** [addRaftPeer] of [node2] against the stale configuration. *)
Definition staleTrace : list Event :=
  [EvMembers [Example.node1; Example.node2];
   EvGetConfiguration (inr Example.staleConfiguration);
   EvRemoveServer "old" None;
   EvAddVoter "node2" "10.0.0.2:6868" None].

(** A node started with [Bootstrap] on durable stores. *)
Definition restartAgent : Agent := Example.agent "node1" true 0 false.

(** The members seen by [Servers]: a client, a server that is alive and a
    server that has left. *)
Definition mixedMembers : list serf.Member :=
  [Example.client; Example.node2;
   Example.member "node3" 3 false serf.StatusLeft].

(** Answers for [Stop]: the store fails to shut down. *)
Definition storeStuck (c : StopCall) : option Error :=
  match c with
  | StoreShutdown => Some Example.lost
  | _ => None
  end.

(** The monitor after leadership gained and lost, in its wait. *)
Definition waitingInputs : list Monitor.Input :=
  [Monitor.RecvLeader true; Monitor.RecvLeader false].

(** The monitor after leadership gained and shutdown received. *)
Definition returnedInputs : list Monitor.Input :=
  [Monitor.RecvLeader true; Monitor.CloseShutdown; Monitor.RecvShutdown].

End Scenario.

Unset Implicit Arguments.

(** * Properties *)

(** ** Traces *)

Lemma same_Some (A X : Type) (dec : forall a b : A, {a = b} + {a <> b})
    (a b : A) (x : option X) (y : X) :
  same dec a b x = Some y -> a = b /\ x = Some y.
Proof.
  unfold same. destruct (dec a b); [auto | discriminate].
Qed.

Lemma same_refl (A X : Type) (dec : forall a b : A, {a = b} + {a <> b})
    (a : A) (x : option X) :
  same dec a a x = x.
Proof.
  unfold same. destruct (dec a a); [reflexivity | contradiction].
Qed.

Ltac same_inv H :=
  repeat (let E := fresh "E" in
          apply same_Some in H; destruct H as [E H]; subst).

Lemma resp_inv (X : Type) (c : Call X) (e : Event) (x : X) :
  resp c e = Some x -> e = obs c x.
Proof.
  destruct c; destruct e; simpl; try discriminate; intros H; same_inv H;
    try (destruct (waitCaseEnabled _ _); [| discriminate]);
    try (injection H as <-); try reflexivity.
Qed.

Lemma resp_allowed (X : Type) (c : Call X) (e : Event) (x : X) :
  resp c e = Some x -> answerAllowed c x = true.
Proof.
  destruct c; simpl; try reflexivity.
  destruct e; try discriminate. intros H; same_inv H.
  match type of H with
  | (if ?b then _ else _) = _ => destruct b eqn:En; [| discriminate]
  end.
  injection H as <-. exact En.
Qed.

Lemma resp_obs (X : Type) (c : Call X) (x : X) :
  answerAllowed c x = true -> resp c (obs c x) = Some x.
Proof.
  destruct c; simpl; intros Hx; rewrite ?same_refl;
    try (destruct x; reflexivity); try reflexivity.
  now rewrite Hx.
Qed.

Lemma replay_Ret_inv (R : Type) (a r : R) (tr : list Event) :
  replay (Ret a) tr = Some r -> tr = [] /\ r = a.
Proof.
  destruct tr; simpl; [intros [= <-]; auto | discriminate].
Qed.

Lemma replay_Vis_inv (R X : Type) (c : Call X) (k : X -> Prog R)
    (tr : list Event) (r : R) :
  replay (Vis c k) tr = Some r ->
  exists x tr', tr = obs c x :: tr' /\ answerAllowed c x = true
                /\ replay (k x) tr' = Some r.
Proof.
  destruct tr as [| e tr']; simpl; [discriminate |].
  destruct (resp c e) as [x |] eqn:E; [| discriminate].
  intros H. exists x, tr'.
  rewrite (resp_inv _ _ _ _ E). eauto using resp_allowed.
Qed.

Lemma replay_bind_inv (A B : Type) (p : Prog A) (f : A -> Prog B)
    (tr : list Event) (r : B) :
  replay (bind p f) tr = Some r ->
  exists t1 t2 x, tr = t1 ++ t2 /\ replay p t1 = Some x
                  /\ replay (f x) t2 = Some r.
Proof.
  revert tr. induction p as [a | X c k IH]; intros tr H; simpl in H.
  - exists [], tr, a. auto.
  - destruct tr as [| e tr']; [discriminate |].
    destruct (resp c e) as [x |] eqn:E; [| discriminate].
    destruct (IH x tr' H) as (t1 & t2 & y & -> & H1 & H2).
    exists (e :: t1), t2, y. simpl. rewrite E. auto.
Qed.

Lemma replay_bind_app (A B : Type) (p : Prog A) (f : A -> Prog B)
    (t1 t2 : list Event) (x : A) :
  replay p t1 = Some x ->
  replay (bind p f) (t1 ++ t2) = replay (f x) t2.
Proof.
  revert t1. induction p as [a | X c k IH]; intros t1 H; simpl in *.
  - destruct t1; [| discriminate]. now injection H as <-.
  - destruct t1 as [| e t1]; [discriminate |]. simpl.
    destruct (resp c e) as [y |]; [| discriminate]. now apply IH.
Qed.

(** A program that has returned on a trace takes no further event. *)
Lemma replay_prefix_free (R : Type) (p : Prog R) (t t' : list Event)
    (x y : R) :
  replay p t = Some x -> replay p (t ++ t') = Some y -> t' = [] /\ x = y.
Proof.
  revert t. induction p as [a | X c k IH]; intros t H1 H2; simpl in *.
  - destruct t; [| discriminate]. simpl in H2.
    destruct t'; [| discriminate]. split; congruence.
  - destruct t as [| e t]; [discriminate |]. simpl in H2.
    destruct (resp c e) as [z |]; [| discriminate]. eauto.
Qed.

(** Every program returns, whatever the environment answers, and [replay]
    accepts the trace of the run. *)
Lemma replay_run (W R : Type) (o : Oracle W) (p : Prog R) (w : W) :
  (forall X (c : Call X) w0, answerAllowed c (fst (o X c w0)) = true) ->
  replay p (snd (fst (run o p w))) = Some (fst (fst (run o p w))).
Proof.
  intros Ho. revert w. induction p as [a | X c k IH]; intros w; simpl.
  - reflexivity.
  - specialize (Ho X c w). destruct (o X c w) as [x w1]. simpl in Ho.
    specialize (IH x w1). destruct (run o (k x) w1) as [[r tr] w2].
    simpl in *. now rewrite (resp_obs _ _ _ Ho).
Qed.

Lemma replay_Vis_obs (R X : Type) (c : Call X) (k : X -> Prog R) (x : X)
    (tr : list Event) :
  answerAllowed c x = true ->
  replay (Vis c k) (obs c x :: tr) = replay (k x) tr.
Proof. intros Hx. simpl. now rewrite resp_obs. Qed.

Lemma replay_Ret_nil (R : Type) (r : R) : replay (Ret r) [] = Some r.
Proof. reflexivity. Qed.

Lemma replay_Vis_resp (R X : Type) (c : Call X) (k : X -> Prog R) (x : X)
    (e : Event) (tr : list Event) :
  resp c e = Some x ->
  replay (Vis c k) (e :: tr) = replay (k x) tr.
Proof. intros Hx. simpl. now rewrite Hx. Qed.

#[local] Arguments replay {R} p tr : simpl never.

Ltac replay_fwd :=
  erewrite replay_Vis_resp by (simpl; rewrite ?same_refl; reflexivity).

Ltac replay_step H :=
  match type of H with
  | replay (Ret _) _ = Some _ =>
      let E := fresh "E" in
      apply replay_Ret_inv in H; destruct H as [E H]; subst
  | replay (Vis _ _) _ = Some _ =>
      let x := fresh "x" in
      let tr := fresh "tr" in
      let E := fresh "E" in
      let A := fresh "A" in
      apply replay_Vis_inv in H; destruct H as (x & tr & E & A & H);
      simpl obs in E; subst
  | replay (call _) _ = Some _ => unfold call in H; replay_step H
  end.

(** ** The reconciler *)

Section ReconcilerFacts.

Context {ext : Externals}.
Variable a : Agent.

Lemma bootstrapLoop_replay (m : serf.Member) (ms : list serf.Member)
    (t : list Event) (x : bool) :
  replay (addRaftPeer_bootstrapLoop m ms) t = Some x ->
  match find (conflictsWith m) ms with
  | Some other => t = [bothBootstrapLog m other] /\ x = true
  | None => t = [] /\ x = false
  end.
Proof.
  induction ms as [| member rest IH]; simpl; intros H.
  - now replay_step H.
  - unfold conflictsWith at 1.
    destruct (toServerPart member) as [p |]; [| now apply IH].
    destruct (negb (serf.Name member =? serf.Name m)
              && ServerParts.Bootstrap p); [| now apply IH].
    simpl in H. replay_step H. replay_step H. now split.
Qed.

Lemma bootstrapLoop_run (m : serf.Member) (ms : list serf.Member) :
  replay (addRaftPeer_bootstrapLoop m ms)
    match find (conflictsWith m) ms with
    | Some other => [bothBootstrapLog m other]
    | None => []
    end
  = Some match find (conflictsWith m) ms with
         | Some _ => true
         | None => false
         end.
Proof.
  induction ms as [| member rest IH]; simpl; [reflexivity |].
  unfold conflictsWith at 1 3.
  destruct (toServerPart member) as [p |]; [| exact IH].
  destruct (negb (serf.Name member =? serf.Name m)
            && ServerParts.Bootstrap p); [| exact IH].
  simpl. exact (replay_Vis_obs _ _ (Log _ _ _) _ tt [] eq_refl).
Qed.

(** The head of [addRaftPeer], up to the fetch of the configuration. *)
Lemma bootstrapCheck_replay (m : serf.Member) (parts : ServerParts.t)
    (ms : list serf.Member) (t : list Event) (x : bool) :
  replay (if ServerParts.Bootstrap parts
          then addRaftPeer_bootstrapLoop m ms
          else Ret false) t = Some x ->
  match bootstrapConflict m parts ms with
  | Some other => t = [bothBootstrapLog m other] /\ x = true
  | None => t = [] /\ x = false
  end.
Proof.
  unfold bootstrapConflict.
  destruct (ServerParts.Bootstrap parts); intros H.
  - now apply bootstrapLoop_replay.
  - now replay_step H.
Qed.

Lemma addRaftPeer_inv (m : serf.Member) (parts : ServerParts.t)
    (tr : list Event) (r : option Error) :
  replay (addRaftPeer a m parts) tr = Some r ->
  addRaftPeer_path a m parts tr r.
Proof.
  unfold addRaftPeer. intros H. simpl in H.
  replay_step H. rename x into ms.
  apply replay_bind_inv in H. destruct H as (t1 & t2 & ret & -> & H1 & H).
  apply bootstrapCheck_replay in H1.
  destruct (bootstrapConflict m parts ms) as [other |] eqn:Hc;
    destruct H1 as [-> ->].
  { replay_step H. now constructor. }
  simpl in H. replay_step H. destruct x as [e | cfg].
  { simpl in H. replay_step H. replay_step H. now constructor. }
  apply replay_bind_inv in H. destruct H as (t3 & t4 & skip & -> & Hs & H).
  assert (Hg : match selfJoinGuard a m cfg with
               | true => t3 = [skipSelfJoinLog m] /\ skip = true
               | false => t3 = [] /\ skip = false
               end).
  { unfold selfJoinGuard.
    destruct (serf.Name m =? Config.NodeName (config a)); simpl.
    - destruct (length cfg <? 3)%nat; simpl in Hs.
      + replay_step Hs. replay_step Hs. now split.
      + now replay_step Hs.
    - now replay_step Hs. }
  destruct (selfJoinGuard a m cfg) eqn:G; destruct Hg as [-> ->].
  { replay_step H. now constructor. }
  simpl app in H.
  apply replay_bind_inv in H. destruct H as (t5 & t6 & ret & -> & Hl & H).
  destruct ret as [r0 |].
  - replay_step H. rewrite app_nil_r. now apply path_loop_returns.
  - simpl in H. replay_step H.
    destruct x as [e |]; replay_step H; now apply path_add_voter.
Qed.

(** *** The loop over the servers in [addRaftPeer] *)

Lemma serverLoop_no_address (addr : raft.ServerAddress)
    (id : raft.ServerID) (cfg : raft.Configuration) (t : list Event)
    (x : option (option Error)) :
  (forall s, In s cfg -> raft.Address s <> addr) ->
  replay (addRaftPeer_serverLoop addr id cfg) t = Some x ->
  t = [] /\ x = None.
Proof.
  induction cfg as [| s0 rest IH]; simpl; intros Hno H.
  - now replay_step H.
  - assert (Hrest : forall s, In s rest -> raft.Address s <> addr)
      by auto.
    destruct (String.eqb_spec (raft.Address s0) addr) as [E | _].
    + now destruct (Hno s0 (or_introl eq_refl)).
    + simpl in H. destruct (raft.ID s0 =? id); auto.
Qed.

Lemma NoDup_address_head (s0 s : raft.Server) (rest : raft.Configuration) :
  NoDup (map raft.Address (s0 :: rest)) ->
  In s rest -> raft.Address s0 <> raft.Address s.
Proof.
  simpl. intros Hnd Hin E. inversion Hnd as [| ? ? Hnot _]; subst.
  apply Hnot. rewrite E. now apply in_map.
Qed.

Lemma serverLoop_exact (addr : raft.ServerAddress) (id : raft.ServerID)
    (cfg : raft.Configuration) (s : raft.Server) (t : list Event)
    (x : option (option Error)) :
  NoDup (map raft.Address cfg) ->
  In s cfg -> raft.ID s = id -> raft.Address s = addr ->
  replay (addRaftPeer_serverLoop addr id cfg) t = Some x ->
  t = [] /\ x = Some None.
Proof.
  induction cfg as [| s0 rest IH]; simpl; intros Hnd Hin Hid Haddr H.
  - contradiction.
  - destruct (String.eqb_spec (raft.Address s0) addr) as [Ea | Na];
      destruct (String.eqb_spec (raft.ID s0) id) as [Ei | Ni];
      simpl in H.
    + now replay_step H.
    + destruct Hin as [-> | Hin]; [contradiction |].
      destruct (NoDup_address_head s0 s rest Hnd Hin). congruence.
    + destruct Hin as [-> | Hin]; [contradiction |].
      inversion Hnd; subst. eauto.
    + destruct Hin as [-> | Hin]; [contradiction |].
      inversion Hnd; subst. eauto.
Qed.

Lemma serverLoop_stale (addr : raft.ServerAddress) (id : raft.ServerID)
    (cfg : raft.Configuration) (s : raft.Server) (t : list Event)
    (x : option (option Error)) :
  NoDup (map raft.Address cfg) ->
  In s cfg -> raft.Address s = addr -> raft.ID s <> id ->
  replay (addRaftPeer_serverLoop addr id cfg) t = Some x ->
  (exists e, t = [EvRemoveServer (raft.ID s) (Some e)]
             /\ x = Some (Some (ErrRemovingServer addr e)))
  \/ (t = [EvRemoveServer (raft.ID s) None] /\ x = None).
Proof.
  induction cfg as [| s0 rest IH]; simpl; intros Hnd Hin Haddr Hid H.
  - contradiction.
  - destruct (String.eqb_spec (raft.Address s0) addr) as [Ea | Na].
    + assert (s = s0) as ->.
      { destruct Hin as [-> | Hin]; [reflexivity |].
        destruct (NoDup_address_head s0 s rest Hnd Hin). congruence. }
      destruct (String.eqb_spec (raft.ID s0) id) as [Ei | _];
        [contradiction |].
      simpl in H. replay_step H. destruct x0 as [e |].
      * replay_step H. left. exists e. split; congruence.
      * right.
        apply serverLoop_no_address in H.
        { destruct H as [-> ->]. auto. }
        intros s1 Hs1 E1.
        destruct (NoDup_address_head s0 s1 rest Hnd Hs1). congruence.
    + destruct Hin as [-> | Hin]; [contradiction |].
      inversion Hnd; subst.
      simpl in H. destruct (raft.ID s0 =? id); eauto.
Qed.

Lemma serverLoop_returns_nil (addr : raft.ServerAddress)
    (id : raft.ServerID) (cfg : raft.Configuration) (t : list Event) :
  replay (addRaftPeer_serverLoop addr id cfg) t = Some (Some None) ->
  hasServer id addr cfg = true.
Proof.
  revert t. induction cfg as [| s0 rest IH]; simpl; intros t H.
  - now replay_step H.
  - destruct (raft.Address s0 =? addr); destruct (raft.ID s0 =? id);
      simpl in *; eauto.
    replay_step H. destruct x as [e |]; [now replay_step H | eauto].
Qed.

(** *** [removeRaftPeer] *)

Lemma removeLoop_replay (id : raft.ServerID) (cfg : raft.Configuration)
    (t : list Event) (r : option Error) :
  replay (removeRaftPeer_serverLoop id cfg) t = Some r ->
  if hasID id cfg then t = [EvRemoveServer id r] else t = [] /\ r = None.
Proof.
  induction cfg as [| s0 rest IH]; simpl; intros H.
  - now replay_step H.
  - destruct (raft.ID s0 =? id); simpl; [| exact (IH H)].
    replay_step H. destruct x; now replay_step H.
Qed.

Lemma removeRaftPeer_inv (m : serf.Member) (parts : ServerParts.t)
    (tr : list Event) (r : option Error) :
  replay (removeRaftPeer a m parts) tr = Some r ->
  removeRaftPeer_path a m parts tr r.
Proof.
  unfold removeRaftPeer. intros H.
  destruct (String.eqb_spec (serf.Name m) (Config.NodeName (config a)))
    as [E | N]; simpl in H.
  - replay_step H. replay_step H. now constructor.
  - replay_step H. destruct x as [e | cfg].
    + replay_step H. now constructor.
    + apply removeLoop_replay in H.
      destruct (hasID (ServerParts.ID parts) cfg) eqn:Hid.
      * subst. now constructor.
      * destruct H as [-> ->]. now constructor.
Qed.

(** *** [RefreshMember] *)

(** The call that [RefreshMember] makes for the status of the member. *)
Lemma RefreshMember_inv (member : serf.Member) (tr : list Event)
    (r : option Error) :
  replay (RefreshMember a member) tr = Some r ->
  match toServerPart member with
  | None => tr = [] /\ r = None
  | Some parts =>
      exists t,
        tr = t ++ refreshMemberTail member r /\
        match serf.Status member with
        | serf.StatusAlive => addRaftPeer_path a member parts t r
        | serf.StatusLeft => removeRaftPeer_path a member parts t r
        | _ => t = [] /\ r = None
        end
  end.
Proof.
  unfold RefreshMember. intros H.
  destruct (toServerPart member) as [parts |]; [| now replay_step H].
  apply replay_bind_inv in H. destruct H as (t & t2 & r0 & -> & H0 & H).
  assert (r = r0 /\ t2 = refreshMemberTail member r) as [<- ->].
  { destruct r0 as [e |]; simpl in H; repeat replay_step H; auto. }
  exists t. split; [reflexivity |].
  destruct (serf.Status member);
    first [ now apply addRaftPeer_inv
          | now apply removeRaftPeer_inv
          | now replay_step H0 ].
Qed.

Lemma uniqueAddresses_NoDup (cfg : raft.Configuration) :
  uniqueAddresses cfg = true -> NoDup (map raft.Address cfg).
Proof.
  induction cfg as [| s0 rest IH]; simpl; intros H; [constructor |].
  apply andb_true_iff in H. destruct H as [H1 H2].
  constructor; [| auto].
  intros Hin. apply in_map_iff in Hin. destruct Hin as (s1 & E & Hin).
  apply negb_true_iff in H1.
  assert (Hex : existsb (fun s' => raft.Address s' =? raft.Address s0) rest
                = true).
  { apply existsb_exists. exists s1. split; [assumption |].
    now apply String.eqb_eq. }
  congruence.
Qed.

Lemma hasServer_In (id : raft.ServerID) (addr : raft.ServerAddress)
    (cfg : raft.Configuration) :
  hasServer id addr cfg = true <->
  exists s, In s cfg /\ raft.ID s = id /\ raft.Address s = addr.
Proof.
  unfold hasServer. rewrite existsb_exists. split.
  - intros (s & Hin & H). apply andb_true_iff in H. destruct H as [Ha Hi].
    exists s. now rewrite String.eqb_eq in Ha, Hi.
  - intros (s & Hin & Hi & Ha). exists s. split; [assumption |].
    apply andb_true_iff. now rewrite !String.eqb_eq.
Qed.

(** The loop over the servers issues nothing but [RemoveServer]. *)
Lemma serverLoop_events (addr : raft.ServerAddress) (id : raft.ServerID)
    (cfg : raft.Configuration) (t : list Event)
    (x : option (option Error)) :
  replay (addRaftPeer_serverLoop addr id cfg) t = Some x ->
  forall e, In e t -> exists i res, e = EvRemoveServer i res.
Proof.
  revert t. induction cfg as [| s0 rest IH]; simpl; intros t H e He.
  - replay_step H. contradiction.
  - destruct (raft.Address s0 =? addr); destruct (raft.ID s0 =? id);
      simpl in H; eauto.
    + replay_step H. contradiction.
    + replay_step H. destruct He as [<- | He]; [eauto |].
      destruct x0; [replay_step H; contradiction | eauto].
Qed.

(** *** Runs along the paths *)

Lemma find_exists (A : Type) (f : A -> bool) (l : list A) (x : A) :
  In x l -> f x = true -> exists o, find f l = Some o.
Proof.
  induction l as [| y l IH]; simpl; [contradiction |].
  intros [-> | Hin] Hx.
  - rewrite Hx. eauto.
  - destruct (f y); eauto.
Qed.

Lemma addRaftPeer_conflict_run (m : serf.Member) (parts : ServerParts.t)
    (ms : list serf.Member) (o : serf.Member) :
  bootstrapConflict m parts ms = Some o ->
  replay (addRaftPeer a m parts) [EvMembers ms; bothBootstrapLog m o]
  = Some None.
Proof.
  unfold bootstrapConflict, addRaftPeer. intros Hc.
  destruct (ServerParts.Bootstrap parts); [| discriminate].
  simpl. replay_fwd.
  pose proof (bootstrapLoop_run m ms) as Hrun. rewrite Hc in Hrun.
  change [bothBootstrapLog m o] with ([bothBootstrapLog m o] ++ []).
  erewrite replay_bind_app by exact Hrun. reflexivity.
Qed.

Lemma RefreshMember_run (member : serf.Member) (parts : ServerParts.t)
    (t : list Event) (r : option Error) :
  toServerPart member = Some parts ->
  replay match serf.Status member with
         | serf.StatusAlive => addRaftPeer a member parts
         | serf.StatusLeft => removeRaftPeer a member parts
         | _ => Ret None
         end t = Some r ->
  replay (RefreshMember a member) (t ++ refreshMemberTail member r)
  = Some r.
Proof.
  intros Hp Ht. unfold RefreshMember. rewrite Hp.
  erewrite replay_bind_app by exact Ht.
  destruct r as [e |]; simpl; repeat replay_fwd; reflexivity.
Qed.

End ReconcilerFacts.

(** ** The claims about [addRaftPeer], [removeRaftPeer] and [RefreshMember] *)

Section ReconcilerClaims.

Context {ext : Externals}.
Variable a : Agent.

(** C1.  Let [addRaftPeer] have fetched the configuration [cfg] (so the
    check for a bootstrap conflict has let the member pass), let the
    self-join guard not apply, and let no two servers of [cfg] share an
    address.  Write [(id, addr)] for the target entry of the member.
    If [cfg] holds a server with both [id] and [addr], nothing more is
    issued and the result is nil.  If it holds a server with [addr] and
    another ID, [RemoveServer] is issued for that server and, once it has
    succeeded, [AddVoter id addr] is issued and its outcome returned (a
    failed removal is returned wrapped, with no [AddVoter]).  If no server
    has [addr], exactly [AddVoter id addr] is issued. *)
Theorem addRaftPeer_reconciles_target (m : serf.Member)
    (parts : ServerParts.t) (ms : list serf.Member)
    (cfg : raft.Configuration) (rest : list Event) (r : option Error) :
  replay (addRaftPeer a m parts)
    (EvMembers ms :: EvGetConfiguration (inr cfg) :: rest) = Some r ->
  selfJoinGuard a m cfg = false ->
  uniqueAddresses cfg = true ->
  ((exists s, In s cfg /\ raft.ID s = ServerParts.ID parts
              /\ raft.Address s = targetAddr m parts) ->
   rest = [] /\ r = None)
  /\ (forall s, In s cfg -> raft.Address s = targetAddr m parts ->
       raft.ID s <> ServerParts.ID parts ->
       (exists res,
          rest = [EvRemoveServer (raft.ID s) None;
                  EvAddVoter (ServerParts.ID parts) (targetAddr m parts) res]
          /\ r = res)
       \/ (exists e,
             rest = [EvRemoveServer (raft.ID s) (Some e)]
             /\ r = Some (ErrRemovingServer (targetAddr m parts) e)))
  /\ ((forall s, In s cfg -> raft.Address s <> targetAddr m parts) ->
      exists res,
        rest = [EvAddVoter (ServerParts.ID parts) (targetAddr m parts) res]
        /\ r = res).
Proof.
  intros H G U. apply uniqueAddresses_NoDup in U.
  apply addRaftPeer_inv in H.
  inversion H as [ ms0 other Hc | ms0 e Hc | ms0 cfg0 Hc G0
                 | ms0 cfg0 t r0 Hc G0 Hl | ms0 cfg0 t res Hc G0 Hl ];
    subst; try congruence.
  - (* the loop over the servers made the function return *)
    split; [| split].
    + intros (s & Hin & Hi & Ha).
      eapply serverLoop_exact in Hl; eauto.
      destruct Hl as [-> E]. split; congruence.
    + intros s Hin Ha Hi.
      eapply serverLoop_stale in Hl; eauto.
      destruct Hl as [(e & -> & E) | [_ E]]; [| discriminate].
      right. exists e. split; congruence.
    + intros Hno. eapply serverLoop_no_address in Hl; eauto.
      destruct Hl as [_ E]. discriminate.
  - (* the loop over the servers ran to its end *)
    split; [| split].
    + intros (s & Hin & Hi & Ha).
      eapply serverLoop_exact in Hl; eauto.
      destruct Hl as [_ E]. discriminate.
    + intros s Hin Ha Hi.
      eapply serverLoop_stale in Hl; eauto.
      destruct Hl as [(e & _ & E) | [-> _]]; [discriminate |].
      left. exists r. auto.
    + intros Hno. eapply serverLoop_no_address in Hl; eauto.
      destruct Hl as [-> _]. exists r. auto.
Qed.

(** C2.  Let [m] be a live server member in bootstrap mode, and let the
    members returned by the gossip library hold another live member, of a
    different name, that is a server in bootstrap mode too.  Then
    [addRaftPeer] logs the error naming the two members and returns nil:
    it issues no [GetConfiguration], [AddVoter] or [RemoveServer].
    [RefreshMember] returns nil as well, so a sweep goes on with the
    members that follow [m]. *)
Theorem addRaftPeer_bootstrap_conflict (m other : serf.Member)
    (parts parts' : ServerParts.t) (ms : list serf.Member) :
  toServerPart m = Some parts ->
  serf.Status m = serf.StatusAlive ->
  ServerParts.Bootstrap parts = true ->
  In other ms ->
  serf.Status other = serf.StatusAlive ->
  serf.Name other <> serf.Name m ->
  toServerPart other = Some parts' ->
  ServerParts.Bootstrap parts' = true ->
  exists o,
    In o ms /\ conflictsWith m o = true
    /\ replay (addRaftPeer a m parts) [EvMembers ms; bothBootstrapLog m o]
       = Some None
    /\ (forall tr r,
          replay (addRaftPeer a m parts) (EvMembers ms :: tr) = Some r ->
          tr = [bothBootstrapLog m o] /\ r = None
          /\ filter isRaftCall (EvMembers ms :: tr) = [])
    /\ (forall tr r,
          replay (RefreshMember a m) (EvMembers ms :: tr) = Some r ->
          r = None /\ filter isRaftCall (EvMembers ms :: tr) = [])
    /\ (forall rest t,
          replay (Refresh_loop a (m :: rest))
            ([EvMembers ms; bothBootstrapLog m o;
              EvMeasureSince metricRefreshMember] ++ t)
          = replay (Refresh_loop a rest) t).
Proof.
  intros Hp Hs Hb Hin Hso Hn Hp' Hb'.
  assert (Hcw : conflictsWith m other = true).
  { unfold conflictsWith. rewrite Hp', Hb'.
    apply String.eqb_neq in Hn. now rewrite Hn. }
  destruct (find_exists _ _ _ _ Hin Hcw) as [o Ho].
  assert (Hc : bootstrapConflict m parts ms = Some o).
  { unfold bootstrapConflict. now rewrite Hb. }
  destruct (find_some _ _ Ho) as [Hino Hco].
  pose proof (addRaftPeer_conflict_run a m parts ms o Hc) as Hrun.
  assert (Hadd : forall tr r,
             replay (addRaftPeer a m parts) (EvMembers ms :: tr) = Some r ->
             tr = [bothBootstrapLog m o] /\ r = None).
  { intros tr r H. apply addRaftPeer_inv in H.
    inversion H; subst; try congruence.
    split; [| reflexivity]. congruence. }
  exists o. repeat (split; [assumption |]). split; [| split].
  - intros tr r H. destruct (Hadd _ _ H) as [-> ->]. auto.
  - intros tr r H. apply RefreshMember_inv in H. rewrite Hp, Hs in H.
    destruct H as (t & E & Hpath).
    destruct t as [| e0 t]; [inversion Hpath |].
    simpl in E. injection E as <- ->.
    inversion Hpath; subst; try congruence. auto.
  - intros rest t. simpl Refresh_loop.
    assert (Hm : replay (RefreshMember a m)
                   ([EvMembers ms; bothBootstrapLog m o]
                      ++ refreshMemberTail m None) = Some None).
    { apply (RefreshMember_run a m parts _ None Hp). now rewrite Hs. }
    erewrite replay_bind_app by exact Hm. reflexivity.
Qed.

(** C5.  For a member whose name is the [NodeName] of the local node,
    [removeRaftPeer] logs the warning and returns nil, and that is all it
    does; so when such a member has status left, [RefreshMember] returns
    nil too and its trace holds no [RemoveServer] at all. *)
Theorem removeRaftPeer_never_removes_self (m : serf.Member)
    (parts : ServerParts.t) :
  serf.Name m = Config.NodeName (config a) ->
  replay (removeRaftPeer a m parts) [removingSelfLog a] = Some None
  /\ (forall tr r,
        replay (removeRaftPeer a m parts) tr = Some r ->
        tr = [removingSelfLog a] /\ r = None)
  /\ (forall tr r,
        serf.Status m = serf.StatusLeft ->
        replay (RefreshMember a m) tr = Some r ->
        r = None /\ forall id res, ~ In (EvRemoveServer id res) tr).
Proof.
  intros Hn. split; [| split].
  - unfold removeRaftPeer. apply String.eqb_eq in Hn. rewrite Hn.
    simpl. now replay_fwd.
  - intros tr r H. apply removeRaftPeer_inv in H.
    inversion H; subst; [auto | contradiction ..].
  - intros tr r Hs H. apply RefreshMember_inv in H.
    destruct (toServerPart m) as [p |].
    + rewrite Hs in H. destruct H as (t & -> & Hpath).
      inversion Hpath; subst; [| contradiction ..].
      split; [reflexivity |]. intros id res Hin. simpl in Hin.
      unfold removingSelfLog in Hin.
      destruct Hin as [E | [E | []]]; discriminate.
    + destruct H as [-> ->]. auto.
Qed.

(** C6.  For a member whose name is the [NodeName] of the local node:
    when [addRaftPeer] has fetched a configuration of fewer than three
    servers, it returns nil after logging that the self join is skipped,
    and issues neither [AddVoter] nor [RemoveServer]. *)
Theorem addRaftPeer_self_join_guard (m : serf.Member)
    (parts : ServerParts.t) (cfg : raft.Configuration)
    (tr : list Event) (r : option Error) :
  serf.Name m = Config.NodeName (config a) ->
  In (EvGetConfiguration (inr cfg)) tr ->
  length cfg < 3 ->
  replay (addRaftPeer a m parts) tr = Some r ->
  r = None
  /\ filter isConfigChange tr = []
  /\ exists ms,
       tr = [EvMembers ms; EvGetConfiguration (inr cfg); skipSelfJoinLog m].
Proof.
  intros Hn Hin Hlen H. apply addRaftPeer_inv in H.
  assert (Hg : selfJoinGuard a m cfg = true).
  { unfold selfJoinGuard. apply String.eqb_eq in Hn. rewrite Hn.
    now apply Nat.ltb_lt in Hlen as ->. }
  inversion H as [ ms0 other Hc | ms0 e Hc | ms0 cfg0 Hc G0
                 | ms0 cfg0 t r0 Hc G0 Hl | ms0 cfg0 t res Hc G0 Hl ];
    subst; simpl in Hin; unfold bothBootstrapLog, getConfigurationFailedLog,
      skipSelfJoinLog in Hin.
  - destruct Hin as [E | [E | []]]; discriminate.
  - destruct Hin as [E | [E | [E | []]]]; discriminate.
  - destruct Hin as [E | [E | [E | []]]]; try discriminate.
    injection E as ->. eauto.
  - destruct Hin as [E | [E | Hin]]; try discriminate.
    + injection E as ->. congruence.
    + destruct (serverLoop_events _ _ _ _ _ Hl _ Hin) as (i & res & E).
      discriminate E.
  - destruct Hin as [E | [E | Hin]]; try discriminate.
    + injection E as ->. congruence.
    + apply in_app_or in Hin. destruct Hin as [Hin | [E | []]].
      * destruct (serverLoop_events _ _ _ _ _ Hl _ Hin) as (i & res0 & E).
        discriminate E.
      * discriminate E.
Qed.

(** C10.  For a server member whose status is neither alive nor left
    (none, leaving, failed), [RefreshMember] returns nil and calls nothing
    but its timing metric: no [GetConfiguration], no [AddVoter], no
    [RemoveServer]; the voter entry of a member that has failed stays. *)
Theorem RefreshMember_ignores_other_statuses (member : serf.Member)
    (parts : ServerParts.t) :
  toServerPart member = Some parts ->
  serf.Status member <> serf.StatusAlive ->
  serf.Status member <> serf.StatusLeft ->
  replay (RefreshMember a member) [EvMeasureSince metricRefreshMember]
  = Some None
  /\ (forall tr r,
        replay (RefreshMember a member) tr = Some r ->
        r = None /\ tr = [EvMeasureSince metricRefreshMember]
        /\ filter isRaftCall tr = []).
Proof.
  intros Hp Ha Hl. split.
  - apply (RefreshMember_run a member parts [] None Hp).
    destruct (serf.Status member); try reflexivity; contradiction.
  - intros tr r H. apply RefreshMember_inv in H. rewrite Hp in H.
    destruct H as (t & -> & H).
    destruct (serf.Status member); try contradiction;
      destruct H as [-> ->]; auto.
Qed.

(** *** The sweep *)

Lemma Refresh_loop_run_nil (ms : list serf.Member)
    (trs : list (list Event)) :
  Forall2 (fun mi ti => replay (RefreshMember a mi) ti = Some None) ms trs ->
  replay (Refresh_loop a ms) (concat trs) = Some None.
Proof.
  induction 1 as [| mi ti ms trs Hmi _ IH]; simpl; [reflexivity |].
  erewrite replay_bind_app by exact Hmi. exact IH.
Qed.

Lemma Refresh_loop_run_abort (ms1 ms2 : list serf.Member) (m : serf.Member)
    (trs : list (list Event)) (tm : list Event) (e : Error) :
  Forall2 (fun mi ti => replay (RefreshMember a mi) ti = Some None) ms1 trs ->
  replay (RefreshMember a m) tm = Some (Some e) ->
  replay (Refresh_loop a (ms1 ++ m :: ms2)) (concat trs ++ tm)
  = Some (Some e).
Proof.
  intros Hnil Hm.
  induction Hnil as [| mi ti ms trs Hmi _ IH]; simpl.
  - rewrite <- (app_nil_r tm).
    erewrite replay_bind_app by exact Hm. reflexivity.
  - rewrite <- app_assoc.
    erewrite replay_bind_app by exact Hmi. exact IH.
Qed.

(** C8.  [Refresh] handles the members in the order in which the gossip
    library returned them: when each of them is reconciled with result
    nil, the trace of the sweep is the traces of the members one after
    the other.  When the members [ms1] are reconciled with nil and the
    next member [m] with the error [e], the sweep returns [e], and after
    the trace of [m] it issues nothing but its own timing metric: no
    member of [ms2] is reconciled. *)
Theorem Refresh_aborts_on_first_error :
  (forall ms trs,
     Forall2 (fun mi ti => replay (RefreshMember a mi) ti = Some None)
       ms trs ->
     replay (Refresh a)
       (EvMembers ms :: concat trs ++ [EvMeasureSince metricRefresh])
     = Some None)
  /\ (forall ms1 m ms2 trs tm e,
        Forall2 (fun mi ti => replay (RefreshMember a mi) ti = Some None)
          ms1 trs ->
        replay (RefreshMember a m) tm = Some (Some e) ->
        replay (Refresh a)
          (EvMembers (ms1 ++ m :: ms2)
             :: (concat trs ++ tm) ++ [EvMeasureSince metricRefresh])
        = Some (Some e)
        /\ forall tail r,
             replay (Refresh a)
               (EvMembers (ms1 ++ m :: ms2) :: (concat trs ++ tm) ++ tail)
             = Some r ->
             tail = [EvMeasureSince metricRefresh] /\ r = Some e).
Proof.
  split.
  - intros ms trs Hnil. unfold Refresh. simpl. replay_fwd.
    erewrite replay_bind_app by exact (Refresh_loop_run_nil _ _ Hnil).
    simpl. now replay_fwd.
  - intros ms1 m ms2 trs tm e Hnil Hm.
    pose proof (Refresh_loop_run_abort ms1 ms2 m trs tm e Hnil Hm) as Hl.
    split.
    + unfold Refresh. simpl. replay_fwd.
      erewrite replay_bind_app by exact Hl. simpl. now replay_fwd.
    + intros tail r H. unfold Refresh in H. simpl in H.
      erewrite replay_Vis_resp in H by reflexivity.
      erewrite replay_bind_app in H by exact Hl.
      simpl in H. replay_step H. replay_step H. auto.
Qed.

Lemma configChange_in (e : Event) (tr : list Event) :
  In e tr -> isConfigChange e = true -> filter isConfigChange tr <> [].
Proof.
  intros Hin He Hnil.
  assert (Hf : In e (filter isConfigChange tr))
    by (apply filter_In; auto).
  rewrite Hnil in Hf. contradiction.
Qed.

(** C7, as it holds.  When [RefreshMember] returns nil for a server
    member and has issued no configuration change, one of these is the
    case.  The member is alive and: another server member in bootstrap
    mode made [addRaftPeer] return (the bootstrap conflict), or the
    member is the local node and the configuration has fewer than three
    servers (the self-join guard), or the configuration already holds
    its target entry.  The member has left and: it is the local node, or
    no server of the configuration has its ID.  Or its status is neither
    alive nor left. *)
Theorem RefreshMember_skip_conditions (member : serf.Member)
    (parts : ServerParts.t) (tr : list Event) :
  toServerPart member = Some parts ->
  replay (RefreshMember a member) tr = Some None ->
  filter isConfigChange tr = [] ->
  match serf.Status member with
  | serf.StatusAlive =>
      (exists ms other,
         In (EvMembers ms) tr
         /\ bootstrapConflict member parts ms = Some other)
      \/ (exists cfg,
            In (EvGetConfiguration (inr cfg)) tr
            /\ selfJoinGuard a member cfg = true)
      \/ (exists cfg,
            In (EvGetConfiguration (inr cfg)) tr
            /\ hasServer (ServerParts.ID parts) (targetAddr member parts)
                 cfg = true)
  | serf.StatusLeft =>
      serf.Name member = Config.NodeName (config a)
      \/ (exists cfg,
            In (EvGetConfiguration (inr cfg)) tr
            /\ hasID (ServerParts.ID parts) cfg = false)
  | _ => True
  end.
Proof.
  intros Hp H Hnc. apply RefreshMember_inv in H. rewrite Hp in H.
  destruct H as (t & -> & H).
  destruct (serf.Status member); try exact I.
  - inversion H as [ ms0 other Hc | ms0 e Hc | ms0 cfg0 Hc G0
                   | ms0 cfg0 t0 r0 Hc G0 Hl | ms0 cfg0 t0 res Hc G0 Hl ];
      subst.
    + left. exists ms0, other. simpl. auto.
    + right. left. exists cfg0. simpl. auto.
    + right. right. exists cfg0. simpl. split; [auto |].
      exact (serverLoop_returns_nil _ _ _ _ Hl).
    + exfalso. revert Hnc.
      apply configChange_in
        with (e := EvAddVoter (ServerParts.ID parts)
                     (targetAddr member parts) None); [| reflexivity].
      simpl. right. right. rewrite <- app_assoc.
      apply in_or_app. right. simpl. auto.
  - inversion H as [ Hn | e Hn | cfg0 Hn Hid | cfg0 res Hn Hid ]; subst.
    + now left.
    + right. exists cfg0. simpl. auto.
    + exfalso. revert Hnc.
      apply configChange_in
        with (e := EvRemoveServer (ServerParts.ID parts) None);
        [| reflexivity].
      simpl. auto.
Qed.

End ReconcilerClaims.

(** ** [setupRaft] *)

Section SetupRaftFacts.

Lemma setupRaft_bootstrap_inv (a : Agent) (localID : raft.ServerID)
    (stores : Stores) (t : list Event) (r : option Error) :
  replay (setupRaft_bootstrap a localID stores) t = Some r ->
  let l := logStore stores in
  let s := stableStore stores in
  let n := snapshots stores in
  (Config.Bootstrap (config a) || Config.DevMode (config a) = false
   /\ t = [] /\ r = None)
  \/ (Config.Bootstrap (config a) || Config.DevMode (config a) = true
      /\ ((exists e, t = [EvHasExistingState l s n (inl e)] /\ r = Some e)
          \/ (t = [EvHasExistingState l s n (inr true)] /\ r = None)
          \/ (exists addr,
                t = [EvHasExistingState l s n (inr false);
                     EvTransportLocalAddr addr;
                     EvBootstrapCluster localID l s n
                       (bootstrapConfiguration localID addr) r]))).
Proof.
  unfold setupRaft_bootstrap. intros H.
  destruct (Config.Bootstrap (config a) || Config.DevMode (config a)).
  - right. split; [reflexivity |]. simpl in H. replay_step H.
    destruct x as [e | [|]].
    + replay_step H. left. eauto.
    + replay_step H. right. left. auto.
    + simpl in H. replay_step H. replay_step H. replay_step H.
      right. right. eauto.
  - replay_step H. left. auto.
Qed.


End SetupRaftFacts.

(** ** [leaderLoop] *)

Section LeaderLoopFacts.

Context {ext : Externals}.
Variable a : Agent.

Lemma leaderLoop_block_inv (l l' : Label) (tr : list Event) :
  replay (leaderLoop_block a l) tr = Some l' ->
  leaderLoop_path a l tr l'.
Proof.
  intros H. destruct l as [| rc |]; cbn [leaderLoop_block bind call] in H.
  - replay_step H. replay_step H. rename x0 into b.
    destruct b as [e |]; cbn [bind] in H.
    + replay_step H. replay_step H. constructor.
    + replay_step H.
      apply replay_bind_inv in H.
      destruct H as (sweep & t2 & r & -> & Hs & H).
      destruct r as [e |]; cbn [bind] in H.
      * replay_step H. replay_step H. now constructor.
      * replay_step H. rename x1 into stopped.
        match type of H with replay _ ?t = _ => rename t into tl end.
        assert (tl = []
                /\ l' = if stopped then RETURN else WAIT (refreshCh a))
          as [-> ->]
          by (destruct stopped; replay_step H; auto).
        now apply path_sweep_polled.
  - replay_step H. rename x into c.
    destruct c as [| | | m]; cbn [bind] in H.
    + replay_step H. constructor.
    + replay_step H. constructor.
    + replay_step H. constructor.
    + simpl in A. subst rc.
      apply replay_bind_inv in H.
      destruct H as (t & t2 & r & -> & Hm & H).
      assert (t2 = match r with
                   | Some e => [incrementalFailedLog e]
                   | None => []
                   end /\ l' = WAIT true) as [-> ->]
        by (destruct r; cbn [bind] in H; repeat replay_step H; auto).
      now apply path_wait_member.
  - replay_step H. constructor.
Qed.

(** A jump to the return of [leaderLoop] ends on a return signal. *)
Lemma leaderLoop_block_returns (l : Label) (tr : list Event) :
  l <> RETURN ->
  replay (leaderLoop_block a l) tr = Some RETURN ->
  exists pre e, tr = pre ++ [e] /\ isReturnSignal e = true.
Proof.
  intros Hl H. apply leaderLoop_block_inv in H.
  inversion H as [ e | sweep e Hs | sweep stopped Hs E1 E2 | rc | rc | rc
                 | m t r Hm | ]; subst; try contradiction.
  - destruct stopped; [| discriminate].
    exists (EvTimeAfter (refreshInterval a)
              :: EvBarrier barrierWriteTimeout None
              :: EvMeasureSince metricBarrier :: sweep),
           (EvPollStop true).
    now split.
  - exists [], (EvSelectWait rc CaseStop). now split.
  - exists [], (EvSelectWait rc CaseShutdown). now split.
Qed.

(** [leaderLoop] returns on a return signal and on nothing else: the poll
    of the stop channel answered that it is closed, or the select of the
    wait phase took the stop channel or the shutdown channel. *)
Lemma leaderLoop_returns_on_signal (fuel : nat) (l : Label)
    (tr : list Event) :
  l <> RETURN ->
  replay (leaderLoop_from a fuel l) tr = Some true ->
  exists pre e, tr = pre ++ [e] /\ isReturnSignal e = true.
Proof.
  revert l tr. induction fuel as [| fuel IH]; intros l tr Hl H.
  - destruct l; [| | contradiction]; simpl in H; now replay_step H.
  - assert (Hb : replay (l' <- leaderLoop_block a l;;
                         leaderLoop_from a fuel l') tr = Some true)
      by (destruct l; [exact H | exact H | contradiction]).
    apply replay_bind_inv in Hb.
    destruct Hb as (t1 & t2 & l' & -> & H1 & H2).
    destruct l' as [| rc |].
    + destruct (IH REFRESH t2 ltac:(discriminate) H2)
        as (pre & e & -> & He).
      exists (t1 ++ pre), e. now rewrite app_assoc.
    + destruct (IH (WAIT rc) t2 ltac:(discriminate) H2)
        as (pre & e & -> & He).
      exists (t1 ++ pre), e. now rewrite app_assoc.
    + assert (t2 = []) as ->
        by (destruct fuel; simpl in H2; now replay_step H2).
      rewrite app_nil_r. now apply leaderLoop_block_returns with (l := l).
Qed.

End LeaderLoopFacts.

Section LeaderLoopClaims.

Context {ext : Externals}.
Variable a : Agent.

(** C9, as it holds.  From the label [REFRESH] the loop arms the timer
    and waits for the barrier.  When the barrier fails, or when the sweep
    that follows a successful barrier fails, the loop logs and goes to the
    wait phase without polling the stop channel.  The stop channel is
    polled once, after the whole sweep has succeeded: the calls of the
    sweep lie between the barrier and the poll.  In the wait phase every
    iteration starts with a select that has the stop channel among its
    cases, and the loop returns when the select takes the stop channel or
    the shutdown channel.  The loop returns in no other way than by the
    poll or by one of these two cases. *)
Theorem leaderLoop_stop_checks :
  (forall tr l',
     replay (leaderLoop_block a REFRESH) tr = Some l' ->
     exists b rest,
       tr = EvTimeAfter (refreshInterval a)
              :: EvBarrier barrierWriteTimeout b :: rest
       /\ match b with
          | Some e => rest = [barrierFailedLog e] /\ l' = WAIT false
          | None =>
              exists sweep r,
                replay (Refresh a) sweep = Some r
                /\ match r with
                   | Some e =>
                       rest = EvMeasureSince metricBarrier
                                :: sweep ++ [sweepFailedLog e]
                       /\ l' = WAIT false
                   | None =>
                       exists stopped,
                         rest = EvMeasureSince metricBarrier
                                  :: sweep ++ [EvPollStop stopped]
                         /\ l' = if stopped : bool then RETURN
                                 else WAIT (refreshCh a)
                   end
          end)
  /\ (forall rc tr l',
        replay (leaderLoop_block a (WAIT rc)) tr = Some l' ->
        exists c rest,
          tr = EvSelectWait rc c :: rest
          /\ match c with
             | CaseStop => rest = [] /\ l' = RETURN
             | CaseShutdown => rest = [] /\ l' = RETURN
             | CaseInterval => rest = [] /\ l' = REFRESH
             | CaseMember m =>
                 rc = true /\ l' = WAIT rc
                 /\ exists t r,
                      replay (RefreshMember a m) t = Some r
                      /\ rest = t ++ match r with
                                     | Some e => [incrementalFailedLog e]
                                     | None => []
                                     end
             end)
  /\ (forall fuel tr,
        replay (leaderLoop a fuel) tr = Some true ->
        exists pre e,
          tr = pre ++ [e]
          /\ (e = EvPollStop true
              \/ exists rc, e = EvSelectWait rc CaseStop
                            \/ e = EvSelectWait rc CaseShutdown)).
Proof.
  split; [| split].
  - intros tr l' H. apply leaderLoop_block_inv in H.
    inversion H as [ e | sweep e Hs | sweep stopped Hs | | | | | ]; subst.
    + do 2 eexists. split; [reflexivity |]. now split.
    + do 2 eexists. split; [reflexivity |]. exists sweep, (Some e).
      split; [assumption |]. now split.
    + do 2 eexists. split; [reflexivity |]. exists sweep, None.
      split; [assumption |]. exists stopped. now split.
  - intros rc tr l' H. apply leaderLoop_block_inv in H.
    inversion H as [ | | | rc0 | rc0 | rc0 | m t r Hm | ]; subst.
    + do 2 eexists. split; [reflexivity |]. now split.
    + do 2 eexists. split; [reflexivity |]. now split.
    + do 2 eexists. split; [reflexivity |]. now split.
    + do 2 eexists. split; [reflexivity |]. repeat split. eauto.
  - intros fuel tr H.
    destruct (leaderLoop_returns_on_signal a fuel REFRESH tr
                ltac:(discriminate) H) as (pre & e & -> & He).
    exists pre, e. split; [reflexivity |].
    destruct e; try discriminate.
    + destruct stopped; [now left | discriminate].
    + right. exists refreshCh0.
      destruct c; try discriminate; auto.
Qed.

End LeaderLoopClaims.

(** ** [monitorLeadership] *)

Section MonitorClaims.

Import Monitor.

Lemma invariant_init : invariant init.
Proof. simpl. split; [reflexivity | discriminate]. Qed.

Lemma remove_single (ch ch0 : Chan) :
  remove ch0 [ch] = [] \/ remove ch0 [ch] = [ch].
Proof. unfold remove. simpl. destruct (Nat.eqb ch ch0); auto. Qed.

Lemma invariant_step (s s' : State) (i : Input) :
  invariant s -> step s i = Some s' -> invariant s'.
Proof.
  unfold invariant, step. intros Hinv Hstep.
  destruct i as [[|] | | | ch0 |].
  - destruct (pc s) eqn:Hpc; try discriminate.
    destruct (weAreLeaderCh s) as [ch |] eqn:Hch;
      injection Hstep as <-; simpl.
    + destruct Hinv as [Hl _]. auto.
    + destruct Hinv as [-> _]. auto.
  - destruct (pc s) eqn:Hpc; try discriminate.
    destruct (weAreLeaderCh s) as [ch |] eqn:Hch;
      injection Hstep as <-; simpl.
    + destruct Hinv as [Hl _]. auto.
    + destruct Hinv as [Hl _]. split; [assumption | discriminate].
  - destruct (pc s) eqn:Hpc; try discriminate.
    destruct (shutdown s); [| discriminate].
    injection Hstep as <-; simpl.
    destruct (weAreLeaderCh s); [assumption |].
    destruct Hinv as [Hl _]. split; [assumption | discriminate].
  - destruct (shutdown s); [discriminate |].
    injection Hstep as <-; simpl. exact Hinv.
  - destruct (mem ch0 (loops s) && (mem ch0 (closed s) || shutdown s));
      [| discriminate].
    injection Hstep as <-; simpl.
    destruct (weAreLeaderCh s) as [ch |].
    + destruct Hinv as [[-> | ->] Hpc]; split; auto using remove_single.
    + destruct Hinv as [-> Hpc]. auto.
  - destruct (pc s) eqn:Hpc; try discriminate.
    destruct (loops s) eqn:Hl; [| discriminate].
    injection Hstep as <-; simpl. split; [reflexivity | discriminate].
Qed.

Lemma invariant_run (inputs : list Input) (s s' : State) :
  invariant s -> run s inputs = Some s' -> invariant s'.
Proof.
  revert s. induction inputs as [| i rest IH]; simpl; intros s Hinv H.
  - now injection H as <-.
  - destruct (step s i) as [s1 |] eqn:Hs; [| discriminate].
    eauto using invariant_step.
Qed.


End MonitorClaims.

(** ** Runs on the concrete cluster *)

Section ConcreteRuns.

Import Example.
#[local] Existing Instance ext.

(** [node2] joins while its address is still held by the server [old]:
    the stale server is removed, then [node2] is added. *)
Lemma addRaftPeer_reconciles_target_witness :
  (exists res,
     [EvRemoveServer "old" None; EvAddVoter "node2" "10.0.0.2:6868" None]
     = [EvRemoveServer "old" None; EvAddVoter "node2" "10.0.0.2:6868" res]
     /\ None = res)
  \/ (exists e,
        [EvRemoveServer "old" None; EvAddVoter "node2" "10.0.0.2:6868" None]
        = [EvRemoveServer "old" (Some e)]
        /\ None = Some (ErrRemovingServer "10.0.0.2:6868" e)).
Proof.
  destruct (addRaftPeer_reconciles_target leader node2
              (parts "node2" false) [node1; node2] staleConfiguration
              [EvRemoveServer "old" None;
               EvAddVoter "node2" "10.0.0.2:6868" None] None)
    as (_ & H & _); [reflexivity .. |].
  apply (H (voter "old" "10.0.0.2:6868")).
  - simpl. auto.
  - reflexivity.
  - discriminate.
Defined.

(** [boot1] and [boot2] are both in bootstrap mode: nothing is issued. *)
Lemma addRaftPeer_bootstrap_conflict_witness :
  exists o,
    replay (addRaftPeer leader boot1 (parts "node1" true))
      [EvMembers [boot1; boot2]; bothBootstrapLog boot1 o] = Some None.
Proof.
  destruct (addRaftPeer_bootstrap_conflict leader boot1 boot2
              (parts "node1" true) (parts "node2" true) [boot1; boot2])
    as (o & _ & _ & H & _).
  - reflexivity.
  - reflexivity.
  - reflexivity.
  - simpl. auto.
  - reflexivity.
  - discriminate.
  - reflexivity.
  - reflexivity.
  - exists o. exact H.
Defined.

(** The local node has left: no [RemoveServer]. *)
Lemma removeRaftPeer_never_removes_self_witness :
  replay (removeRaftPeer leader
            (member "node1" 1 false serf.StatusLeft) (parts "node1" false))
    [removingSelfLog leader] = Some None.
Proof.
  apply (removeRaftPeer_never_removes_self leader
           (member "node1" 1 false serf.StatusLeft) (parts "node1" false)).
  reflexivity.
Defined.

(** The local node against a configuration of one server. *)
Lemma addRaftPeer_self_join_guard_witness :
  @None Error = None
  /\ filter isConfigChange
       [EvMembers [node1; node2];
        EvGetConfiguration (inr bootConfiguration);
        skipSelfJoinLog node1] = []
  /\ exists ms,
       [EvMembers [node1; node2];
        EvGetConfiguration (inr bootConfiguration);
        skipSelfJoinLog node1]
       = [EvMembers ms; EvGetConfiguration (inr bootConfiguration);
          skipSelfJoinLog node1].
Proof.
  apply (addRaftPeer_self_join_guard leader node1
           (parts "node1" false) bootConfiguration).
  - reflexivity.
  - simpl. auto.
  - simpl. lia.
  - reflexivity.
Defined.

(** A failed member is left alone. *)
Lemma RefreshMember_ignores_other_statuses_witness :
  replay (RefreshMember leader
            (member "node2" 2 false serf.StatusFailed))
    [EvMeasureSince metricRefreshMember] = Some None.
Proof.
  apply (RefreshMember_ignores_other_statuses leader
           (member "node2" 2 false serf.StatusFailed)
           (parts "node2" false)).
  - reflexivity.
  - discriminate.
  - discriminate.
Defined.

(** A sweep over [client; node2; node3] in which the configuration cannot
    be read for [node2]: [node3] is not reached. *)
Lemma Refresh_aborts_on_first_error_witness :
  replay (Refresh leader)
    (EvMembers ([client] ++ node2 :: [node3])
       :: (concat [[]] ++ failingMemberTrace)
          ++ [EvMeasureSince metricRefresh])
  = Some (Some lost).
Proof.
  apply (proj2 (Refresh_aborts_on_first_error leader)
           [client] node2 [node3] [[]] failingMemberTrace lost).
  - constructor; [reflexivity | constructor].
  - reflexivity.
Defined.

(** C7 fails here: the local node [node1] is alive, the configuration
    holds [node1] at another address than its target address, so there is
    a change to make; no member at all is in bootstrap mode; and yet
    [RefreshMember] returns nil without issuing any configuration change
    (the self-join guard has skipped the member). *)
Lemma self_join_guard_skips_without_bootstrap_conflict :
  replay (RefreshMember leader node1) selfJoinTrace = Some None
  /\ filter isConfigChange selfJoinTrace = []
  /\ hasServer "node1" (targetAddr node1 (parts "node1" false))
       bootConfiguration = false
  /\ existsb (fun m => match toServerPart m with
                       | Some p => ServerParts.Bootstrap p
                       | None => false
                       end) [node1; node2] = false.
Proof. repeat split. Qed.

Lemma RefreshMember_skip_conditions_witness :
  (exists ms other,
     In (EvMembers ms) selfJoinTrace
     /\ bootstrapConflict node1 (parts "node1" false) ms = Some other)
  \/ (exists cfg,
        In (EvGetConfiguration (inr cfg)) selfJoinTrace
        /\ selfJoinGuard leader node1 cfg = true)
  \/ (exists cfg,
        In (EvGetConfiguration (inr cfg)) selfJoinTrace
        /\ hasServer "node1" (targetAddr node1 (parts "node1" false))
             cfg = true).
Proof.
  apply (RefreshMember_skip_conditions leader node1
           (parts "node1" false) selfJoinTrace); reflexivity.
Defined.


(** C9 fails here: the barrier has completed and the stop channel is
    closed (the poll answers true), yet before the first check of the stop
    channel the loop has read the configuration and added a voter. *)
Lemma leaderLoop_sweeps_before_stop_check :
  replay (leaderLoop_block leader REFRESH) refreshBlockTrace
  = Some RETURN
  /\ nth_error refreshBlockTrace 1
     = Some (EvBarrier barrierWriteTimeout None)
  /\ filter isRaftCall (untilStopCheck (afterBarrier refreshBlockTrace))
     = [EvGetConfiguration (inr [voter "node1" "10.0.0.1:6868"]);
        EvAddVoter "node2" "10.0.0.2:6868" None]
  /\ hd_error (afterBarrier refreshBlockTrace)
     = Some (EvMeasureSince metricBarrier).
Proof. repeat split. Qed.

Lemma leaderLoop_stop_checks_witness :
  exists b rest,
    refreshBlockTrace
    = EvTimeAfter (refreshInterval leader)
        :: EvBarrier barrierWriteTimeout b :: rest.
Proof.
  destruct (proj1 (leaderLoop_stop_checks leader)
              refreshBlockTrace RETURN) as (b & rest & E & _).
  - reflexivity.
  - exists b, rest. exact E.
Defined.



End ConcreteRuns.

(** * Further properties *)

(** ** The reconciler *)

Lemma filter_nil (A : Type) (f : A -> bool) (l : list A) :
  (forall x, In x l -> f x = false) -> filter f l = [].
Proof.
  induction l as [| y l IH]; simpl; intros H; [reflexivity |].
  rewrite (H y (or_introl eq_refl)). auto.
Qed.

Section ReconcilerMore.

Context {ext : Externals}.
Variable a : Agent.

Lemma hasID_In (id : raft.ServerID) (cfg : raft.Configuration) :
  hasID id cfg = true <-> exists s, In s cfg /\ raft.ID s = id.
Proof.
  unfold hasID. rewrite existsb_exists. split.
  - intros (s & Hin & H). exists s. now rewrite String.eqb_eq in H.
  - intros (s & Hin & H). exists s. now rewrite String.eqb_eq.
Qed.

(** X1.  Once [removeRaftPeer] has read the configuration, it removes by
    ID alone: when some server has the ID of the member, exactly one
    [RemoveServer] for that ID is issued (also when several servers have
    it) and its outcome is the result, unwrapped; when no server has the
    ID, nothing is issued and the result is nil. *)
Theorem removeRaftPeer_removes_by_id (m : serf.Member)
    (parts : ServerParts.t) (cfg : raft.Configuration) (rest : list Event)
    (r : option Error) :
  replay (removeRaftPeer a m parts) (EvGetConfiguration (inr cfg) :: rest)
  = Some r ->
  ((exists s, In s cfg /\ raft.ID s = ServerParts.ID parts) ->
   rest = [EvRemoveServer (ServerParts.ID parts) r])
  /\ ((forall s, In s cfg -> raft.ID s <> ServerParts.ID parts) ->
      rest = [] /\ r = None).
Proof.
  intros H. apply removeRaftPeer_inv in H.
  inversion H as [ Hn | e Hn | cfg0 Hn Hid | cfg0 res Hn Hid ]; subst.
  - split.
    + intros Hex. apply hasID_In in Hex. congruence.
    + auto.
  - split.
    + reflexivity.
    + intros Hno. apply hasID_In in Hid. destruct Hid as (s & Hin & E).
      now destruct (Hno s Hin).
Qed.

(** The loop over the servers removes nothing but servers of the
    configuration that hold the target address under another ID. *)
Lemma serverLoop_removes_stale (addr : raft.ServerAddress)
    (id : raft.ServerID) (cfg : raft.Configuration) (t : list Event)
    (x : option (option Error)) :
  replay (addRaftPeer_serverLoop addr id cfg) t = Some x ->
  forall e, In e t ->
  exists s res, e = EvRemoveServer (raft.ID s) res /\ In s cfg
                /\ raft.Address s = addr /\ raft.ID s <> id.
Proof.
  revert t. induction cfg as [| s0 rest IH]; simpl; intros t H e He.
  - replay_step H. contradiction.
  - assert (Hrest : forall t',
              replay (addRaftPeer_serverLoop addr id rest) t' = Some x ->
              In e t' ->
              exists s res, e = EvRemoveServer (raft.ID s) res
                            /\ (s0 = s \/ In s rest)
                            /\ raft.Address s = addr /\ raft.ID s <> id).
    { intros t' H' He'. destruct (IH t' H' e He') as (s & res & E & Hin & Hs).
      exists s, res. auto. }
    destruct (String.eqb_spec (raft.Address s0) addr) as [Ea | Na];
      destruct (String.eqb_spec (raft.ID s0) id) as [Ei | Ni];
      simpl in H; eauto.
    + replay_step H. contradiction.
    + replay_step H. destruct He as [<- | He].
      * exists s0, x0. auto.
      * destruct x0; [replay_step H; contradiction | eauto].
Qed.

(** X2.  Whatever the configuration holds, [addRaftPeer] changes it only
    towards the target entry of the member: every [RemoveServer] it issues
    is for a server of the fetched configuration that holds the target
    address under another ID, and an [AddVoter] is for the target entry, is
    the last call, and gives the result. *)
Theorem addRaftPeer_changes_only_target (m : serf.Member)
    (parts : ServerParts.t) (tr : list Event) (r : option Error) :
  replay (addRaftPeer a m parts) tr = Some r ->
  (forall id res,
     In (EvRemoveServer id res) tr ->
     exists cfg s,
       In (EvGetConfiguration (inr cfg)) tr /\ In s cfg
       /\ raft.ID s = id /\ raft.Address s = targetAddr m parts
       /\ id <> ServerParts.ID parts)
  /\ (forall id addr res,
        In (EvAddVoter id addr res) tr ->
        id = ServerParts.ID parts /\ addr = targetAddr m parts /\ res = r
        /\ exists pre,
             tr = pre ++ [EvAddVoter id addr res]
             /\ filter isAddVoter pre = []).
Proof.
  intros H. apply addRaftPeer_inv in H.
  assert (Hfilter : forall cfg t x,
            replay (addRaftPeer_serverLoop (targetAddr m parts)
                      (ServerParts.ID parts) cfg) t = Some x ->
            filter isAddVoter t = []).
  { intros cfg t x Hl. apply filter_nil.
    intros e He.
    destruct (serverLoop_events _ _ _ _ _ Hl _ He) as (i & res & ->).
    reflexivity. }
  inversion H as [ ms0 other Hc | ms0 e Hc | ms0 cfg0 Hc G0
                 | ms0 cfg0 t r0 Hc G0 Hl | ms0 cfg0 t res Hc G0 Hl ];
    subst; unfold bothBootstrapLog, getConfigurationFailedLog,
             skipSelfJoinLog.
  - split; intros; simpl in *; intuition discriminate.
  - split; intros; simpl in *; intuition discriminate.
  - split; intros; simpl in *; intuition discriminate.
  - split.
    + intros id res [E | [E | Hin]]; try discriminate.
      destruct (serverLoop_removes_stale _ _ _ _ _ Hl _ Hin)
        as (s & res' & E & Hs & Ha & Hi).
      injection E as -> ->. exists cfg0, s. simpl. auto 10.
    + intros id addr res [E | [E | Hin]]; try discriminate.
      destruct (serverLoop_events _ _ _ _ _ Hl _ Hin) as (i & res' & E).
      discriminate E.
  - split.
    + intros id res0 [E | [E | Hin]]; try discriminate.
      apply in_app_or in Hin. destruct Hin as [Hin | [E | []]];
        [| discriminate].
      destruct (serverLoop_removes_stale _ _ _ _ _ Hl _ Hin)
        as (s & res' & E & Hs & Ha & Hi).
      injection E as -> ->. exists cfg0, s. simpl. auto 10.
    + intros id addr res0 [E | [E | Hin]]; try discriminate.
      apply in_app_or in Hin. destruct Hin as [Hin | [E | []]].
      * destruct (serverLoop_events _ _ _ _ _ Hl _ Hin) as (i & res' & E).
        discriminate E.
      * injection E as <- <- <-. repeat split.
        exists (EvMembers ms0 :: EvGetConfiguration (inr cfg0) :: t).
        split; [reflexivity |]. simpl. eauto.
Qed.

End ReconcilerMore.

Section ReconcilerErrors.

Context {ext : Externals}.
Variable a : Agent.

(** X3.  When the Raft library fails to give its configuration with the
    error [e], [RefreshMember] returns [e] itself, it has logged the
    failure together with the member, and it has issued no configuration
    change; this holds for a member that is alive as for one that has
    left. *)
Theorem RefreshMember_configuration_error (member : serf.Member)
    (tr : list Event) (r : option Error) (e : Error) :
  replay (RefreshMember a member) tr = Some r ->
  In (EvGetConfiguration (inl e)) tr ->
  r = Some e
  /\ filter isConfigChange tr = []
  /\ In (refreshMemberFailedLog member e) tr.
Proof.
  intros H Hin. apply RefreshMember_inv in H.
  destruct (toServerPart member) as [parts |];
    [| destruct H as [-> _]; contradiction].
  destruct H as (t & -> & H).
  assert (Htail : forall r0, ~ In (EvGetConfiguration (inl e))
                               (refreshMemberTail member r0)).
  { intros [e0 |]; simpl; unfold refreshMemberFailedLog;
      intuition discriminate. }
  apply in_app_or in Hin. destruct Hin as [Hin | Hin];
    [| now destruct (Htail r)].
  destruct (serf.Status member);
    try (destruct H as [-> _]; contradiction).
  - inversion H as [ ms0 other Hc | ms0 e0 Hc | ms0 cfg0 Hc G0
                   | ms0 cfg0 t0 r0 Hc G0 Hl | ms0 cfg0 t0 res Hc G0 Hl ];
      subst; simpl in Hin;
      unfold bothBootstrapLog, getConfigurationFailedLog,
        skipSelfJoinLog in Hin.
    + destruct Hin as [E | [E | []]]; discriminate.
    + destruct Hin as [E | [E | [E | []]]]; try discriminate.
      injection E as ->. repeat split. simpl. auto.
    + destruct Hin as [E | [E | [E | []]]]; discriminate.
    + destruct Hin as [E | [E | Hin]]; try discriminate.
      destruct (serverLoop_events _ _ _ _ _ Hl _ Hin) as (i & res & E).
      discriminate E.
    + destruct Hin as [E | [E | Hin]]; try discriminate.
      apply in_app_or in Hin. destruct Hin as [Hin | [E | []]].
      * destruct (serverLoop_events _ _ _ _ _ Hl _ Hin) as (i & res0 & E).
        discriminate E.
      * discriminate E.
  - inversion H as [ Hn | e0 Hn | cfg0 Hn Hid | cfg0 res Hn Hid ]; subst;
      simpl in Hin; unfold removingSelfLog in Hin.
    + destruct Hin as [E | []]; discriminate.
    + destruct Hin as [E | []]. injection E as ->.
      repeat split. simpl. auto.
    + destruct Hin as [E | []]; discriminate.
    + destruct Hin as [E | [E | []]]; discriminate.
Qed.

Lemma conflictsWith_true (m member : serf.Member) :
  conflictsWith m member = true <->
  serf.Name member <> serf.Name m
  /\ exists p, toServerPart member = Some p
               /\ ServerParts.Bootstrap p = true.
Proof.
  unfold conflictsWith. destruct (toServerPart member) as [p |].
  - rewrite andb_true_iff, negb_true_iff, String.eqb_neq. split.
    + intros [Hn Hb]. eauto.
    + intros (Hn & p' & [= <-] & Hb). auto.
  - split; [discriminate | intros (_ & p & E & _); discriminate].
Qed.

(** X4.  After reading the members, [addRaftPeer] goes on to fetch the
    configuration unless the member is in bootstrap mode and the members
    hold a server of another name that is in bootstrap mode as well.  The
    status of that other member plays no part: one that has failed or left
    but is still listed stops the reconciliation just the same; and a
    member that is not in bootstrap mode itself is never stopped. *)
Theorem addRaftPeer_fetches_unless_conflict (m : serf.Member)
    (parts : ServerParts.t) (ms : list serf.Member) (tr : list Event)
    (r : option Error) :
  replay (addRaftPeer a m parts) (EvMembers ms :: tr) = Some r ->
  (ServerParts.Bootstrap parts = true
   /\ exists other p,
        In other ms /\ serf.Name other <> serf.Name m
        /\ toServerPart other = Some p /\ ServerParts.Bootstrap p = true)
  <-> (forall res, ~ In (EvGetConfiguration res) tr).
Proof.
  intros H. apply addRaftPeer_inv in H.
  assert (Hconf : forall other,
            bootstrapConflict m parts ms = Some other ->
            ServerParts.Bootstrap parts = true
            /\ exists other p,
                 In other ms /\ serf.Name other <> serf.Name m
                 /\ toServerPart other = Some p
                 /\ ServerParts.Bootstrap p = true).
  { unfold bootstrapConflict. intros other Hc.
    destruct (ServerParts.Bootstrap parts); [| discriminate].
    split; [reflexivity |]. apply find_some in Hc. destruct Hc as [Hin Hc].
    apply conflictsWith_true in Hc. destruct Hc as (Hn & p & Hp & Hb).
    exists other, p. auto. }
  assert (Hnone : bootstrapConflict m parts ms = None ->
            ~ (ServerParts.Bootstrap parts = true
               /\ exists other p,
                    In other ms /\ serf.Name other <> serf.Name m
                    /\ toServerPart other = Some p
                    /\ ServerParts.Bootstrap p = true)).
  { unfold bootstrapConflict.
    intros Hc (Hb & other & p & Hin & Hn & Hp & Hbp). rewrite Hb in Hc.
    pose proof (find_none _ _ Hc other Hin) as Hf.
    assert (Ht : conflictsWith m other = true)
      by (apply conflictsWith_true; eauto).
    congruence. }
  inversion H as [ ms0 other Hc | ms0 e Hc | ms0 cfg0 Hc G0
                 | ms0 cfg0 t r0 Hc G0 Hl | ms0 cfg0 t res Hc G0 Hl ];
    subst.
  - split; [| intros _; eauto].
    intros _ res [E | []]. unfold bothBootstrapLog in E. discriminate.
  - split; [intros Hx; now destruct (Hnone Hc) |].
    intros Hno. destruct (Hno (inl e)). simpl. auto.
  - split; [intros Hx; now destruct (Hnone Hc) |].
    intros Hno. destruct (Hno (inr cfg0)). simpl. auto.
  - split; [intros Hx; now destruct (Hnone Hc) |].
    intros Hno. destruct (Hno (inr cfg0)). simpl. auto.
  - split; [intros Hx; now destruct (Hnone Hc) |].
    intros Hno. destruct (Hno (inr cfg0)). simpl. auto.
Qed.

(** *** The sweep, read backwards *)

Lemma Refresh_loop_inv (ms : list serf.Member) (t : list Event)
    (r : option Error) :
  replay (Refresh_loop a ms) t = Some r ->
  (r = None
   /\ exists trs,
        Forall2 (fun mi ti => replay (RefreshMember a mi) ti = Some None)
          ms trs
        /\ t = concat trs)
  \/ (exists ms1 m ms2 trs tm e,
        ms = ms1 ++ m :: ms2
        /\ Forall2 (fun mi ti => replay (RefreshMember a mi) ti = Some None)
             ms1 trs
        /\ replay (RefreshMember a m) tm = Some (Some e)
        /\ t = concat trs ++ tm
        /\ r = Some e).
Proof.
  revert t r. induction ms as [| m0 rest IH]; intros t r H.
  - simpl in H. replay_step H. left. split; [reflexivity |].
    exists []. split; [constructor | reflexivity].
  - cbn [Refresh_loop] in H. apply replay_bind_inv in H.
    destruct H as (t1 & t2 & r0 & -> & H1 & H).
    destruct r0 as [e |].
    + replay_step H. right. exists [], m0, rest, [], t1, e.
      rewrite app_nil_r. repeat split; auto.
    + destruct (IH t2 r H) as [(-> & trs & Hf & ->)
                            | (ms1 & m & ms2 & trs & tm & e
                               & -> & Hf & Hm & -> & ->)].
      * left. split; [reflexivity |]. exists (t1 :: trs).
        split; [now constructor | reflexivity].
      * right. exists (m0 :: ms1), m, ms2, (t1 :: trs), tm, e.
        split; [reflexivity |]. split; [now constructor |].
        split; [assumption |]. split; [| reflexivity].
        simpl. now rewrite app_assoc.
Qed.

(** X5.  Every run of [Refresh] starts by reading the members and ends
    with its timing metric; in between lie the runs of [RefreshMember] for
    the members, in their order.  The result is nil only if every member
    was reconciled with nil, and an error [e] only if it is the result of
    the first member that failed, the members before it having been
    reconciled with nil and the members after it not at all. *)
Theorem Refresh_sweeps_in_order (ms : list serf.Member) (tr : list Event)
    (r : option Error) :
  replay (Refresh a) (EvMembers ms :: tr) = Some r ->
  exists body,
    tr = body ++ [EvMeasureSince metricRefresh]
    /\ ((r = None
         /\ exists trs,
              Forall2 (fun mi ti =>
                         replay (RefreshMember a mi) ti = Some None) ms trs
              /\ body = concat trs)
        \/ (exists ms1 m ms2 trs tm e,
              ms = ms1 ++ m :: ms2
              /\ Forall2 (fun mi ti =>
                            replay (RefreshMember a mi) ti = Some None)
                   ms1 trs
              /\ replay (RefreshMember a m) tm = Some (Some e)
              /\ body = concat trs ++ tm
              /\ r = Some e)).
Proof.
  intros H. unfold Refresh in H. cbn [bind call] in H.
  erewrite replay_Vis_resp in H by reflexivity.
  apply replay_bind_inv in H. destruct H as (body & t2 & r0 & -> & Hl & H).
  cbn [bind call] in H. replay_step H. replay_step H.
  exists body. split; [reflexivity |]. now apply Refresh_loop_inv.
Qed.

(** X6.  A sweep over members none of which is a server (an empty
    membership among them) reads the members, emits its metric and returns
    nil: it asks nothing of the Raft library. *)
Theorem Refresh_without_servers (ms : list serf.Member) :
  (forall m, In m ms -> toServerPart m = None) ->
  replay (Refresh a) [EvMembers ms; EvMeasureSince metricRefresh]
  = Some None
  /\ (forall tr r,
        replay (Refresh a) (EvMembers ms :: tr) = Some r ->
        tr = [EvMeasureSince metricRefresh] /\ r = None).
Proof.
  intros Hno.
  assert (Hloop : replay (Refresh_loop a ms) [] = Some None).
  { induction ms as [| m0 rest IH]; [reflexivity |].
    cbn [Refresh_loop]. unfold RefreshMember at 1.
    rewrite (Hno m0 (or_introl eq_refl)). cbn [bind].
    apply IH. intros m Hm. apply Hno. now right. }
  assert (Hrun : forall tail,
            replay (Refresh a) (EvMembers ms :: tail)
            = replay (call (MeasureSince metricRefresh);; Ret None) tail).
  { intros tail. unfold Refresh. cbn [bind call]. replay_fwd.
    change tail with ([] ++ tail) at 1.
    erewrite replay_bind_app by exact Hloop. reflexivity. }
  split.
  - rewrite Hrun. cbn [bind call]. now replay_fwd.
  - intros tr r H. rewrite Hrun in H. cbn [bind call] in H.
    replay_step H. replay_step H. auto.
Qed.

End ReconcilerErrors.

(** ** [leaderLoop], over its whole run *)

Section LeaderLoopMore.

Context {ext : Externals}.
Variable a : Agent.

Lemma leaderLoop_quiet_until_barrier (fuel : nat) (l : Label)
    (tr : list Event) (res : bool) :
  l = REFRESH \/ l = WAIT false ->
  replay (leaderLoop_from a fuel l) tr = Some res ->
  forall e, In e (untilBarrierOk tr) -> isReconcileWork e = false.
Proof.
  revert l tr. induction fuel as [| fuel IH]; intros l tr Hl H e He.
  - destruct Hl as [-> | ->]; simpl in H; replay_step H; contradiction.
  - assert (Hb : replay (l' <- leaderLoop_block a l;;
                         leaderLoop_from a fuel l') tr = Some res)
      by (destruct Hl as [-> | ->]; exact H).
    apply replay_bind_inv in Hb.
    destruct Hb as (t1 & t2 & l' & -> & H1 & H2).
    apply leaderLoop_block_inv in H1.
    destruct Hl as [-> | ->].
    + inversion H1 as [ e0 | sweep e0 Hs | sweep stopped Hs | | | | | ];
        subst.
      * unfold barrierFailedLog in He. simpl in He.
        destruct He as [<- | [<- | [<- | He]]]; try reflexivity.
        exact (IH (WAIT false) t2 (or_intror eq_refl) H2 e He).
      * simpl in He. destruct He as [<- | []]. reflexivity.
      * simpl in He. destruct He as [<- | []]. reflexivity.
    + inversion H1 as [ | | | rc | rc | rc | m t r Hm | ]; subst.
      * assert (t2 = []) as -> by (destruct fuel; simpl in H2;
                                   now replay_step H2).
        simpl in He. destruct He as [<- | []]. reflexivity.
      * assert (t2 = []) as -> by (destruct fuel; simpl in H2;
                                   now replay_step H2).
        simpl in He. destruct He as [<- | []]. reflexivity.
      * simpl in He. destruct He as [<- | He]; [reflexivity |].
        exact (IH REFRESH t2 (or_introl eq_refl) H2 e He).
Qed.

(** X7.  In every run of [leaderLoop], however long, nothing is read
    from the membership and nothing is read from or changed in the Raft
    configuration before a barrier has succeeded: while barriers fail the
    loop only re-arms its timer, logs and waits. *)
Theorem leaderLoop_no_work_before_barrier (fuel : nat) (tr : list Event)
    (res : bool) :
  replay (leaderLoop a fuel) tr = Some res ->
  filter isReconcileWork (untilBarrierOk tr) = [].
Proof.
  intros H. apply filter_nil.
  exact (leaderLoop_quiet_until_barrier fuel REFRESH tr res
           (or_introl eq_refl) H).
Qed.

End LeaderLoopMore.

(** ** [monitorLeadership], its channels and its progress *)

Section MonitorMore.

Import Monitor.

Lemma monitorChannels_init : monitorChannels init.
Proof.
  unfold monitorChannels. simpl.
  split; [contradiction |]. split; [constructor |].
  split; discriminate.
Qed.

Lemma monitorChannels_step (s s' : State) (i : Input) :
  monitorChannels s -> step s i = Some s' -> monitorChannels s'.
Proof.
  unfold monitorChannels, step.
  intros (Hlt & Hnd & Hch & Hret) Hstep.
  destruct i as [[|] | | | ch0 |].
  - (* true received *)
    destruct (pc s) eqn:Hpc; try discriminate.
    destruct (weAreLeaderCh s) as [ch |] eqn:Hw;
      injection Hstep as <-; simpl.
    + destruct (Hch ch eq_refl) as [Hm Hno].
      split; [assumption |]. split; [assumption |].
      split; [| discriminate].
      intros ch1 E. injection E as <-. split; [assumption |].
      intros _. apply Hno. discriminate.
    + split; [intros c Hc; specialize (Hlt c Hc); lia |].
      split; [assumption |]. split; [| discriminate].
      intros ch1 E. injection E as <-. split; [lia |].
      intros _ Hin. specialize (Hlt _ Hin). lia.
  - (* false received *)
    destruct (pc s) eqn:Hpc; try discriminate.
    destruct (weAreLeaderCh s) as [ch |] eqn:Hw;
      injection Hstep as <-; simpl.
    + destruct (Hch ch eq_refl) as [Hm Hno].
      assert (Hfresh : ~ In ch (closed s)) by (apply Hno; discriminate).
      split; [intros c [<- | Hc]; auto |].
      split; [now constructor |]. split; [| discriminate].
      intros ch1 E. injection E as <-. split; [assumption |].
      intros Hx. now destruct Hx.
    + split; [assumption |]. split; [assumption |].
      split; discriminate.
  - (* shutdown received *)
    destruct (pc s) eqn:Hpc; try discriminate.
    destruct (shutdown s) eqn:Hs; [| discriminate].
    injection Hstep as <-; simpl.
    split; [assumption |]. split; [assumption |].
    split; [| reflexivity].
    intros ch Hw. destruct (Hch ch Hw) as [Hm Hno].
    split; [assumption |]. intros _. apply Hno. discriminate.
  - (* the shutdown channel is closed *)
    destruct (shutdown s); [discriminate |].
    injection Hstep as <-; simpl.
    split; [assumption |]. split; [assumption |].
    split; [assumption | reflexivity].
  - (* a loop returns *)
    destruct (mem ch0 (loops s) && (mem ch0 (closed s) || shutdown s));
      [| discriminate].
    injection Hstep as <-; simpl.
    split; [assumption |]. split; [assumption |].
    split; assumption.
  - (* the wait ends *)
    destruct (pc s) eqn:Hpc; try discriminate.
    destruct (loops s); [| discriminate].
    injection Hstep as <-; simpl.
    split; [assumption |]. split; [assumption |].
    split; discriminate.
Qed.

Lemma monitorChannels_run (inputs : list Input) (s s' : State) :
  monitorChannels s -> run s inputs = Some s' -> monitorChannels s'.
Proof.
  revert s. induction inputs as [| i rest IH]; simpl; intros s Hinv H.
  - now injection H as <-.
  - destruct (step s i) as [s1 |] eqn:Hs; [| discriminate].
    eauto using monitorChannels_step.
Qed.

(** X8.  The monitor never closes a closed channel (which would panic):
    in every state it reaches, no channel has been closed twice, and while
    it stands at its select the stop channel it holds is still open, so
    the [close] it performs on receiving false is the first of that
    channel.  Every loop is started with a channel that was never used
    before. *)
Theorem monitorLeadership_never_closes_twice (inputs : list Input)
    (s : State) :
  run init inputs = Some s ->
  NoDup (closed s)
  /\ (pc s = Selecting ->
      forall ch, weAreLeaderCh s = Some ch -> ~ In ch (closed s))
  /\ (pc s = Selecting -> weAreLeaderCh s = None ->
      exists s',
        step s (RecvLeader true) = Some s'
        /\ loops s' = made s :: loops s
        /\ ~ In (made s) (closed s)
        /\ forall ch, In ch (closed s) \/ weAreLeaderCh s = Some ch ->
                      ch <> made s).
Proof.
  intros Hrun.
  pose proof (monitorChannels_run inputs init s monitorChannels_init Hrun)
    as (Hlt & Hnd & Hch & Hret).
  split; [assumption |]. split.
  - intros Hpc ch Hw. destruct (Hch ch Hw) as [_ Hno].
    apply Hno. rewrite Hpc. discriminate.
  - intros Hpc Hw. unfold step. rewrite Hpc, Hw.
    eexists. split; [reflexivity |]. simpl. split; [reflexivity |].
    split.
    + intros Hin. specialize (Hlt _ Hin). lia.
    + intros ch [Hin | Hx]; [| congruence].
      specialize (Hlt _ Hin). lia.
Qed.

Lemma mem_In (ch : Chan) (l : list Chan) : mem ch l = true <-> In ch l.
Proof.
  unfold mem. rewrite existsb_exists. split.
  - intros (c & Hin & E). apply Nat.eqb_eq in E. now subst.
  - intros Hin. exists ch. split; [assumption | apply Nat.eqb_refl].
Qed.

(** X9.  The wait of the monitor can always end: in every reachable
    state in which the monitor stands blocked in [leaderLoop.Wait()], the
    only loop that may still run has its stop channel closed, so it is able
    to return, and then the monitor comes back to its select with
    [weAreLeaderCh] nil and no loop running. *)
Theorem monitorLeadership_wait_can_end (inputs : list Input) (s : State) :
  run init inputs = Some s ->
  pc s = Waiting ->
  exists more s',
    length more <= 2
    /\ run s more = Some s'
    /\ pc s' = Selecting /\ weAreLeaderCh s' = None /\ loops s' = [].
Proof.
  intros Hrun Hpc.
  pose proof (invariant_run inputs init s invariant_init Hrun) as Hinv.
  unfold invariant in Hinv. rewrite Hpc in Hinv.
  destruct (weAreLeaderCh s) as [ch |] eqn:Hw;
    [| destruct Hinv as [_ Hx]; now destruct Hx].
  destruct Hinv as [[Hl | Hl] [Hcl _]].
  - exists [WaitReturns]. eexists. split; [simpl; lia |].
    simpl. unfold step. rewrite Hpc, Hl. split; [reflexivity |].
    simpl. auto.
  - exists [LoopReturns ch; WaitReturns]. eexists.
    split; [simpl; lia |].
    assert (Hm : mem ch (loops s) && (mem ch (closed s) || shutdown s)
                 = true).
    { rewrite Hl. apply andb_true_iff. split.
      - apply mem_In. simpl. auto.
      - apply orb_true_iff. left. now apply mem_In. }
    simpl. rewrite Hm. simpl. rewrite Hpc, Hl. unfold remove. simpl.
    rewrite Nat.eqb_refl. simpl. split; [reflexivity |]. simpl. auto.
Qed.

(** X10.  The monitor returns only once the shutdown channel is closed.
    After its return it takes no further step: nothing is received, no
    loop is started and no channel is closed; a loop that is still running
    then is able to return, since the shutdown channel is closed. *)
Theorem monitorLeadership_after_return (inputs : list Input) (s : State) :
  run init inputs = Some s ->
  pc s = Returned ->
  shutdown s = true
  /\ (forall i s',
        step s i = Some s' ->
        (exists ch, i = LoopReturns ch)
        /\ pc s' = Returned /\ weAreLeaderCh s' = weAreLeaderCh s
        /\ closed s' = closed s /\ made s' = made s /\ logs s' = logs s
        /\ length (loops s') <= length (loops s))
  /\ (forall ch, In ch (loops s) ->
                 exists s', step s (LoopReturns ch) = Some s'
                            /\ ~ In ch (loops s')).
Proof.
  intros Hrun Hpc.
  pose proof (monitorChannels_run inputs init s monitorChannels_init Hrun)
    as (_ & _ & _ & Hret).
  specialize (Hret Hpc). split; [assumption |]. split.
  - intros i s' Hstep. unfold step in Hstep. rewrite Hpc, Hret in Hstep.
    destruct i as [[|] | | | ch0 |]; try discriminate.
    destruct (mem ch0 (loops s) && (mem ch0 (closed s) || true));
      [| discriminate].
    injection Hstep as <-. simpl. repeat split; eauto.
    unfold remove. apply filter_length_le.
  - intros ch Hin. unfold step. rewrite Hret.
    assert (Hm : mem ch (loops s) = true) by now apply mem_In.
    rewrite Hm, orb_true_r. simpl. eexists. split; [reflexivity |].
    simpl. unfold remove. intros Hx. apply filter_In in Hx.
    destruct Hx as [_ Hx]. now rewrite Nat.eqb_refl in Hx.
Qed.

End MonitorMore.

(** ** [setupRaft], path by path *)

Section SetupRaftMore.

Lemma setupRaft_stores_path_inv (a : Agent) (t : list Event)
    (st : Agent * (Error + Stores)) :
  replay (setupRaft_stores a) t = Some st ->
  setupRaft_stores_path a t st.
Proof.
  unfold setupRaft_stores. intros H.
  destruct (Config.DevMode (config a)) eqn:Hdev.
  { replay_step H. now constructor. }
  cbn [bind call] in H. replay_step H. destruct x as [e0 |].
  { replay_step H. now constructor. }
  apply replay_bind_inv in H. destruct H as (tb & t2 & op & -> & Ho & H).
  assert (Hop : match op with
                | inl e => raftStore a = None
                           /\ exists e0, e = ErrNewRaftStore e0
                              /\ tb = [EvNewBoltStore (raftDbPath a) (Some e0)]
                | inr s => storeOpened a tb s
                end).
  { destruct (raftStore a) as [s0 |] eqn:Hrs.
    - replay_step Ho. now constructor.
    - cbn [bind call] in Ho. replay_step Ho.
      destruct x as [e0 |]; replay_step Ho.
      + split; [reflexivity |]. eauto.
      + now constructor. }
  destruct op as [e0 | s0].
  { destruct Hop as (Hrs & e1 & -> & ->). replay_step H.
    now constructor. }
  cbn [bind call] in H. replay_step H.
  destruct x as [e0 |]; cbn [bind call] in H.
  - replay_step H. replay_step H. now apply stores_cache_failed.
  - replay_step H. now apply stores_durable.
Qed.

Lemma bootstrapExpected_config (a : Agent) :
  Config.NodeName (config (bootstrapExpected a))
  = Config.NodeName (config a)
  /\ Config.DevMode (config (bootstrapExpected a))
     = Config.DevMode (config a)
  /\ Config.DataDir (config (bootstrapExpected a))
     = Config.DataDir (config a)
  /\ Config.BootstrapExpect (config (bootstrapExpected a))
     = Config.BootstrapExpect (config a)
  /\ Config.Bootstrap (config (bootstrapExpected a))
     = (Config.Bootstrap (config a)
        || (Config.BootstrapExpect (config a) =? 1)%Z)
  /\ Config.Bootstrap (config (bootstrapExpected a))
     || Config.DevMode (config (bootstrapExpected a))
     = wantsBootstrap a.
Proof.
  unfold bootstrapExpected, wantsBootstrap.
  destruct (Config.BootstrapExpect (config a) =? 1)%Z; simpl;
    rewrite ?orb_true_r, ?orb_false_r; auto 10.
Qed.

Lemma setupRaft_stores_path_config (a : Agent) (t : list Event)
    (a2 : Agent) (res : Error + Stores) :
  setupRaft_stores_path a t (a2, res) ->
  config a2 = config a /\ raftUp a2 = raftUp a
  /\ refreshCh a2 = refreshCh a /\ loggerLevel a2 = loggerLevel a.
Proof. inversion 1; subst; simpl; auto. Qed.

Lemma setupRaft_path_inv (a : Agent) (tr : list Event)
    (res : Agent * option Error) :
  replay (setupRaft a) tr = Some res ->
  setupRaft_path a tr res.
Proof.
  unfold setupRaft. fold (bootstrapExpected a). intros H.
  cbn [bind call] in H. replay_step H.
  apply replay_bind_inv in H. destruct H as (t1 & t2 & st & -> & Hst & H).
  apply setupRaft_stores_path_inv in Hst.
  destruct st as [a2 [e | stores]]; cbn [fst snd] in H.
  { replay_step H. rewrite app_nil_r. now apply setup_stores_failed. }
  destruct (setupRaft_stores_path_config _ _ _ _ Hst) as (Hcfg & _).
  destruct (bootstrapExpected_config a) as (Hn & _ & _ & _ & _ & Hw).
  apply replay_bind_inv in H. destruct H as (t3 & t4 & boot & -> & Hb & H).
  assert (Hend : boot = None -> raftStarted a2 stores t4 res
                                /\ True).
  { intros ->. cbn [bind call] in H. replay_step H.
    destruct x0 as [e |]; replay_step H; split; auto;
      rewrite <- Hcfg; constructor. }
  apply setupRaft_bootstrap_inv in Hb. rewrite Hcfg, Hw, Hn in Hb.
  destruct Hb as [(Hwants & -> & ->) | (Hwants & Hb)].
  { destruct (Hend eq_refl) as [Hs _]. simpl.
    now apply setup_no_bootstrap with (a2 := a2) (st := stores). }
  destruct Hb as [(e & -> & ->) | [(-> & ->) | (addr & ->)]].
  - replay_step H. rewrite app_nil_r.
    now apply setup_state_unknown.
  - destruct (Hend eq_refl) as [Hs _].
    now apply setup_has_state with (a2 := a2).
  - destruct boot as [e |].
    + replay_step H. rewrite app_nil_r.
      now apply setup_bootstrap_failed.
    + destruct (Hend eq_refl) as [Hs _].
      now apply setup_bootstrapped with (a2 := a2).
Qed.

End SetupRaftMore.

Section SetupRaftProperties.

Ltac in_inv H :=
  simpl in H;
  match type of H with
  | In _ (_ ++ _) => apply in_app_or in H; destruct H as [H | H]; in_inv H
  | _ \/ _ => destruct H as [H | H]; in_inv H
  | False => destruct H
  | _ => idtac
  end.

Lemma storeOpened_events (a : Agent) (tb : list Event) (s : Store) :
  storeOpened a tb s ->
  s = match raftStore a with
      | Some s0 => s0
      | None => BoltStore (raftDbPath a)
      end
  /\ forall e, In e tb ->
       isStoreEvent e = true /\ storeFailure e = None
       /\ isCloseStore e = false.
Proof.
  inversion 1 as [Hrs | s0 Hrs]; subst; rewrite Hrs; split; auto.
  - intros e He. in_inv He. subst. auto.
  - intros e He. in_inv He.
Qed.

Lemma stores_path_events (a : Agent) (t : list Event) (a2 : Agent)
    (res : Error + Stores) :
  setupRaft_stores_path a t (a2, res) ->
  forall e, In e t -> isStoreEvent e = true.
Proof.
  inversion 1 as [ Hd | e0 Hd | e0 Hd Hrs | tb s e0 Hd Ho | tb s Hd Ho ];
    subst; intros e He; in_inv He; subst; try reflexivity;
    now apply (storeOpened_events _ _ _ Ho).
Qed.

Lemma stores_path_ok (a : Agent) (t : list Event) (a2 : Agent)
    (st : Stores) :
  setupRaft_stores_path a t (a2, inr st) ->
  st = chosenStores a
  /\ (forall e, In e t -> storeFailure e = None /\ isCloseStore e = false).
Proof.
  unfold chosenStores.
  inversion 1 as [ Hd | | | | tb s Hd Ho ]; subst; rewrite Hd.
  - split; [reflexivity | contradiction].
  - destruct (storeOpened_events _ _ _ Ho) as [-> Hev]. split; auto.
    intros e He. in_inv He; subst; auto. now apply Hev.
Qed.

Lemma stores_path_failed (a : Agent) (t : list Event) (a2 : Agent)
    (err : Error) :
  setupRaft_stores_path a t (a2, inl err) ->
  Config.DevMode (config a) = false
  /\ exists pre e post,
       t = pre ++ e :: post /\ storeFailure e = Some err
       /\ (forall e', In e' pre ->
                      storeFailure e' = None /\ isCloseStore e' = false)
       /\ match e with
          | EvNewLogCache _ s _ => post = [EvCloseStore s]
          | _ => post = []
          end.
Proof.
  inversion 1 as [ | e0 Hd | e0 Hd Hrs | tb s e0 Hd Ho | ]; subst;
    (split; [assumption |]).
  - exists []. eexists. exists [].
    split; [reflexivity |]. split; [reflexivity |].
    split; [contradiction | reflexivity].
  - eexists [_]. eexists. exists [].
    split; [reflexivity |]. split; [reflexivity |]. split; [| reflexivity].
    intros e' He. in_inv He. subst. auto.
  - eexists (_ :: tb). eexists. eexists.
    split; [reflexivity |]. split; [reflexivity |]. split; [| reflexivity].
    intros e' He. in_inv He; subst; auto.
    now apply (storeOpened_events _ _ _ Ho).
Qed.

Lemma raftStarted_inv (a2 : Agent) (st : Stores) (tn : list Event)
    (res : Agent * option Error) :
  raftStarted a2 st tn res ->
  exists r,
    tn = [EvNewRaft (Config.NodeName (config a2)) (logStore st)
            (stableStore st) (snapshots st) r]
    /\ config (fst res) = config a2
    /\ match r with
       | Some e => res = (a2, Some (ErrNewRaft e))
       | None => res = (setRaftUp a2, None)
       end.
Proof. inversion 1; subst; eexists; split; eauto. Qed.

Lemma chosenStores_expected (a : Agent) :
  chosenStores (bootstrapExpected a) = chosenStores a.
Proof.
  unfold chosenStores, bootstrapExpected.
  destruct (Config.BootstrapExpect (config a) =? 1)%Z; reflexivity.
Qed.

(** X11.  When the opening of a store fails, [setupRaft] returns that
    error (wrapped for the snapshot store and for the Bolt store, unwrapped
    for the log cache) and goes no further: the Raft library is not asked
    for the state of the stores, nothing is bootstrapped, Raft is not
    started, and [a.raft] stays as it was. *)
Theorem setupRaft_store_failure (a a' : Agent) (tr : list Event)
    (err : option Error) (e : Event) (x : Error) :
  replay (setupRaft a) tr = Some (a', err) ->
  In e tr ->
  storeFailure e = Some x ->
  err = Some x
  /\ filter isRaftStart tr = []
  /\ raftUp a' = raftUp a.
Proof.
  intros H He Hx. apply setupRaft_path_inv in H.
  assert (Hok : forall t a2 st,
            setupRaft_stores_path (bootstrapExpected a) t (a2, inr st) ->
            In e t -> False).
  { intros t a2 st Hp Hin.
    destruct (stores_path_ok _ _ _ _ Hp) as [_ Hev].
    destruct (Hev e Hin). congruence. }
  inversion H as [ t a2 e0 Hp | t a2 st tn res Hp Hw Hs
                 | t a2 st e0 Hp Hw | t a2 st tn res Hp Hw Hs
                 | t a2 st addr e0 Hp Hw | t a2 st addr tn res Hp Hw Hs ];
    subst;
    try (apply raftStarted_inv in Hs; destruct Hs as (r & -> & _ & _));
    try solve [ exfalso; in_inv He; subst; try discriminate;
                eapply Hok; eauto ].
  destruct (stores_path_failed _ _ _ _ Hp)
    as (Hd & pre & e1 & post & -> & Hf & Hpre & Hpost).
  assert (He1 : e = e1).
  { in_inv He; subst; try discriminate.
    - destruct (Hpre e He). congruence.
    - reflexivity.
    - destruct e1; try discriminate; subst; in_inv He; subst;
        discriminate. }
  subst e1. split; [congruence |]. split.
  - apply filter_nil. intros e' [<- | Hin]; [reflexivity |].
    pose proof (stores_path_events _ _ _ _ Hp e' Hin) as Hse.
    destruct e'; try reflexivity; discriminate Hse.
  - destruct (setupRaft_stores_path_config _ _ _ _ Hp) as (_ & -> & _).
    unfold bootstrapExpected.
    destruct (Config.BootstrapExpect (config a) =? 1)%Z; reflexivity.
Qed.

End SetupRaftProperties.

Section SetupRaftOutcomes.

Ltac in_inv H :=
  simpl in H;
  match type of H with
  | In _ (_ ++ _) => apply in_app_or in H; destruct H as [H | H]; in_inv H
  | _ \/ _ => destruct H as [H | H]; in_inv H
  | False => destruct H
  | _ => idtac
  end.

(** An event of the store set-up is none of the later events. *)
Ltac store_event Hp H :=
  let Hse := fresh "Hse" in
  pose proof (stores_path_events _ _ _ _ Hp _ H) as Hse;
  discriminate Hse.

(** The paths of [setupRaft], with the outcome of [NewRaft] split. *)
Ltac setup_paths H :=
  apply setupRaft_path_inv in H;
  inversion H as [ t a2 e0 Hp | t a2 st tn res Hp Hw Hs
                 | t a2 st e0 Hp Hw | t a2 st tn res Hp Hw Hs
                 | t a2 st addr e0 Hp Hw | t a2 st addr tn res Hp Hw Hs ];
  subst;
  try (apply raftStarted_inv in Hs;
       destruct Hs as ([e1 |] & -> & _ & Hres);
       injection Hres as -> ->).

Ltac in_tail := right; apply in_or_app; right; simpl; eauto 8.

(** X12.  [setupRaft] sets [a.raft] exactly when it returns nil, and it
    returns nil exactly when [raft.NewRaft] has succeeded: whatever fails
    before (a store, the look for existing state, the bootstrap) or in
    [NewRaft] itself leaves the agent without Raft. *)
Theorem setupRaft_raft_set_iff_nil (a a' : Agent) (tr : list Event)
    (err : option Error) :
  replay (setupRaft a) tr = Some (a', err) ->
  raftUp a = false ->
  (raftUp a' = true <-> err = None)
  /\ (err = None <->
      exists id l s n, In (EvNewRaft id l s n None) tr).
Proof.
  intros H Hup.
  assert (Hup1 : raftUp (bootstrapExpected a) = false).
  { unfold bootstrapExpected.
    destruct (Config.BootstrapExpect (config a) =? 1)%Z; exact Hup. }
  setup_paths H;
    destruct (setupRaft_stores_path_config _ _ _ _ Hp) as (_ & Hu2 & _);
    rewrite Hup1 in Hu2.
  all: split; [split; intros; simpl in *; congruence |].
  all: split; [intros Hnone | intros (id & l & s & n & Hin)].
  all: try discriminate Hnone; try reflexivity.
  all: try (exfalso; in_inv Hin; try discriminate; store_event Hp Hin).
  all: do 4 eexists; in_tail.
Qed.

(** X13.  The one store that [setupRaft] ever closes is the store behind
    the log cache, and it closes it exactly when the creation of the cache
    has failed.  A failure that comes later (existing state unreadable,
    bootstrap refused, [NewRaft] failed) leaves the stores open. *)
Theorem setupRaft_closes_store_iff_cache_failed (a a' : Agent)
    (tr : list Event) (err : option Error) (s : Store) :
  replay (setupRaft a) tr = Some (a', err) ->
  In (EvCloseStore s) tr <->
  exists n x, In (EvNewLogCache n s (Some x)) tr.
Proof.
  intros H.
  assert (Hok : forall t a2 st,
            setupRaft_stores_path (bootstrapExpected a) t (a2, inr st) ->
            (In (EvCloseStore s) t -> False)
            /\ forall n x, In (EvNewLogCache n s (Some x)) t -> False).
  { intros t a2 st Hp. destruct (stores_path_ok _ _ _ _ Hp) as [_ Hev].
    split.
    - intros Hin. destruct (Hev _ Hin). discriminate.
    - intros n x Hin. destruct (Hev _ Hin). discriminate. }
  setup_paths H.
  2-9: destruct (Hok _ _ _ Hp) as [Hc Hn];
       (split;
        [ intros Hin; exfalso; in_inv Hin; try discriminate; auto
        | intros (n & x & Hin); exfalso; in_inv Hin; try discriminate;
          eauto ]).
  destruct (stores_path_failed _ _ _ _ Hp)
    as (Hd & pre & e1 & post & -> & Hf & Hpre & Hpost).
  split.
  - intros Hin. destruct Hin as [Hin | Hin]; [discriminate |].
    apply in_app_or in Hin. destruct Hin as [Hin | [Hin | Hin]].
    + destruct (Hpre _ Hin). discriminate.
    + subst e1. discriminate.
    + destruct e1; subst; try contradiction.
      destruct Hin as [Hin | []]. injection Hin as <-.
      destruct err as [x |]; [| discriminate].
      exists capacity, x. right. apply in_or_app. right. simpl. auto.
  - intros (n & x & Hin). destruct Hin as [Hin | Hin]; [discriminate |].
    apply in_app_or in Hin. destruct Hin as [Hin | [Hin | Hin]].
    + destruct (Hpre _ Hin). discriminate.
    + subst e1. simpl in Hpost. subst post.
      right. apply in_or_app. right. simpl. auto.
    + destruct e1; subst; try contradiction.
      destruct Hin as [Hin | []]. discriminate.
Qed.

(** X14.  A node restarted on stores that hold state is never
    bootstrapped again, whatever its flags: when [HasExistingState]
    answers true, no [BootstrapCluster] is issued, and [setupRaft] goes
    straight on to start Raft on those same stores. *)
Theorem setupRaft_existing_state_no_bootstrap (a a' : Agent)
    (tr : list Event) (err : option Error) (l s n : Store) :
  replay (setupRaft a) tr = Some (a', err) ->
  In (EvHasExistingState l s n (inr true)) tr ->
  filter isBootstrapCluster tr = []
  /\ exists r,
       In (EvNewRaft (Config.NodeName (config a)) l s n r) tr
       /\ (r = None <-> err = None).
Proof.
  intros H Hin.
  destruct (bootstrapExpected_config a) as (Hn & _).
  setup_paths H;
    destruct (setupRaft_stores_path_config _ _ _ _ Hp) as (Hc2 & _);
    try solve [ exfalso; in_inv Hin; try discriminate; store_event Hp Hin ].
  all: in_inv Hin; try discriminate; try store_event Hp Hin.
  all: injection Hin as <- <- <-.
  all: split;
    [ apply filter_nil; intros e He; in_inv He; subst; try reflexivity;
      pose proof (stores_path_events _ _ _ _ Hp _ He) as Hse;
      destruct e; try reflexivity; discriminate Hse
    | eexists; rewrite <- Hn, <- Hc2; split; [in_tail |];
      split; congruence ].
Qed.

Lemma setupRaft_config_expected (a a' : Agent) (tr : list Event)
    (err : option Error) :
  replay (setupRaft a) tr = Some (a', err) ->
  config a' = config (bootstrapExpected a).
Proof.
  intros H.
  setup_paths H;
    destruct (setupRaft_stores_path_config _ _ _ _ Hp) as (Hc2 & _);
    simpl; congruence.
Qed.

(** X15.  Whatever its outcome, [setupRaft] leaves the configuration of
    the agent as it was, but for [Bootstrap], which it turns on when
    [BootstrapExpect] is 1: dev mode does not turn it on, and a failure
    does not turn it back off. *)
Theorem setupRaft_config_after (a a' : Agent) (tr : list Event)
    (err : option Error) :
  replay (setupRaft a) tr = Some (a', err) ->
  Config.Bootstrap (config a')
  = (Config.Bootstrap (config a)
     || (Config.BootstrapExpect (config a) =? 1)%Z)
  /\ Config.NodeName (config a') = Config.NodeName (config a)
  /\ Config.BootstrapExpect (config a') = Config.BootstrapExpect (config a)
  /\ Config.DevMode (config a') = Config.DevMode (config a)
  /\ Config.DataDir (config a') = Config.DataDir (config a).
Proof.
  intros H.
  destruct (bootstrapExpected_config a) as (Hn & Hd & Hdir & He & Hb & _).
  rewrite (setupRaft_config_expected a a' tr err H). auto.
Qed.

Lemma stores_path_bolt (a : Agent) (t : list Event) (a2 : Agent)
    (res : Error + Stores) (s0 : Store) (path : list string)
    (r : option Error) :
  setupRaft_stores_path a t (a2, res) ->
  raftStore a = Some s0 ->
  ~ In (EvNewBoltStore path r) t.
Proof.
  intros Hp Hs0 Hin.
  inversion Hp as [ Hdev | e0 Hdev | e0 Hdev Hno | tb s e0 Hdev Ho
                  | tb s Hdev Ho ]; subst;
    try (inversion Ho; subst); in_inv Hin; try discriminate; congruence.
Qed.

(** X16.  The look for existing state, the bootstrap and the start of
    Raft all work on the same three stores, and these are: in dev mode
    the in-memory store and the discarding snapshot store, nothing being
    opened on disk; otherwise the store found in [a.raftStore] if there is
    one (no Bolt store is opened then), else the Bolt store under the data
    directory, with the log cache of 512 entries in front of it and the
    file snapshot store that keeps three snapshots. *)
Theorem setupRaft_stores_used (a a' : Agent) (tr : list Event)
    (err : option Error) :
  replay (setupRaft a) tr = Some (a', err) ->
  (forall e st, In e tr -> eventStores e = Some st -> st = chosenStores a)
  /\ (forall s0 path r,
        raftStore a = Some s0 -> ~ In (EvNewBoltStore path r) tr)
  /\ (Config.DevMode (config a) = true -> filter isStoreEvent tr = []).
Proof.
  intros H.
  destruct (bootstrapExpected_config a) as (_ & Hd & _).
  assert (Hrs : raftStore (bootstrapExpected a) = raftStore a).
  { unfold bootstrapExpected.
    destruct (Config.BootstrapExpect (config a) =? 1)%Z; reflexivity. }
  assert (Hnone : forall t a2 res e st,
            setupRaft_stores_path (bootstrapExpected a) t (a2, res) ->
            In e t -> eventStores e = Some st -> False).
  { intros t a2 res e st Hp He Hes.
    pose proof (stores_path_events _ _ _ _ Hp e He) as Hse.
    destruct e; discriminate. }
  assert (Hdev : forall t a2 res,
            setupRaft_stores_path (bootstrapExpected a) t (a2, res) ->
            Config.DevMode (config a) = true -> t = []).
  { intros t a2 res Hp Hdm. rewrite <- Hd in Hdm.
    inversion Hp; subst; try reflexivity; congruence. }
  assert (Hch : forall t a2 st,
            setupRaft_stores_path (bootstrapExpected a) t (a2, inr st) ->
            {| logStore := logStore st; stableStore := stableStore st;
               snapshots := snapshots st |} = chosenStores a).
  { intros t a2 st Hp. destruct (stores_path_ok _ _ _ _ Hp) as [-> _].
    rewrite chosenStores_expected. now destruct (chosenStores a). }
  setup_paths H.
  all: try pose proof (Hch _ _ _ Hp) as Hsame.
  all: split; [| split].
  all: try (intros e st' He Hes; in_inv He; subst; try discriminate;
            try (now destruct (Hnone _ _ _ _ _ Hp He Hes));
            simpl in Hes; injection Hes as <-; exact Hsame).
  all: try (intros s0 path r0 Hs0 Hin; rewrite <- Hrs in Hs0;
            in_inv Hin; try discriminate;
            now destruct (stores_path_bolt _ _ _ _ _ _ _ Hp Hs0 Hin)).
  all: intros Hdm; rewrite (Hdev _ _ _ Hp Hdm); reflexivity.
Qed.

(** The trace of [setupRaft]: the transport, the opening of the stores,
    and a tail that the flags and the answers decide. *)
Lemma setupRaft_shape (a a' : Agent) (tr : list Event)
    (err : option Error) :
  replay (setupRaft a) tr = Some (a', err) ->
  exists t tail,
    tr = EvNewNetworkTransport 3 raftTimeout :: t ++ tail
    /\ (forall e, In e t -> isStoreEvent e = true)
    /\ ((tail = [] /\ exists e x, In e t /\ storeFailure e = Some x)
        \/ ((forall e, In e t -> storeFailure e = None)
            /\ exists l s n,
                 (wantsBootstrap a = false
                  /\ exists id r, tail = [EvNewRaft id l s n r])
                 \/ (wantsBootstrap a = true
                     /\ ((exists e,
                            tail = [EvHasExistingState l s n (inl e)])
                         \/ (exists id r,
                               tail = [EvHasExistingState l s n (inr true);
                                       EvNewRaft id l s n r])
                         \/ (exists addr r tn,
                               tail
                               = EvHasExistingState l s n (inr false)
                                   :: EvTransportLocalAddr addr
                                   :: EvBootstrapCluster
                                        (Config.NodeName (config a)) l s n
                                        (bootstrapConfiguration
                                           (Config.NodeName (config a))
                                           addr) r
                                   :: tn
                               /\ (tn = []
                                   \/ exists id r',
                                        tn = [EvNewRaft id l s n r'])))))).
Proof.
  intros H.
  setup_paths H; exists t; eexists;
    (split; [first [ reflexivity | f_equal; symmetry; apply app_nil_r ] |]);
    (split; [exact (stores_path_events _ _ _ _ Hp) |]).
  1: { left. split; [reflexivity |].
       destruct (stores_path_failed _ _ _ _ Hp)
         as (_ & pre & e1 & post & -> & Hf & _).
       exists e1, e0. split; [| exact Hf].
       apply in_or_app. right. now left. }
  all: right; destruct (stores_path_ok _ _ _ _ Hp) as [_ Hev];
    (split; [intros e He; now destruct (Hev e He) |]);
    exists (logStore st), (stableStore st), (snapshots st).
  1-2: left; split; [assumption | eauto].
  all: right; split; [assumption |].
  - left. eauto.
  - right. left. eauto.
  - right. left. eauto.
  - right. right. exists addr, (Some e0), []. auto.
  - right. right. eexists addr, None, _. split; [reflexivity |]. eauto.
  - right. right. eexists addr, None, _. split; [reflexivity |]. eauto.
Qed.

Lemma storeEvent_not_state (e : Event) :
  isStoreEvent e = true ->
  isBootstrapCluster e = false
  /\ (forall l s n r, e <> EvHasExistingState l s n r)
  /\ (forall id l s n cfg r, e <> EvBootstrapCluster id l s n cfg r).
Proof. destruct e; try discriminate; repeat split; discriminate. Qed.



End SetupRaftOutcomes.

(** ** [Servers], [leaderMember] and [Stop] *)

Section AgentQueriesFacts.

Context {ext : Externals}.

Lemma Servers_loop_In (ms : list serf.Member) (p : ServerParts.t) :
  In p (Servers_loop ms) <->
  exists m, In m ms /\ serf.Status m = serf.StatusAlive
            /\ toServerPart m = Some p.
Proof.
  induction ms as [| m0 rest IH]; simpl.
  - split; [contradiction | intros (m & [] & _)].
  - destruct (toServerPart m0) as [p0 |] eqn:Hp0.
    + destruct (serf.Status m0) eqn:Hs0; simpl; rewrite ?IH; split;
        try (intros (m & Hin & Hs & Hp); exists m; now auto);
        try (intros (m & [<- | Hin] & Hs & Hp); [congruence | eauto]).
      * intros [<- | (m & Hin & Hs & Hp)]; eauto 6.
      * intros (m & [<- | Hin] & Hs & Hp);
          [left; congruence | right; eauto].
    + rewrite IH. split.
      * intros (m & Hin & Hs & Hp). eauto.
      * intros (m & [<- | Hin] & Hs & Hp); [congruence | eauto].
Qed.

Lemma Servers_loop_length (ms : list serf.Member) :
  length (Servers_loop ms) <= length ms.
Proof.
  induction ms as [| m0 rest IH]; simpl; [lia |].
  destruct (toServerPart m0); [destruct (serf.Status m0) |]; simpl; lia.
Qed.

Lemma Servers_loop_app (ms1 ms2 : list serf.Member) :
  Servers_loop (ms1 ++ ms2) = Servers_loop ms1 ++ Servers_loop ms2.
Proof.
  induction ms1 as [| m0 rest IH]; simpl; [reflexivity |].
  destruct (toServerPart m0); [destruct (serf.Status m0) |]; simpl;
    now rewrite ?IH.
Qed.

(** X17.  [Servers] reads the members once and returns the parts of
    exactly those that are servers and alive, in the order of the members:
    a server that is leaving, has left or has failed is not listed, and
    neither is a member that is no server. *)
Theorem Servers_lists_alive_servers (ms : list serf.Member)
    (tr : list Event) (r : list ServerParts.t) :
  replay Servers (EvMembers ms :: tr) = Some r ->
  tr = []
  /\ (forall p,
        In p r <->
        exists m, In m ms /\ serf.Status m = serf.StatusAlive
                  /\ toServerPart m = Some p)
  /\ length r <= length ms
  /\ (forall ms1 ms2,
        ms = ms1 ++ ms2 -> r = Servers_loop ms1 ++ Servers_loop ms2).
Proof.
  intros H. unfold Servers in H. cbn [bind call] in H.
  erewrite replay_Vis_resp in H by reflexivity.
  replay_step H. split; [reflexivity |].
  split; [apply Servers_loop_In |].
  split; [apply Servers_loop_length |].
  intros ms1 ms2 ->. apply Servers_loop_app.
Qed.

End AgentQueriesFacts.

Section LeaderMemberFacts.

(** X18.  [leaderMember] returns the first member, in the order of the
    members, whose [rpc_addr] tag is the address of the leader; it
    returns [ErrLeaderNotFound] exactly when no member carries that
    address. *)
Theorem leaderMember_first_match (l : raft.ServerAddress)
    (ms : list serf.Member) :
  match leaderMember l ms with
  | Some m =>
      exists before after,
        ms = before ++ m :: after
        /\ tag "rpc_addr" m = l
        /\ forall m', In m' before -> tag "rpc_addr" m' <> l
  | None => forall m, In m ms -> tag "rpc_addr" m <> l
  end.
Proof.
  induction ms as [| m0 rest IH]; simpl.
  - contradiction.
  - destruct (String.eqb_spec (tag "rpc_addr" m0) l) as [E | N].
    + exists [], rest. split; [reflexivity |]. split; [exact E |].
      intros m' [].
    + destruct (leaderMember l rest) as [m |].
      * destruct IH as (before & after & -> & Hm & Hb).
        exists (m0 :: before), after.
        split; [reflexivity |]. split; [exact Hm |].
        intros m' [<- | Hin]; auto.
      * intros m [<- | Hin]; auto.
Qed.

Lemma tag_missing (k : string) (m : serf.Member) :
  (forall v, ~ In (k, v) (serf.Tags m)) -> tag k m = "".
Proof.
  unfold tag. intros Hno.
  destruct (find (fun kv => fst kv =? k) (serf.Tags m)) as [[k' v] |] eqn:Hf;
    [| reflexivity].
  apply find_some in Hf. destruct Hf as [Hin E]. simpl in E.
  apply String.eqb_eq in E. subst k'. now destruct (Hno v).
Qed.

(** X19.  While Raft knows no leader (its leader address is empty), a
    member that carries no [rpc_addr] tag is taken for the leader: the
    read of the missing tag gives the empty string, which equals the empty
    address, so [leaderMember] does not return [ErrLeaderNotFound] but a
    member without [rpc_addr]. *)
Theorem leaderMember_no_leader_untagged (ms : list serf.Member)
    (m : serf.Member) :
  In m ms ->
  (forall v, ~ In ("rpc_addr", v) (serf.Tags m)) ->
  exists m', leaderMember "" ms = Some m' /\ In m' ms
             /\ tag "rpc_addr" m' = "".
Proof.
  intros Hin Hno. pose proof (tag_missing _ _ Hno) as Ht.
  induction ms as [| m0 rest IH]; [destruct Hin |]. simpl.
  destruct (String.eqb_spec (tag "rpc_addr" m0) "") as [E | N].
  - exists m0. split; [reflexivity |]. split; [now left | exact E].
  - destruct Hin as [-> | Hin]; [contradiction |].
    destruct (IH Hin) as (m' & Hl & Hin' & Ht').
    exists m'. split; [exact Hl |]. split; [now right | exact Ht'].
Qed.

End LeaderMemberFacts.

Section StopFacts.

(** X20.  [Stop] always asks Raft to shut down first and never looks at
    the outcome; it then shuts the store down, leaves the gossip cluster
    and shuts serf down, in that order, and stops at the first of these
    three that fails, returning its error.  So a store that fails to shut
    down keeps the node in the gossip cluster, and the result is nil only
    if all three have succeeded. *)
Theorem Stop_stops_at_first_failure (answer : StopCall -> option Error) :
  firstn 2 (fst (Stop answer)) = [RaftShutdown; StoreShutdown]
  /\ (In SerfLeave (fst (Stop answer)) <-> answer StoreShutdown = None)
  /\ (In SerfShutdown (fst (Stop answer)) <->
      answer StoreShutdown = None /\ answer SerfLeave = None)
  /\ (snd (Stop answer) = None <->
      answer StoreShutdown = None /\ answer SerfLeave = None
      /\ answer SerfShutdown = None)
  /\ (forall e, snd (Stop answer) = Some e ->
        exists c, last (fst (Stop answer)) RaftShutdown = c
                  /\ c <> RaftShutdown /\ answer c = Some e)
  /\ (forall answer',
        (forall c, c <> RaftShutdown -> answer' c = answer c) ->
        Stop answer' = Stop answer).
Proof.
  unfold Stop.
  split; [| split; [| split; [| split; [| split]]]].
  - destruct (answer StoreShutdown); [reflexivity |].
    destruct (answer SerfLeave); [reflexivity |].
    destruct (answer SerfShutdown); reflexivity.
  - destruct (answer StoreShutdown); simpl.
    + split; [intros [E | [E | []]]; discriminate | discriminate].
    + destruct (answer SerfLeave); [| destruct (answer SerfShutdown)];
        simpl; split; auto.
  - destruct (answer StoreShutdown); simpl.
    + split; [intros [E | [E | []]]; discriminate
             | intros [E _]; discriminate].
    + destruct (answer SerfLeave); simpl.
      * split; [intros [E | [E | [E | []]]]; discriminate
               | intros [_ E]; discriminate].
      * destruct (answer SerfShutdown); simpl; split; auto 6.
  - destruct (answer StoreShutdown); simpl.
    + split; [discriminate | intros [E _]; discriminate].
    + destruct (answer SerfLeave); simpl.
      * split; [discriminate | intros (_ & E & _); discriminate].
      * destruct (answer SerfShutdown); simpl.
        -- split; [discriminate | intros (_ & _ & E); discriminate].
        -- split; auto.
  - intros e.
    destruct (answer StoreShutdown) eqn:E1; simpl.
    + intros [= <-]. exists StoreShutdown. repeat split; auto.
      discriminate.
    + destruct (answer SerfLeave) eqn:E2; simpl.
      * intros [= <-]. exists SerfLeave. repeat split; auto.
        discriminate.
      * destruct (answer SerfShutdown) eqn:E3; simpl;
          [| discriminate].
        intros [= <-]. exists SerfShutdown. repeat split; auto.
        discriminate.
  - intros answer' Hsame.
    rewrite !Hsame by discriminate. reflexivity.
Qed.

End StopFacts.

(** ** [setupSerf] *)

Section SetupSerfFacts.

Import SetupSerf.

Context {lib : Lib}.

Lemma getTag_setTag_same (k v : string) (tags : list (string * string)) :
  getTag k (setTag k v tags) = Some v.
Proof.
  unfold getTag.
  induction tags as [| [k' v'] rest IH]; simpl.
  - now rewrite String.eqb_refl.
  - destruct (k' =? k) eqn:E; simpl.
    + now rewrite String.eqb_refl.
    + rewrite E. exact IH.
Qed.

Lemma getTag_setTag_other (k k' v : string)
    (tags : list (string * string)) :
  k <> k' -> getTag k (setTag k' v tags) = getTag k tags.
Proof.
  intros Hne. unfold getTag.
  induction tags as [| [k0 v0] rest IH]; simpl.
  - apply String.eqb_neq in Hne. rewrite String.eqb_sym in Hne.
    now rewrite Hne.
  - destruct (k0 =? k') eqn:E; simpl.
    + apply String.eqb_eq in E. subst k0.
      apply String.eqb_neq in Hne. rewrite String.eqb_sym in Hne.
      now rewrite Hne.
    + destruct (k0 =? k); [reflexivity | exact IH].
Qed.

Lemma setupSerf_Created (cfg : Config.t) (s : Settings) (level : Level)
    (create : SerfConfig -> option Error) (c : SerfConfig) :
  setupSerf cfg s level create = Created c ->
  setupSerf_config cfg s level = Created c /\ create c = None.
Proof.
  unfold setupSerf.
  destruct (setupSerf_config cfg s level) as [c0 | e | e];
    try discriminate.
  destruct (create c0) eqn:Hc; [discriminate |].
  intros [= <-]. auto.
Qed.

Lemma setupSerf_config_Created (cfg : Config.t) (s : Settings)
    (level : Level) (c : SerfConfig) :
  setupSerf_config cfg s level = Created c ->
  Tags c = serfTags cfg
  /\ NodeName c = Config.NodeName cfg
  /\ memberlistFor (Profile s) = Some (MemberlistConfig c).
Proof.
  unfold setupSerf_config.
  destruct (AddrParts (BindAddr s)) as [e | [bindIP bindPort]];
    [discriminate |].
  destruct (if AdvertiseAddr s =? "" then inr ("", 0%Z)
            else AddrParts (AdvertiseAddr s)) as [e | [aIP aPort]];
    [discriminate |].
  destruct (decodeString (EncryptKey s)) as [e | key]; [discriminate |].
  destruct (memberlistFor (Profile s)) as [ml |]; [| discriminate].
  destruct (parseDuration (SerfReconnectTimeout s)) as [e | t];
    [discriminate |].
  intros [= <-]. simpl. auto.
Qed.

Lemma serfTags_version (cfg : Config.t) :
  getTag "version" (serfTags cfg) = Some Version.
Proof.
  unfold serfTags.
  destruct (Config.BootstrapExpect cfg =? 0)%Z;
    destruct (Config.Bootstrap cfg);
    rewrite ?getTag_setTag_other by discriminate;
    apply getTag_setTag_same.
Qed.

Lemma serfTags_bootstrap (cfg : Config.t) :
  getTag "bootstrap" (serfTags cfg)
  = if Config.Bootstrap cfg then Some "1" else None.
Proof.
  unfold serfTags.
  destruct (Config.BootstrapExpect cfg =? 0)%Z;
    destruct (Config.Bootstrap cfg);
    rewrite ?getTag_setTag_other by discriminate;
    rewrite ?getTag_setTag_same; reflexivity.
Qed.

Lemma serfTags_expect (cfg : Config.t) :
  getTag "expect" (serfTags cfg)
  = if (Config.BootstrapExpect cfg =? 0)%Z then None
    else Some (sprintfD (Config.BootstrapExpect cfg)).
Proof.
  unfold serfTags.
  destruct (Config.BootstrapExpect cfg =? 0)%Z;
    destruct (Config.Bootstrap cfg);
    rewrite ?getTag_setTag_same;
    rewrite ?getTag_setTag_other by discriminate;
    reflexivity.
Qed.

Lemma serfTags_others (cfg : Config.t) (k : string) :
  k <> "version" -> k <> "bootstrap" -> k <> "expect" ->
  getTag k (serfTags cfg) = None.
Proof.
  intros H1 H2 H3. unfold serfTags.
  destruct (Config.BootstrapExpect cfg =? 0)%Z;
    destruct (Config.Bootstrap cfg);
    rewrite ?getTag_setTag_other by assumption;
    reflexivity.
Qed.

(** X21.  The serf that [setupSerf] returns carries the name of the node
    and exactly these tags: [version], always; [bootstrap] with value [1]
    if and only if the configuration has [Bootstrap] set; [expect] with
    the decimal of [BootstrapExpect] if and only if that is not zero.  In
    particular it carries no [rpc_addr] and no [port] tag. *)
Theorem setupSerf_tags (cfg : Config.t) (s : Settings) (level : Level)
    (create : SerfConfig -> option Error) (c : SerfConfig) :
  setupSerf cfg s level create = Created c ->
  NodeName c = Config.NodeName cfg
  /\ getTag "version" (Tags c) = Some Version
  /\ getTag "bootstrap" (Tags c)
     = (if Config.Bootstrap cfg then Some "1" else None)
  /\ getTag "expect" (Tags c)
     = (if (Config.BootstrapExpect cfg =? 0)%Z then None
        else Some (sprintfD (Config.BootstrapExpect cfg)))
  /\ (forall k,
        k <> "version" -> k <> "bootstrap" -> k <> "expect" ->
        getTag k (Tags c) = None).
Proof.
  intros H. apply setupSerf_Created in H. destruct H as [H _].
  apply setupSerf_config_Created in H. destruct H as (-> & Hn & _).
  split; [exact Hn |].
  split; [apply serfTags_version |].
  split; [apply serfTags_bootstrap |].
  split; [apply serfTags_expect |].
  apply serfTags_others.
Qed.

Lemma memberlistFor_Some (profile : string) (ml : Memberlist) :
  memberlistFor profile = Some ml ->
  (profile = "lan" /\ ml = DefaultLAN)
  \/ (profile = "wan" /\ ml = DefaultWAN)
  \/ (profile = "local" /\ ml = DefaultLocal).
Proof.
  unfold memberlistFor.
  destruct (String.eqb_spec profile "lan");
    [intros [= <-]; auto |].
  destruct (String.eqb_spec profile "wan");
    [intros [= <-]; auto |].
  destruct (String.eqb_spec profile "local");
    [intros [= <-]; auto | discriminate].
Qed.

(** X22.  [setupSerf] makes a serf only for the profiles [lan], [wan] and
    [local], each with its own defaults of memberlist, and only from a
    configuration that [serf.Create] has accepted.  With any other profile
    it returns an error that [serf.Create] has not made, whatever
    [serf.Create] would answer, and it does not end the process, even when
    the reconnect timeout cannot be parsed: the profile is looked at
    before the timeout. *)
Theorem setupSerf_profiles (cfg : Config.t) (s : Settings) (level : Level)
    (create : SerfConfig -> option Error) :
  (forall c,
     setupSerf cfg s level create = Created c ->
     create c = None
     /\ ((Profile s = "lan" /\ MemberlistConfig c = DefaultLAN)
         \/ (Profile s = "wan" /\ MemberlistConfig c = DefaultWAN)
         \/ (Profile s = "local" /\ MemberlistConfig c = DefaultLocal)))
  /\ (Profile s <> "lan" -> Profile s <> "wan" -> Profile s <> "local" ->
      (exists e,
         setupSerf cfg s level create = Failed e
         /\ forall cause, e <> CreateFailed cause)
      /\ (forall create',
            setupSerf cfg s level create' = setupSerf cfg s level create)
      /\ (forall bind key,
            AddrParts (BindAddr s) = inr bind ->
            AdvertiseAddr s = "" ->
            decodeString (EncryptKey s) = inr key ->
            setupSerf cfg s level create
            = Failed (UnknownProfile (Profile s)))).
Proof.
  split.
  - intros c H. apply setupSerf_Created in H. destruct H as [H Hc].
    apply setupSerf_config_Created in H. destruct H as (_ & _ & Hml).
    split; [exact Hc |]. now apply memberlistFor_Some.
  - intros Hl Hw Hlo.
    assert (Hnone : memberlistFor (Profile s) = None).
    { unfold memberlistFor.
      apply String.eqb_neq in Hl, Hw, Hlo. now rewrite Hl, Hw, Hlo. }
    assert (Hcfg : forall create0,
               setupSerf cfg s level create0 = setupSerf_config cfg s level
               /\ exists e, setupSerf_config cfg s level = Failed e
                            /\ forall cause, e <> CreateFailed cause).
    { intros create0. unfold setupSerf, setupSerf_config.
      destruct (AddrParts (BindAddr s)) as [e | [bindIP bindPort]];
        [split; [reflexivity | eexists; split;
                               [reflexivity | discriminate]] |].
      destruct (if AdvertiseAddr s =? "" then inr ("", 0%Z)
                else AddrParts (AdvertiseAddr s)) as [e | [aIP aPort]];
        [split; [reflexivity | eexists; split;
                               [reflexivity | discriminate]] |].
      destruct (decodeString (EncryptKey s)) as [e | key];
        [split; [reflexivity | eexists; split;
                               [reflexivity | discriminate]] |].
      rewrite Hnone.
      split; [reflexivity | eexists; split;
                            [reflexivity | discriminate]]. }
    split; [| split].
    + destruct (Hcfg create) as (-> & e & He & Hne). eauto.
    + intros create'.
      destruct (Hcfg create) as (-> & _).
      now destruct (Hcfg create') as (-> & _).
    + intros bind key Hb Ha Hk.
      destruct (Hcfg create) as (-> & _).
      unfold setupSerf_config. rewrite Hb. destruct bind as [bindIP bindPort].
      rewrite Ha. simpl. rewrite Hk, Hnone. reflexivity.
Qed.

(** X23.  Take an agent configured with [BootstrapExpect] of 1 and
    without [Bootstrap].  The tags that [setupSerf] makes from its
    configuration announce [expect] and not [bootstrap].  [setupRaft] on
    the same agent bootstraps the cluster whenever [HasExistingState]
    answers that the stores hold no state, and from the configuration
    that [setupRaft] leaves, whatever its outcome, the tags of
    [setupSerf] would announce [bootstrap]: the tag depends on whether
    the configuration is read before or after [setupRaft]. *)
Theorem serfTags_across_setupRaft (a a' : Agent) (tr : list Event)
    (err : option Error) :
  Config.BootstrapExpect (config a) = 1%Z ->
  Config.Bootstrap (config a) = false ->
  replay (setupRaft a) tr = Some (a', err) ->
  getTag "bootstrap" (serfTags (config a)) = None
  /\ getTag "expect" (serfTags (config a)) = Some "1"
  /\ getTag "bootstrap" (serfTags (config a')) = Some "1"
  /\ getTag "expect" (serfTags (config a')) = Some "1"
  /\ (forall l s n,
        In (EvHasExistingState l s n (inr false)) tr ->
        existsb isBootstrapCluster tr = true).
Proof.
  intros He Hb H.
  pose proof (setupRaft_config_expected a a' tr err H) as Hcfg.
  destruct (bootstrapExpected_config a) as (_ & _ & _ & He' & Hb' & _).
  rewrite !serfTags_bootstrap, !serfTags_expect.
  rewrite Hcfg, He', He, Hb.
  assert (Hb1 : Config.Bootstrap (config (bootstrapExpected a)) = true).
  { rewrite Hb', He, Hb. reflexivity. }
  rewrite Hb1. simpl.
  split; [reflexivity |]. split; [reflexivity |].
  split; [reflexivity |]. split; [reflexivity |].
  intros l s n Hin.
  apply setupRaft_shape in H.
  destruct H as (t & tail & -> & Hst & Hc).
  destruct Hin as [E | Hin]; [discriminate |].
  apply in_app_or in Hin. destruct Hin as [Hin | Hin].
  { destruct (storeEvent_not_state _ (Hst _ Hin)) as (_ & Hne & _).
    now destruct (Hne l s n (inr false)). }
  assert (Hboot : exists id l' s' n' cfg r,
             In (EvBootstrapCluster id l' s' n' cfg r) tail).
  { destruct Hc as [(-> & _) | (_ & l0 & s0 & n0 & Hc)]; [destruct Hin |].
    destruct Hc as [(_ & id & r & ->) | (_ & Hc)].
    { destruct Hin as [E | []]. discriminate. }
    destruct Hc as [(e & ->) | [(id & r & ->) | (addr & r & tn & -> & _)]].
    - destruct Hin as [E | []]. discriminate.
    - destruct Hin as [E | [E | []]]; discriminate.
    - do 6 eexists. right. right. left. reflexivity. }
  destruct Hboot as (id & l' & s' & n' & cfg & r & Hbt).
  apply existsb_exists. exists (EvBootstrapCluster id l' s' n' cfg r).
  split; [| reflexivity].
  right. apply in_or_app. right. exact Hbt.
Qed.

End SetupSerfFacts.

(** ** Concrete runs of the further properties *)

Section FurtherRuns.

Import Example Scenario.
#[local] Existing Instance ext.
#[local] Existing Instance lib.

(** [node2] has left and two servers hold its ID: one removal, whose
    failure is the result. *)
Lemma removeRaftPeer_removes_by_id_witness :
  replay (removeRaftPeer leader leftNode2 (parts "node2" false))
    [EvGetConfiguration (inr doubledConfiguration);
     EvRemoveServer "node2" (Some lost)]
  = Some (Some lost)
  /\ [EvRemoveServer "node2" (Some lost)]
     = [EvRemoveServer (ServerParts.ID (parts "node2" false)) (Some lost)].
Proof.
  split; [reflexivity |].
  destruct (removeRaftPeer_removes_by_id leader leftNode2
              (parts "node2" false) doubledConfiguration
              [EvRemoveServer "node2" (Some lost)] (Some lost))
    as [H _]; [reflexivity |].
  apply H. exists (voter "node2" "10.0.0.2:6868").
  split; [simpl; auto | reflexivity].
Defined.

(** The removal of [old] is for a server that holds the address of
    [node2]. *)
Lemma addRaftPeer_changes_only_target_witness :
  replay (addRaftPeer leader node2 (parts "node2" false)) staleTrace
  = Some None
  /\ exists cfg s,
       In (EvGetConfiguration (inr cfg)) staleTrace /\ In s cfg
       /\ raft.ID s = "old"
       /\ raft.Address s = targetAddr node2 (parts "node2" false)
       /\ "old" <> ServerParts.ID (parts "node2" false).
Proof.
  split; [reflexivity |].
  destruct (addRaftPeer_changes_only_target leader node2
              (parts "node2" false) staleTrace None) as [H _];
    [reflexivity |].
  apply (H "old" None). simpl. auto.
Defined.

(** The configuration cannot be read for [node2]. *)
Lemma RefreshMember_configuration_error_witness :
  replay (RefreshMember leader node2) failingMemberTrace = Some (Some lost)
  /\ filter isConfigChange failingMemberTrace = []
  /\ In (refreshMemberFailedLog node2 lost) failingMemberTrace.
Proof.
  split; [reflexivity |].
  destruct (RefreshMember_configuration_error leader node2
              failingMemberTrace (Some lost) lost) as (_ & H1 & H2).
  - reflexivity.
  - simpl. auto.
  - split; [exact H1 | exact H2].
Defined.

(** [boot1] meets [boot2]: the configuration is not fetched. *)
Lemma addRaftPeer_fetches_unless_conflict_witness :
  replay (addRaftPeer leader boot1 (parts "node1" true))
    [EvMembers [boot1; boot2]; bothBootstrapLog boot1 boot2] = Some None
  /\ forall res,
       ~ In (EvGetConfiguration res) [bothBootstrapLog boot1 boot2].
Proof.
  split; [reflexivity |].
  destruct (addRaftPeer_fetches_unless_conflict leader boot1
              (parts "node1" true) [boot1; boot2]
              [bothBootstrapLog boot1 boot2] None) as [H _];
    [reflexivity |].
  apply H. split; [reflexivity |].
  exists boot2, (parts "node2" true).
  split; [simpl; auto |].
  split; [discriminate |].
  split; reflexivity.
Defined.

(** The sweep over [client; node2; node3] that fails at [node2]. *)
Lemma Refresh_sweeps_in_order_witness :
  exists body,
    failingMemberTrace ++ [EvMeasureSince metricRefresh]
    = body ++ [EvMeasureSince metricRefresh]
    /\ ((Some lost = None
         /\ exists trs,
              Forall2 (fun mi ti =>
                         replay (RefreshMember leader mi) ti = Some None)
                [client; node2; node3] trs
              /\ body = concat trs)
        \/ (exists ms1 m ms2 trs tm e,
              [client; node2; node3] = ms1 ++ m :: ms2
              /\ Forall2 (fun mi ti =>
                            replay (RefreshMember leader mi) ti = Some None)
                   ms1 trs
              /\ replay (RefreshMember leader m) tm = Some (Some e)
              /\ body = concat trs ++ tm
              /\ Some lost = Some e)).
Proof.
  apply (Refresh_sweeps_in_order leader [client; node2; node3]
           (failingMemberTrace ++ [EvMeasureSince metricRefresh])
           (Some lost)).
  reflexivity.
Defined.

(** A membership of one client. *)
Lemma Refresh_without_servers_witness :
  replay (Refresh leader) [EvMembers [client]; EvMeasureSince metricRefresh]
  = Some None.
Proof.
  destruct (Refresh_without_servers leader [client]) as [H _].
  - intros m [<- | []]. reflexivity.
  - exact H.
Defined.

(** The first barrier fails, the second succeeds. *)
Lemma leaderLoop_no_work_before_barrier_witness :
  replay (leaderLoop leader 3) barrierRetryTrace = Some true
  /\ filter isReconcileWork (untilBarrierOk barrierRetryTrace) = [].
Proof.
  split; [reflexivity |].
  apply (leaderLoop_no_work_before_barrier leader 3 barrierRetryTrace true).
  reflexivity.
Defined.

Lemma monitorLeadership_never_closes_twice_witness :
  Monitor.run Monitor.init monitorInputs = Some monitorState
  /\ NoDup (Monitor.closed monitorState).
Proof.
  split; [vm_compute; reflexivity |].
  apply (monitorLeadership_never_closes_twice monitorInputs monitorState).
  vm_compute. reflexivity.
Defined.

(** Leadership gained and lost: the monitor waits, and its wait can
    end. *)
Lemma monitorLeadership_wait_can_end_witness :
  exists s,
    Monitor.run Monitor.init waitingInputs = Some s
    /\ Monitor.pc s = Monitor.Waiting
    /\ exists more s',
         length more <= 2
         /\ Monitor.run s more = Some s'
         /\ Monitor.pc s' = Monitor.Selecting
         /\ Monitor.weAreLeaderCh s' = None /\ Monitor.loops s' = [].
Proof.
  eexists. split; [reflexivity |]. split; [reflexivity |].
  apply (monitorLeadership_wait_can_end waitingInputs); reflexivity.
Defined.

(** Shutdown while the loop runs: the monitor has returned. *)
Lemma monitorLeadership_after_return_witness :
  exists s,
    Monitor.run Monitor.init returnedInputs = Some s
    /\ Monitor.pc s = Monitor.Returned
    /\ Monitor.shutdown s = true.
Proof.
  eexists. split; [reflexivity |]. split; [reflexivity |].
  apply (monitorLeadership_after_return returnedInputs); reflexivity.
Defined.

(** The log cache cannot be made. *)
Lemma setupRaft_store_failure_witness :
  replay (setupRaft bootAgent) cacheFailedTrace
  = Some (setRaftStore (setBootstrap bootAgent true) (Some boltStore),
          Some lost)
  /\ Some lost = Some lost
  /\ filter isRaftStart cacheFailedTrace = []
  /\ raftUp (setRaftStore (setBootstrap bootAgent true) (Some boltStore))
     = raftUp bootAgent.
Proof.
  split; [reflexivity |].
  apply (setupRaft_store_failure bootAgent
           (setRaftStore (setBootstrap bootAgent true) (Some boltStore))
           cacheFailedTrace (Some lost)
           (EvNewLogCache raftLogCacheSize boltStore (Some lost)) lost).
  - reflexivity.
  - simpl. auto.
  - reflexivity.
Defined.

Lemma setupRaft_raft_set_iff_nil_witness :
  replay (setupRaft bootAgent) bootTrace
  = Some (setRaftUp (setRaftStore (setBootstrap bootAgent true)
                       (Some boltStore)), None)
  /\ (raftUp (setRaftUp (setRaftStore (setBootstrap bootAgent true)
                           (Some boltStore))) = true
      <-> @None Error = None)
  /\ (@None Error = None <->
      exists id l s n, In (EvNewRaft id l s n None) bootTrace).
Proof.
  split; [reflexivity |].
  apply (setupRaft_raft_set_iff_nil bootAgent
           (setRaftUp (setRaftStore (setBootstrap bootAgent true)
                         (Some boltStore))) bootTrace None);
    reflexivity.
Defined.

Lemma setupRaft_closes_store_iff_cache_failed_witness :
  In (EvCloseStore boltStore) cacheFailedTrace <->
  exists n x, In (EvNewLogCache n boltStore (Some x)) cacheFailedTrace.
Proof.
  apply (setupRaft_closes_store_iff_cache_failed bootAgent
           (setRaftStore (setBootstrap bootAgent true) (Some boltStore))
           cacheFailedTrace (Some lost) boltStore).
  reflexivity.
Defined.

(** A bootstrap node restarted on its stores. *)
Lemma setupRaft_existing_state_no_bootstrap_witness :
  filter isBootstrapCluster restartTrace = []
  /\ exists r,
       In (EvNewRaft (Config.NodeName (config restartAgent))
             (LogCache raftLogCacheSize boltStore) boltStore snapStore r)
          restartTrace
       /\ (r = None <-> @None Error = None).
Proof.
  apply (setupRaft_existing_state_no_bootstrap restartAgent
           (setRaftUp (setRaftStore restartAgent (Some boltStore)))
           restartTrace None
           (LogCache raftLogCacheSize boltStore) boltStore snapStore).
  - reflexivity.
  - simpl. auto 10.
Defined.

Lemma setupRaft_config_after_witness :
  replay (setupRaft bootAgent) cacheFailedTrace
  = Some (setRaftStore (setBootstrap bootAgent true) (Some boltStore),
          Some lost)
  /\ Config.Bootstrap
       (config (setRaftStore (setBootstrap bootAgent true)
                  (Some boltStore)))
     = (Config.Bootstrap (config bootAgent)
        || (Config.BootstrapExpect (config bootAgent) =? 1)%Z).
Proof.
  split; [reflexivity |].
  destruct (setupRaft_config_after bootAgent
              (setRaftStore (setBootstrap bootAgent true) (Some boltStore))
              cacheFailedTrace (Some lost)) as (Hb & _);
    [reflexivity | exact Hb].
Defined.

Lemma setupRaft_stores_used_witness :
  (forall e st,
     In e devTrace -> eventStores e = Some st -> st = chosenStores devAgent)
  /\ filter isStoreEvent devTrace = [].
Proof.
  destruct (setupRaft_stores_used devAgent
              (setRaftUp (setRaftInmemStore devAgent (Some InmemStore)))
              devTrace None) as (H1 & _ & H3); [reflexivity |].
  split; [exact H1 | apply H3; reflexivity].
Defined.

(** A client, a server that is alive and a server that has left. *)
Lemma Servers_lists_alive_servers_witness :
  replay Servers [EvMembers mixedMembers] = Some [parts "node2" false]
  /\ length [parts "node2" false] <= length mixedMembers.
Proof.
  split; [reflexivity |].
  destruct (Servers_lists_alive_servers mixedMembers []
              [parts "node2" false]) as (_ & _ & H & _);
    [reflexivity | exact H].
Defined.

(** The leader is at the address that [tagged] announces. *)
Lemma leaderMember_first_match_witness :
  exists before after,
    [untagged; tagged] = before ++ tagged :: after
    /\ tag "rpc_addr" tagged = "10.0.0.3:6868"
    /\ forall m', In m' before -> tag "rpc_addr" m' <> "10.0.0.3:6868".
Proof.
  exact (leaderMember_first_match "10.0.0.3:6868" [untagged; tagged]).
Defined.

(** No leader is known and [node2] carries no [rpc_addr]. *)
Lemma leaderMember_no_leader_untagged_witness :
  exists m',
    leaderMember "" [tagged; untagged] = Some m'
    /\ In m' [tagged; untagged] /\ tag "rpc_addr" m' = "".
Proof.
  apply (leaderMember_no_leader_untagged [tagged; untagged] untagged).
  - simpl. auto.
  - intros v H. simpl in H.
    destruct H as [H | [H | [H | []]]]; discriminate H.
Defined.

(** The store fails to shut down: serf is not left. *)
Lemma Stop_stops_at_first_failure_witness :
  Stop storeStuck = ([RaftShutdown; StoreShutdown], Some lost)
  /\ exists c,
       last (fst (Stop storeStuck)) RaftShutdown = c
       /\ c <> RaftShutdown /\ storeStuck c = Some lost.
Proof.
  split; [reflexivity |].
  destruct (Stop_stops_at_first_failure storeStuck)
    as (_ & _ & _ & _ & H & _).
  apply (H lost). reflexivity.
Defined.

Lemma setupSerf_tags_witness :
  SetupSerf.setupSerf (config bootAgent) (settings "lan") InfoLevel
    (fun _ => None) = SetupSerf.Created lanSerf
  /\ SetupSerf.NodeName lanSerf = "node1"
  /\ SetupSerf.getTag "version" (SetupSerf.Tags lanSerf) = Some "1.0.0"
  /\ SetupSerf.getTag "bootstrap" (SetupSerf.Tags lanSerf) = None
  /\ SetupSerf.getTag "expect" (SetupSerf.Tags lanSerf) = Some "1".
Proof.
  split; [reflexivity |].
  destruct (setupSerf_tags (config bootAgent) (settings "lan") InfoLevel
              (fun _ => None) lanSerf)
    as (H1 & H2 & H3 & H4 & _); [reflexivity |].
  split; [exact H1 |]. split; [exact H2 |].
  split; [exact H3 | exact H4].
Defined.

(** A profile that is none of the three. *)
Lemma setupSerf_profiles_witness :
  SetupSerf.setupSerf (config bootAgent) (settings "cloud") InfoLevel
    (fun _ => None)
  = SetupSerf.Failed (SetupSerf.UnknownProfile "cloud").
Proof.
  destruct (setupSerf_profiles (config bootAgent) (settings "cloud")
              InfoLevel (fun _ => None)) as (_ & H).
  destruct H as (_ & _ & H); [discriminate .. |].
  apply (H ("10.0.0.1", 8946%Z) []); reflexivity.
Defined.

Lemma serfTags_across_setupRaft_witness :
  replay (setupRaft bootAgent) bootTrace
  = Some (setRaftUp (setRaftStore (setBootstrap bootAgent true)
                       (Some boltStore)), None)
  /\ SetupSerf.getTag "bootstrap" (SetupSerf.serfTags (config bootAgent))
     = None
  /\ SetupSerf.getTag "bootstrap"
       (SetupSerf.serfTags
          (config (setRaftUp (setRaftStore (setBootstrap bootAgent true)
                                (Some boltStore)))))
     = Some "1"
  /\ existsb isBootstrapCluster bootTrace = true.
Proof.
  split; [reflexivity |].
  destruct (serfTags_across_setupRaft bootAgent
              (setRaftUp (setRaftStore (setBootstrap bootAgent true)
                            (Some boltStore))) bootTrace None)
    as (H1 & _ & H3 & _ & H5); [reflexivity .. |].
  split; [exact H1 |]. split; [exact H3 |].
  apply (H5 (LogCache raftLogCacheSize boltStore) boltStore snapStore).
  simpl. auto 10.
Defined.

End FurtherRuns.
